(** * Plarix Scan: the cost-recording pipeline, embedded and verified

    The development follows the Go packages of the repository:

    - [Go]: the parts of the Go runtime and standard library the program
      relies on (64-bit [int], IEEE-754 [float64], [strings], [strconv.Quote],
      [time]);
    - [json]: the values [encoding/json] decodes into [interface{}];
    - [pricing]: [internal/pricing/pricing.go];
    - [ledger]: [internal/ledger/ledger.go];
    - [scan]: the [OnEntry] callback of [cmd/plarix-scan/main.go];
    - [proxy]: [internal/proxy/proxy.go];
    - [totals] and [fixtures]: the exact sums the summary is compared with,
      and concrete inputs, those of the repository's tests among them;
    - [views] and [run]: the entries of one model or of one reason, and a
      run of the callback over the calls of a session;
    - [routes] and [lifecycle]: the routing steps of [ServeHTTP], and
      [Start], [Stop] and [Port] of the proxy server;
    - [cli]: [loadPricing], the proxy configuration and the last lines of
      [runCmd] in [cmd/plarix-scan/main.go];
    - [GoLib], [regexp] and [action]: package [action] (comments on pull
      requests, the step summary) with what it needs of the Go library;
    - [samples]: concrete inputs for the instances of the later theorems.

    The definitions come first; the lemmas and theorems follow under
    "Verification".

    Numbers are modelled as the program has them: an [int] is a [Z] with the
    two's-complement wrap-around of a 64-bit word written out, a [float64] is a
    binary64 value of the Standard Library's [SpecFloat] with its
    round-to-nearest-even operations. A Go [string] is a sequence of bytes,
    here [string]. A Go map that may be [nil] is an [option (gmap _ _)]. *)

From Stdlib Require Import ZArith Floats Lia List Permutation Ascii.
From Stdlib Require DecimalString.
From stdpp Require Import gmap strings list.

Set Warnings "-inexact-float,-register-all".
Local Open Scope Z_scope.

(** ** Results of fallible calls *)

Inductive result (A : Type) : Type :=
| Ok (a : A)
| Err (msg : string).
Arguments Ok {A} a.
Arguments Err {A} msg.

(** * The Go runtime *)

Module Go.

(** *** [int]: 64-bit two's complement *)

Definition minInt : Z := - 2 ^ 63.
Definition maxInt : Z := 2 ^ 63 - 1.

Definition wrap (z : Z) : Z := (z + 2 ^ 63) mod 2 ^ 64 - 2 ^ 63.

Definition int_add (a b : Z) : Z := wrap (a + b).

Definition is_int (z : Z) : Prop := minInt <= z <= maxInt.

(** *** [float64]: IEEE-754 binary64, round to nearest even

    Every operation is rounded on its own, as the compiler does on amd64: a
    product and a sum are not fused. *)

Definition float64 : Type := spec_float.

Definition lit (x : PrimFloat.float) : float64 := Prim2SF x.

Definition f64_zero : float64 := S754_zero false.
Definition f64_add : float64 -> float64 -> float64 := SFadd prec emax.
Definition f64_mul : float64 -> float64 -> float64 := SFmul prec emax.
Definition f64_div : float64 -> float64 -> float64 := SFdiv prec emax.
Definition f64_eqb : float64 -> float64 -> bool := SFeqb.
Definition f64_ltb : float64 -> float64 -> bool := SFltb.
Definition f64_leb : float64 -> float64 -> bool := SFleb.

(** The conversion [float64(i)] of an [int]. *)
Definition float64_of_int (i : Z) : float64 :=
  binary_normalize prec emax i 0 false.

(** A finite value that is not negative: [+0] or a positive finite number. *)
Definition finite_nonneg (f : float64) : bool :=
  match f with
  | S754_zero false => true
  | S754_finite false _ _ => true
  | _ => false
  end.

(** What a sum, product or quotient of such values can be. *)
Definition signed_nonneg (f : float64) : bool :=
  match f with
  | S754_zero false | S754_finite false _ _ | S754_infinity false => true
  | _ => false
  end.

(** *** Bytes and strings *)

Definition code (c : ascii) : Z := Z.of_N (Ascii.N_of_ascii c).
Definition byte (z : Z) : ascii := Ascii.ascii_of_N (Z.to_N z).

Fixpoint len (s : string) : Z :=
  match s with
  | EmptyString => 0
  | String _ t => 1 + len t
  end.

Fixpoint skip (n : nat) (s : string) : string :=
  match n, s with
  | O, _ => s
  | S n', String _ t => skip n' t
  | S _, EmptyString => EmptyString
  end.

Fixpoint first (n : nat) (s : string) : string :=
  match n, s with
  | S n', String c t => String c (first n' t)
  | _, _ => EmptyString
  end.

Fixpoint HasPrefix (s prefix : string) {struct prefix} : bool :=
  match prefix, s with
  | EmptyString, _ => true
  | String p pt, String c t => if Ascii.eqb p c then HasPrefix t pt else false
  | String _ _, EmptyString => false
  end.

Definition TrimPrefix (s prefix : string) : string :=
  if HasPrefix s prefix then skip (String.length prefix) s else s.

Fixpoint Contains (s substr : string) : bool :=
  HasPrefix s substr ||
  match s with
  | EmptyString => false
  | String _ t => Contains t substr
  end.

(** [strings.SplitN(s, sep, 2)] for a one-byte separator: the text before
    the first separator and the text after it, or [s] alone. *)
Fixpoint SplitN2 (s : string) (sep : ascii) : list string :=
  match s with
  | EmptyString => [EmptyString]
  | String c t =>
      if Ascii.eqb c sep then [EmptyString; t]
      else match SplitN2 t sep with
           | [a] => [String c a]
           | a :: rest => String c a :: rest
           | [] => []
           end
  end.

(** [strings.ToUpper] on ASCII text, which is what the program applies it
    to (the keys of [providerTargets]); bytes from 0x80 on are kept as they
    are. *)
Definition upper (c : ascii) : ascii :=
  if (97 <=? code c) && (code c <=? 122) then byte (code c - 32) else c.

Fixpoint ToUpper (s : string) : string :=
  match s with
  | EmptyString => EmptyString
  | String c t => String (upper c) (ToUpper t)
  end.

(** *** [strconv.Quote], the [%q] verb of [fmt] on a string

    [unicodePrint] stands for the tables of [strconv.IsPrint] above U+00FF,
    which belong to the Go distribution. *)

Definition RuneError : Z := 0xFFFD.

Definition hexdigit (n : Z) : ascii :=
  match String.get (Z.to_nat n) "0123456789abcdef" with
  | Some c => c
  | None => "0"%char
  end.

(** [r] on [width] hexadecimal digits, most significant first. *)
Fixpoint hex (width : nat) (r : Z) : string :=
  match width with
  | O => EmptyString
  | S w => String (hexdigit (Z.land (Z.shiftr r (4 * Z.of_nat w)) 15)) (hex w r)
  end.

Definition between (lo hi : Z) (c : ascii) : bool :=
  (lo <=? code c) && (code c <=? hi).

(** [utf8.DecodeRuneInString]: the rune at the head of [s] and its width. *)
Definition DecodeRuneInString (s : string) : Z * nat :=
  match s with
  | EmptyString => (RuneError, 0%nat)
  | String c0 t =>
      let b0 := code c0 in
      if b0 <? 0x80 then (b0, 1%nat)
      else if (b0 <? 0xC2) || (0xF4 <? b0) then (RuneError, 1%nat)
      else
        let size := if b0 <? 0xE0 then 2 else if b0 <? 0xF0 then 3 else 4 in
        let lo := if b0 =? 0xE0 then 0xA0 else if b0 =? 0xF0 then 0x90 else 0x80 in
        let hi := if b0 =? 0xED then 0x9F else if b0 =? 0xF4 then 0x8F else 0xBF in
        match t with
        | EmptyString => (RuneError, 1%nat)
        | String c1 t1 =>
            if len s <? size then (RuneError, 1%nat)
            else if negb (between lo hi c1) then (RuneError, 1%nat)
            else if size <=? 2 then
              (Z.lor (Z.shiftl (Z.land b0 0x1F) 6) (Z.land (code c1) 0x3F), 2%nat)
            else
              match t1 with
              | EmptyString => (RuneError, 1%nat)
              | String c2 t2 =>
                  if negb (between 0x80 0xBF c2) then (RuneError, 1%nat)
                  else if size <=? 3 then
                    (Z.lor (Z.shiftl (Z.land b0 0x0F) 12)
                       (Z.lor (Z.shiftl (Z.land (code c1) 0x3F) 6)
                          (Z.land (code c2) 0x3F)), 3%nat)
                  else
                    match t2 with
                    | EmptyString => (RuneError, 1%nat)
                    | String c3 _ =>
                        if negb (between 0x80 0xBF c3) then (RuneError, 1%nat)
                        else
                          (Z.lor (Z.shiftl (Z.land b0 0x07) 18)
                             (Z.lor (Z.shiftl (Z.land (code c1) 0x3F) 12)
                                (Z.lor (Z.shiftl (Z.land (code c2) 0x3F) 6)
                                   (Z.land (code c3) 0x3F))), 4%nat)
                    end
              end
        end
  end.

Definition ValidRune (r : Z) : bool :=
  ((0 <=? r) && (r <? 0xD800)) || ((0xDFFF <? r) && (r <=? 0x10FFFF)).

(** *** [strings.TrimSpace]

    White space is what [unicode.IsSpace] says: the ASCII blanks, U+0085 and
    U+00A0 in Latin-1, and the rest of the [White_Space] table. The string is
    trimmed rune by rune, from the left with [utf8.DecodeRuneInString] and
    from the right with [utf8.DecodeLastRuneInString]; a byte that is not
    UTF-8 decodes to [RuneError], which is no space. *)

Definition IsSpace (r : Z) : bool :=
  if r <=? 0xFF then
    (r =? 9) || (r =? 10) || (r =? 11) || (r =? 12) || (r =? 13) || (r =? 32)
    || (r =? 0x85) || (r =? 0xA0)
  else
    (r =? 0x1680) || ((0x2000 <=? r) && (r <=? 0x200A)) || (r =? 0x2028)
    || (r =? 0x2029) || (r =? 0x202F) || (r =? 0x205F) || (r =? 0x3000).

Definition RuneStart (b : Z) : bool := negb (Z.land b 0xC0 =? 0x80).

(** The byte [s[i]]. *)
Definition byteAt (s : string) (i : Z) : Z :=
  match String.get (Z.to_nat i) s with
  | Some c => code c
  | None => 0
  end.

(** The loop of [DecodeLastRuneInString]: back from [start] to a byte that
    starts a rune, no further than [lim]. *)
Fixpoint runeStartFrom (fuel : nat) (s : string) (lim start : Z) : Z :=
  match fuel with
  | O => start
  | S k =>
      if start <? lim then start
      else if RuneStart (byteAt s start) then start
      else runeStartFrom k s lim (start - 1)
  end.

Definition DecodeLastRuneInString (s : string) : Z * nat :=
  let stop := len s in
  if stop =? 0 then (RuneError, 0%nat)
  else
    let r := byteAt s (stop - 1) in
    if r <? 0x80 then (r, 1%nat)
    else
      let lim := Z.max 0 (stop - 4) in
      let start := Z.max 0 (runeStartFrom 4 s lim (stop - 2)) in
      let '(r, size) := DecodeRuneInString (skip (Z.to_nat start) s) in
      if negb (start + Z.of_nat size =? stop) then (RuneError, 1%nat) else (r, size).

Section TrimFunc.
Variable f : Z -> bool.

(** [s[indexFunc(s, f, false):]], empty when every rune satisfies [f]. *)
Fixpoint trimLeftFunc (fuel : nat) (s : string) : string :=
  match fuel, s with
  | S k, String _ _ =>
      let '(r, size) := DecodeRuneInString s in
      if f r then trimLeftFunc k (skip size s) else s
  | _, _ => EmptyString
  end.

Definition TrimLeftFunc (s : string) : string := trimLeftFunc (String.length s) s.

(** [lastIndexFunc(s, f, false)] over [s[0:i]]: [None] is -1. *)
Fixpoint lastIndexFunc (fuel : nat) (s : string) (i : nat) : option nat :=
  match fuel with
  | O => None
  | S k =>
      if Nat.eqb i 0 then None
      else
        let '(r, size) := DecodeLastRuneInString (first i s) in
        let i := (i - size)%nat in
        if f r then lastIndexFunc k s i else Some i
  end.

Definition TrimRightFunc (s : string) : string :=
  match lastIndexFunc (String.length s) s (String.length s) with
  | Some i =>
      if 0x80 <=? byteAt s (Z.of_nat i)
      then first (i + snd (DecodeRuneInString (skip i s))) s
      else first (i + 1) s
  | None => EmptyString
  end.

Definition TrimFunc (s : string) : string := TrimRightFunc (TrimLeftFunc s).
End TrimFunc.

Definition TrimSpace (s : string) : string := TrimFunc IsSpace s.

Section Quote.
Variable unicodePrint : Z -> bool.

Definition IsPrint (r : Z) : bool :=
  if r <=? 0xFF then
    if (0x20 <=? r) && (r <=? 0x7E) then true
    else if (0xA1 <=? r) && (r <=? 0xFF) then negb (r =? 0xAD)
    else false
  else unicodePrint r.

(** [appendEscapedRune] for the double quote, neither ASCII-only nor
    graphic-only; [enc] is the UTF-8 encoding of [r]. *)
Definition appendEscapedRune (r : Z) (enc : string) : string :=
  if (r =? 34) || (r =? 92) then String "\"%char (String (byte r) EmptyString)
  else if IsPrint r then enc
  else if r =? 7 then "\a"
  else if r =? 8 then "\b"
  else if r =? 12 then "\f"
  else if r =? 10 then "\n"
  else if r =? 13 then "\r"
  else if r =? 9 then "\t"
  else if r =? 11 then "\v"
  else if (r <? 32) || (r =? 0x7F) then "\x" +:+ hex 2 r
  else if negb (ValidRune r) then "\u" +:+ hex 4 RuneError
  else if r <? 0x10000 then "\u" +:+ hex 4 r
  else "\U" +:+ hex 8 r.

Fixpoint appendQuoted (fuel : nat) (s : string) : string :=
  match fuel, s with
  | S fuel', String c0 _ =>
      let '(r, width) :=
        if code c0 <? 0x80 then (code c0, 1%nat) else DecodeRuneInString s in
      if (Nat.eqb width 1) && (r =? RuneError) then
        "\x" +:+ hex 2 (code c0) +:+ appendQuoted fuel' (skip 1 s)
      else
        appendEscapedRune r (first width s) +:+ appendQuoted fuel' (skip width s)
  | _, _ => EmptyString
  end.

Definition Quote (s : string) : string :=
  String "034"%char (appendQuoted (String.length s) s +:+ String "034"%char EmptyString).

End Quote.

(** A byte [%q] prints as it is: printable ASCII other than the double quote
    and the backslash. *)
Definition plainByte (c : ascii) : bool :=
  (32 <=? code c) && (code c <=? 126)
  && negb (code c =? 34) && negb (code c =? 92).

Fixpoint plainName (s : string) : bool :=
  match s with
  | EmptyString => true
  | String c t => plainByte c && plainName t
  end.

(** *** [time]: instants and durations in nanoseconds *)

Definition Time : Type := Z.      (* nanoseconds since 1970-01-01T00:00:00Z *)
Definition Duration : Type := Z.  (* an int64 count of nanoseconds *)

Definition minDuration : Duration := - 2 ^ 63.
Definition maxDuration : Duration := 2 ^ 63 - 1.
Definition Hour : Duration := 3600 * 10 ^ 9.

Definition isLeap (year : Z) : bool :=
  (year mod 4 =? 0) && (negb (year mod 100 =? 0) || (year mod 400 =? 0)).

Definition daysIn (month year : Z) : Z :=
  if month =? 2 then (if isLeap year then 29 else 28)
  else if (month =? 4) || (month =? 6) || (month =? 9) || (month =? 11) then 30
  else 31.

(** Days from 1970-01-01 to the given day of the proleptic Gregorian
    calendar. *)
Definition daysSinceEpoch (year month day : Z) : Z :=
  let y := if month <=? 2 then year - 1 else year in
  let era := y / 400 in
  let yoe := y - era * 400 in
  let mp := if month <=? 2 then month + 9 else month - 3 in
  let doy := (153 * mp + 2) / 5 + day - 1 in
  let doe := yoe * 365 + yoe / 4 - yoe / 100 + doy in
  era * 146097 + doe - 719468.

(** [time.Date(year, month, day, 0, 0, 0, 0, time.UTC)]. *)
Definition Date (year month day : Z) : Time :=
  daysSinceEpoch year month day * 86400 * 10 ^ 9.

Definition isDigit (c : ascii) : bool := (48 <=? code c) && (code c <=? 57).
Definition digit (c : ascii) : Z := code c - 48.

(** [time.Parse("2006-01-02", value)]: four digits of year, two of month, two
    of day, nothing else; the month in 1..12 and the day within the month. *)
Definition ParseDate (value : string) : option Time :=
  match value with
  | String y0 (String y1 (String y2 (String y3 (String "-" (String m0 (String m1
      (String "-" (String d0 (String d1 EmptyString))))))))) =>
      if forallb isDigit [y0; y1; y2; y3; m0; m1; d0; d1] then
        let year := digit y0 * 1000 + digit y1 * 100 + digit y2 * 10 + digit y3 in
        let month := digit m0 * 10 + digit m1 in
        let day := digit d0 * 10 + digit d1 in
        if (month <=? 0) || (12 <? month) then None
        else if (day <? 1) || (daysIn month year <? day) then None
        else Some (Date year month day)
      else None
  | _ => None
  end.

(** [t.Sub(u)]: the difference, or the largest (smallest) duration when the
    difference does not fit one. *)
Definition Sub (t u : Time) : Duration :=
  let d := t - u in
  if maxDuration <? d then maxDuration
  else if d <? minDuration then minDuration
  else d.

(** [time.Since(t)] when the clock reads [now]. *)
Definition Since (now t : Time) : Duration := Sub now t.

End Go.

(** * Values of [encoding/json] *)

Module json.

(** What [json.Unmarshal] stores in an [interface{}]. *)
Inductive value : Type :=
| Null
| Bool (b : bool)
| Number (f : Go.float64)
| Str (s : string)
| Array (l : list value)
| Object (m : gmap string value).

(** A [map[string]interface{}], [None] when it is [nil]. *)
Definition object : Type := option (gmap string value).

(** [m[k]] with the comma-ok form: reading a [nil] map finds nothing. *)
Definition get {V : Type} (m : option (gmap string V)) (k : string) : option V :=
  match m with
  | Some m' => m' !! k
  | None => None
  end.

End json.

(** * [internal/pricing] *)

Module pricing.

Record ModelPrice : Type := {
  InputPer1K : Go.float64;
  OutputPer1K : Go.float64
}.

Record Prices : Type := {
  AsOf : string;
  Models : option (gmap string ModelPrice)
}.

Record CostResult : Type := {
  CostUSD : Go.float64;
  Known : bool;
  UnknownReason : string
}.

Section Load.
(** [os.ReadFile] and [json.Unmarshal] into a [Prices]: a missing ["models"]
    member (or a [null] one) leaves [Models] nil. *)
Variable os_ReadFile : string -> result string.
Variable json_Unmarshal : string -> result Prices.

Definition Load (path : string) : result Prices :=
  match os_ReadFile path with
  | Err e => Err ("read pricing file: " +:+ e)
  | Ok data =>
      match json_Unmarshal data with
      | Err e => Err ("parse pricing file: " +:+ e)
      | Ok p =>
          match Models p with
          | None => Ok {| AsOf := AsOf p; Models := Some ∅ |}
          | Some _ => Ok p
          end
      end
  end.

End Load.

Section ComputeCost.
Variable unicodePrint : Z -> bool.

Definition ComputeCost (p : Prices) (model : string)
    (inputTokens outputTokens : Z) : CostResult :=
  match json.get (Models p) model with
  | None =>
      {| CostUSD := Go.f64_zero;
         Known := false;
         UnknownReason :=
           "model " +:+ Go.Quote unicodePrint model +:+ " not in pricing table" |}
  | Some mp =>
      let cost :=
        Go.f64_div
          (Go.f64_add
             (Go.f64_mul (Go.float64_of_int inputTokens) (InputPer1K mp))
             (Go.f64_mul (Go.float64_of_int outputTokens) (OutputPer1K mp)))
          (Go.lit 1000) in
      {| CostUSD := cost; Known := true; UnknownReason := EmptyString |}
  end.

End ComputeCost.

(** A table whose rates are finite and not negative. *)
Definition nonnegRates (p : Prices) : Prop :=
  forall (model : string) (mp : ModelPrice),
    json.get (Models p) model = Some mp ->
    Go.finite_nonneg (InputPer1K mp) = true /\
    Go.finite_nonneg (OutputPer1K mp) = true.

(** [IsStale] when the clock reads [now]. *)
Definition IsStale (now : Go.Time) (p : Prices) (maxAge : Go.Duration) : bool :=
  match Go.ParseDate (AsOf p) with
  | None => true
  | Some asOf => maxAge <? Go.Since now asOf
  end.

Definition StaleWarning (now : Go.Time) (p : Prices) : string :=
  if IsStale now p (60 * 24 * Go.Hour) then
    "Pricing table may be stale (as_of: " +:+ AsOf p +:+ ")"
  else EmptyString.

End pricing.

(** * [internal/ledger] *)

Module ledger.

Record Entry : Type := {
  Timestamp : string;
  Provider : string;
  Endpoint : string;
  Model : string;
  InputTokens : Z;
  OutputTokens : Z;
  RawUsage : json.object;
  CostUSD : Go.float64;
  CostKnown : bool;
  UnknownReason : string;
  RequestID : string;
  Streaming : bool
}.

(** Assignments to single fields of an entry. *)
Definition set_Timestamp (ts : string) (e : Entry) : Entry :=
  {| Timestamp := ts; Provider := Provider e; Endpoint := Endpoint e;
     Model := Model e; InputTokens := InputTokens e;
     OutputTokens := OutputTokens e; RawUsage := RawUsage e;
     CostUSD := CostUSD e; CostKnown := CostKnown e;
     UnknownReason := UnknownReason e; RequestID := RequestID e;
     Streaming := Streaming e |}.

Definition set_CostUSD (c : Go.float64) (e : Entry) : Entry :=
  {| Timestamp := Timestamp e; Provider := Provider e; Endpoint := Endpoint e;
     Model := Model e; InputTokens := InputTokens e;
     OutputTokens := OutputTokens e; RawUsage := RawUsage e;
     CostUSD := c; CostKnown := CostKnown e;
     UnknownReason := UnknownReason e; RequestID := RequestID e;
     Streaming := Streaming e |}.

Definition set_unknown (reason : string) (e : Entry) : Entry :=
  {| Timestamp := Timestamp e; Provider := Provider e; Endpoint := Endpoint e;
     Model := Model e; InputTokens := InputTokens e;
     OutputTokens := OutputTokens e; RawUsage := RawUsage e;
     CostUSD := CostUSD e; CostKnown := false;
     UnknownReason := reason; RequestID := RequestID e;
     Streaming := Streaming e |}.

(** [Entry{Provider: provider, Endpoint: endpoint, Streaming: streaming}],
    every other field at its zero value. *)
Definition newEntry (provider endpoint : string) (streaming : bool) : Entry :=
  {| Timestamp := EmptyString; Provider := provider; Endpoint := endpoint;
     Model := EmptyString; InputTokens := 0; OutputTokens := 0;
     RawUsage := None; CostUSD := Go.f64_zero; CostKnown := false;
     UnknownReason := EmptyString; RequestID := EmptyString;
     Streaming := streaming |}.

(** The invariant of a record (spec, section 3): a known cost comes with no
    reason and is not negative; an unknown cost comes with a reason. *)
Definition invariant (e : Entry) : Prop :=
  (CostKnown e = true ->
   UnknownReason e = EmptyString /\ Go.f64_leb Go.f64_zero (CostUSD e) = true) /\
  (CostKnown e = false -> UnknownReason e <> EmptyString).

Module ModelStats.
Record t : Type := {
  Calls : Z;
  InputTokens : Z;
  OutputTokens : Z;
  KnownCostUSD : Go.float64
}.
Definition zero : t :=
  {| Calls := 0; InputTokens := 0; OutputTokens := 0;
     KnownCostUSD := Go.f64_zero |}.
End ModelStats.

Record Summary : Type := {
  TotalCalls : Z;
  KnownCostCalls : Z;
  UnknownCostCalls : Z;
  TotalKnownCostUSD : Go.float64;
  TotalInputTokens : Z;
  TotalOutputTokens : Z;
  ModelBreakdown : gmap string ModelStats.t;
  UnknownReasons : gmap string Z;
  Warnings : list string
}.

(** The summary [Summary] starts from: zero counters and two empty maps. *)
Definition emptySummary : Summary :=
  {| TotalCalls := 0; KnownCostCalls := 0; UnknownCostCalls := 0;
     TotalKnownCostUSD := Go.f64_zero; TotalInputTokens := 0;
     TotalOutputTokens := 0; ModelBreakdown := ∅; UnknownReasons := ∅;
     Warnings := [] |}.

(** [m[k]++] on a map of counters. *)
Definition incr (k : string) (m : gmap string Z) : gmap string Z :=
  <[k := Go.int_add (default 0 (m !! k)) 1]> m.

(** The update of the per-model breakdown for one entry. *)
Definition addModel (e : Entry) (m : gmap string ModelStats.t)
    : gmap string ModelStats.t :=
  let ms := default ModelStats.zero (m !! Model e) in
  <[Model e :=
      {| ModelStats.Calls := Go.int_add (ModelStats.Calls ms) 1;
         ModelStats.InputTokens :=
           Go.int_add (ModelStats.InputTokens ms) (InputTokens e);
         ModelStats.OutputTokens :=
           Go.int_add (ModelStats.OutputTokens ms) (OutputTokens e);
         ModelStats.KnownCostUSD :=
           if CostKnown e
           then Go.f64_add (ModelStats.KnownCostUSD ms) (CostUSD e)
           else ModelStats.KnownCostUSD ms |}]> m.

(** The body of the loop of [Summary], for one entry. *)
Definition step (s : Summary) (e : Entry) : Summary :=
  {| TotalCalls := Go.int_add (TotalCalls s) 1;
     KnownCostCalls :=
       if CostKnown e then Go.int_add (KnownCostCalls s) 1
       else KnownCostCalls s;
     UnknownCostCalls :=
       if CostKnown e then UnknownCostCalls s
       else Go.int_add (UnknownCostCalls s) 1;
     TotalKnownCostUSD :=
       if CostKnown e then Go.f64_add (TotalKnownCostUSD s) (CostUSD e)
       else TotalKnownCostUSD s;
     TotalInputTokens := Go.int_add (TotalInputTokens s) (InputTokens e);
     TotalOutputTokens := Go.int_add (TotalOutputTokens s) (OutputTokens e);
     ModelBreakdown := addModel e (ModelBreakdown s);
     UnknownReasons :=
       if CostKnown e then UnknownReasons s
       else if String.eqb (UnknownReason e) EmptyString then UnknownReasons s
       else incr (UnknownReason e) (UnknownReasons s);
     Warnings := Warnings s |}.

Module Aggregator.
Record t : Type := { entries : list Entry }.

Definition NewAggregator : t := {| entries := [] |}.

Definition Add (a : t) (e : Entry) : t := {| entries := entries a ++ [e] |}.

Definition Summary (a : t) : ledger.Summary :=
  fold_left step (entries a) emptySummary.

Definition Entries (a : t) : list Entry := entries a.
End Aggregator.

(** The ledger file: what each write left in it, in the order of the
    writes; the file is their concatenation. *)
Module Writer.
Record t : Type := { file : list string }.

(** [append(data, '\n')]. *)
Definition line (data : string) : string := data +:+ String "010"%char EmptyString.

Section Write.
(** [json.Marshal] of an entry, [time.Now().UTC().Format(time.RFC3339)], and
    [os.File.Write] on the handle, given what the earlier writes left and
    the bytes to write: [None] when every byte is written, the number of
    bytes written and the error otherwise. *)
Variable json_Marshal : Entry -> result string.
Variable clock : string.
Variable file_Write : list string -> string -> option (nat * string).

Definition Write (w : t) (e : Entry) : t * option string :=
  let e :=
    if String.eqb (Timestamp e) EmptyString then set_Timestamp clock e else e in
  match json_Marshal e with
  | Err msg => (w, Some msg)
  | Ok data =>
      match file_Write (file w) (line data) with
      | None => ({| file := file w ++ [line data] |}, None)
      | Some (n, err) => ({| file := file w ++ [Go.first n (line data)] |}, Some err)
      end
  end.
End Write.
End Writer.

End ledger.

(** * The [OnEntry] callback of [cmd/plarix-scan] *)

Module scan.

Record Run : Type := {
  agg : ledger.Aggregator.t;
  writer : ledger.Writer.t;
  stderr : list string
}.

Section OnEntry.
Variable unicodePrint : Z -> bool.
Variable json_Marshal : ledger.Entry -> result string.
Variable clock : string.
Variable file_Write : list string -> string -> option (nat * string).
Variable prices : pricing.Prices.

(** The pricing stage: the entry as it is recorded. *)
Definition price (e : ledger.Entry) : ledger.Entry :=
  if ledger.CostKnown e && negb (String.eqb (ledger.Model e) EmptyString) then
    let result :=
      pricing.ComputeCost unicodePrint prices (ledger.Model e)
        (ledger.InputTokens e) (ledger.OutputTokens e) in
    if pricing.Known result then ledger.set_CostUSD (pricing.CostUSD result) e
    else ledger.set_unknown (pricing.UnknownReason result) e
  else e.

Definition OnEntry (e : ledger.Entry) (st : Run) : Run :=
  let e := price e in
  let a := ledger.Aggregator.Add (agg st) e in
  match ledger.Writer.Write json_Marshal clock file_Write (writer st) e with
  | (w, None) => {| agg := a; writer := w; stderr := stderr st |}
  | (w, Some err) =>
      {| agg := a; writer := w;
         stderr := stderr st ++
           ["Warning: failed to write ledger entry: " +:+ err] |}
  end.

End OnEntry.

End scan.

(** * [internal/proxy] *)

Module proxy.

(** What reading a body delivers: its chunks in order, then the end of the
    stream, or a read error when [fails] is set. *)
Record Stream : Type := { chunks : list string; fails : bool }.

Definition NopCloser (data : string) : Stream :=
  {| chunks := [data]; fails := false |}.

(** A reader that was read up to its error. *)
Definition consumed : Stream := {| chunks := []; fails := true |}.

Definition ReadAll (b : Stream) : result string :=
  if fails b then Err "unexpected EOF" else Ok (String.concat EmptyString (chunks b)).

Module Request.
Record t : Type := {
  Method : string;
  Path : string;
  Header : list (string * string);
  Body : option Stream;
  ContentLength : Z
}.
Definition set_Body (b : Stream) (n : Z) (r : t) : t :=
  {| Method := Method r; Path := Path r; Header := Header r;
     Body := Some b; ContentLength := n |}.
(** The bytes the transport reads from the body of [r]. *)
Definition bytes (r : t) : result string :=
  match Body r with
  | Some b => ReadAll b
  | None => Ok EmptyString
  end.
(** The declared length of a request: -1 when it is not known, the length of
    the body otherwise. *)
Definition declares (r : t) (body : string) : Prop :=
  ContentLength r = -1 \/ ContentLength r = Go.len body.
End Request.

Module Response.
Record t (B : Type) : Type := {
  StatusCode : Z;
  ContentType : string;
  Body : B;
  ContentLength : Z
}.
Arguments StatusCode {B} _.
Arguments ContentType {B} _.
Arguments Body {B} _.
Arguments ContentLength {B} _.
Definition set_Body {B C : Type} (b : C) (n : Z) (r : t B) : t C :=
  {| StatusCode := StatusCode r; ContentType := ContentType r;
     Body := b; ContentLength := n |}.
End Response.

Definition providerTargets : gmap string string :=
  <["openai" := "https://api.openai.com"]>
    (<["anthropic" := "https://api.anthropic.com"]>
       (<["openrouter" := "https://openrouter.ai"]> ∅)).

(** The provider a path names: its first segment. *)
Definition firstSegment (path : string) : string :=
  hd EmptyString (Go.SplitN2 (Go.TrimPrefix path "/") "/"%char).

(** A callback that appends the entry to a log. *)
Definition record (e : ledger.Entry) (log : list ledger.Entry) : list ledger.Entry :=
  log ++ [e].

(** ** The request mutator *)

Section Inject.
(** [json.Unmarshal] into a [map[string]interface{}] and [json.Marshal] of
    one. *)
Variable json_Unmarshal : string -> result json.object.
Variable json_Marshal : json.object -> result string.

(** The payload after the conditional assignment of ["stream_options"]. *)
Definition withStreamOptions (payload : json.object) : json.object :=
  match payload with
  | None => None
  | Some m =>
      match m !! "stream" with
      | Some (json.Bool true) =>
          match m !! "stream_options" with
          | None =>
              Some (<["stream_options" :=
                        json.Object {["include_usage" := json.Bool true]}]> m)
          | Some _ => payload
          end
      | _ => payload
      end
  end.

Definition injectStreamOptions (r : Request.t) : Request.t :=
  match Request.Body r with
  | None => r
  | Some b =>
      if Request.ContentLength r =? 0 then r
      else
        match ReadAll b with
        | Err _ => Request.set_Body consumed (Request.ContentLength r) r
        | Ok body =>
            match json_Unmarshal body with
            | Err _ => Request.set_Body (NopCloser body) (Go.len body) r
            | Ok payload =>
                match json_Marshal (withStreamOptions payload) with
                | Err _ => Request.set_Body (NopCloser body) (Go.len body) r
                | Ok modified =>
                    Request.set_Body (NopCloser modified) (Go.len modified) r
                end
            end
        end
  end.

End Inject.

(** ** The response interceptor *)

Section Intercept.
(** The state the [OnEntry] callback works on. *)
Context {St : Type}.

Record Config : Type := {
  Providers : list string;
  OnEntry : option (ledger.Entry -> St -> St);
  StreamUsageInjection : bool
}.

(** The providers' parsers ([providers/openai] and its siblings), which fill
    an entry from a response body. *)
Variable openai_ParseResponse : string -> ledger.Entry -> ledger.Entry.
Variable anthropic_ParseResponse : string -> ledger.Entry -> ledger.Entry.
Variable openrouter_ParseResponse : string -> ledger.Entry -> ledger.Entry.

Definition parseUsage (provider endpoint body : string) : ledger.Entry :=
  let entry := ledger.newEntry provider endpoint false in
  if String.eqb provider "openai" then openai_ParseResponse body entry
  else if String.eqb provider "anthropic" then anthropic_ParseResponse body entry
  else if String.eqb provider "openrouter" then openrouter_ParseResponse body entry
  else ledger.set_unknown "unsupported provider" entry.

(** Modelled from the spec: the usage a provider reports in one decoded
    stream chunk (the providers' chunk parsers are not among the sources);
    section 4.4. *)
Record Usage : Type := {
  usageInput : Z;
  usageOutput : Z;
  usageRaw : json.object
}.

(** Modelled from the spec: the state of the streaming interceptor that
    [newStreamInterceptor] installs (its file is not among the sources);
    section 4.3, "Streaming mode": the bytes not yet split into events, the
    usage and model captured so far, and whether the record was emitted. *)
Record streamInterceptor : Type := {
  siProvider : string;
  siEndpoint : string;
  buf : string;
  usage : option Usage;
  model : string;
  emitted : bool;
  onEntry : ledger.Entry -> St -> St
}.

(** Modelled from the spec: [newStreamInterceptor], an interceptor that has
    seen nothing yet. *)
Definition newStreamInterceptor (provider endpoint : string)
    (onEntry : ledger.Entry -> St -> St) : streamInterceptor :=
  {| siProvider := provider; siEndpoint := endpoint; buf := EmptyString;
     usage := None; model := EmptyString; emitted := false;
     onEntry := onEntry |}.

(** A response body as the reverse proxy copies it to the caller: the
    transport's reader, or that reader behind a stream interceptor. *)
Inductive ReadCloser : Type :=
| Plain (b : Stream)
| Intercepted (b : Stream) (si : streamInterceptor).

Variable config : Config.

Definition handleResponse (provider endpoint : string)
    (resp : Response.t Stream) (s : St) : Response.t ReadCloser * St :=
  let unchanged :=
    Response.set_Body (Plain (Response.Body resp)) (Response.ContentLength resp) resp in
  if (Response.StatusCode resp <? 200) || (300 <=? Response.StatusCode resp) then
    (unchanged, s)
  else
    let contentType := Response.ContentType resp in
    if Go.Contains contentType "text/event-stream" then
      let interceptor :=
        newStreamInterceptor provider endpoint
          (fun e s' => match OnEntry config with
                       | Some f => f e s'
                       | None => s'
                       end) in
      (Response.set_Body (Intercepted (Response.Body resp) interceptor)
         (Response.ContentLength resp) resp, s)
    else if negb (Go.Contains contentType "application/json") then
      (unchanged, s)
    else
      match ReadAll (Response.Body resp) with
      | Err _ =>
          (Response.set_Body (Plain consumed) (Response.ContentLength resp) resp, s)
      | Ok body =>
          let resp' := Response.set_Body (Plain (NopCloser body)) (Go.len body) resp in
          let entry := parseUsage provider endpoint body in
          match OnEntry config with
          | Some f => (resp', f entry s)
          | None => (resp', s)
          end
      end.

(** *** Streaming mode *)

(** The per-chunk extractor of the providers (not among the sources): the
    usage recognised in one decoded payload, if any, and the model it names
    (empty when it names none); and the choice between a usage captured
    earlier and a later one. *)
Variable parseChunk : string -> string -> option Usage * string.
Variable moreComplete : Usage -> Usage -> Usage.

(** Modelled from the spec: the event before the first blank line of the
    accumulated bytes and the bytes after it (4.3, item 2: "boundary: a blank
    line"). *)
Fixpoint cutEvent (s : string) : option (string * string) :=
  match s with
  | EmptyString => None
  | String c t =>
      if Ascii.eqb c "010"%char && Go.HasPrefix t (String "010"%char EmptyString)
      then Some (EmptyString, Go.skip 1 t)
      else match cutEvent t with
           | Some (ev, rest) => Some (String c ev, rest)
           | None => None
           end
  end.

(** Modelled from the spec: the complete events of the accumulated bytes, and
    the incomplete rest (4.3, item 2). *)
Fixpoint splitEvents (fuel : nat) (s : string) : list string * string :=
  match fuel with
  | O => ([], s)
  | S n =>
      match cutEvent s with
      | None => ([], s)
      | Some (ev, rest) =>
          let '(evs, r) := splitEvents n rest in (ev :: evs, r)
      end
  end.

(** Modelled from the spec: the payload of the first "data:" line of an event
    (4.3, item 2: "each event's data: payload"). *)
Fixpoint dataPayload (fuel : nat) (ev : string) : option string :=
  match fuel with
  | O => None
  | S n =>
      match Go.SplitN2 ev "010"%char with
      | line :: more =>
          if Go.HasPrefix line "data:" then Some (Go.TrimSpace (Go.skip 5 line))
          else match more with
               | rest :: _ => dataPayload n rest
               | [] => None
               end
      | [] => None
      end
  end.

(** Modelled from the spec: what one decoded payload adds to the interceptor
    (4.3, item 3: the first or most complete usage object, and the first model
    name seen). *)
Definition capture (si : streamInterceptor) (payload : string) : streamInterceptor :=
  let '(u, m) := parseChunk (siProvider si) payload in
  {| siProvider := siProvider si; siEndpoint := siEndpoint si; buf := buf si;
     usage := match usage si, u with
              | Some old, Some new => Some (moreComplete old new)
              | None, Some new => Some new
              | old, None => old
              end;
     model := if String.eqb (model si) EmptyString then m else model si;
     emitted := emitted si; onEntry := onEntry si |}.

(** Modelled from the spec: the events of one read, in order, up to the
    terminator payload; the flag tells whether the terminator was met (4.3,
    item 4). *)
Fixpoint feed (events : list string) (si : streamInterceptor)
    : streamInterceptor * bool :=
  match events with
  | [] => (si, false)
  | ev :: rest =>
      match dataPayload (S (String.length ev)) ev with
      | Some payload =>
          if String.eqb payload "[DONE]" then (si, true)
          else feed rest (capture si payload)
      | None => feed rest si
      end
  end.

(** Modelled from the spec: the record of a stream (4.3, items 4 and 5):
    cost-known when usage was captured and the stream ended normally,
    otherwise unknown with the reason of the ending. *)
Definition streamEntry (abort : option string) (si : streamInterceptor) : ledger.Entry :=
  let known := match abort, usage si with
               | None, Some _ => true
               | _, _ => false
               end in
  {| ledger.Timestamp := EmptyString;
     ledger.Provider := siProvider si;
     ledger.Endpoint := siEndpoint si;
     ledger.Model := model si;
     ledger.InputTokens := match usage si with Some u => usageInput u | None => 0 end;
     ledger.OutputTokens := match usage si with Some u => usageOutput u | None => 0 end;
     ledger.RawUsage := match usage si with Some u => usageRaw u | None => None end;
     ledger.CostUSD := Go.f64_zero;
     ledger.CostKnown := known;
     ledger.UnknownReason :=
       match abort, usage si with
       | Some reason, _ => reason
       | None, Some _ => EmptyString
       | None, None => "streaming usage not available"
       end;
     ledger.RequestID := EmptyString;
     ledger.Streaming := true |}.

(** Modelled from the spec: finalization; the record is emitted unless it
    already was (4.3, item 6). *)
Definition finalize (abort : option string) (si : streamInterceptor) (s : St)
    : streamInterceptor * St :=
  if emitted si then (si, s)
  else
    ({| siProvider := siProvider si; siEndpoint := siEndpoint si;
        buf := buf si; usage := usage si; model := model si;
        emitted := true; onEntry := onEntry si |},
     onEntry si (streamEntry abort si) s).

(** Where a stream stands: nothing emitted and the state untouched, or one
    record emitted through the callback. *)
Definition once (f : ledger.Entry -> St -> St) (s0 : St)
    (st : streamInterceptor * St) : Prop :=
  onEntry (fst st) = f /\
  ((emitted (fst st) = false /\ snd st = s0) \/
   (emitted (fst st) = true /\
    exists e, ledger.Streaming e = true /\ snd st = f e s0)).

(** Modelled from the spec: a read that delivers [chunk]: the bytes go to
    the caller as they are (item 1), and the events they complete are
    examined (items 2 to 4). *)
Definition onData (chunk : string) (si : streamInterceptor) (s : St)
    : streamInterceptor * St :=
  if emitted si then (si, s)
  else
    let acc := buf si +:+ chunk in
    let '(evs, rest) := splitEvents (String.length acc) acc in
    let '(si1, done) :=
      feed evs
        {| siProvider := siProvider si; siEndpoint := siEndpoint si;
           buf := rest; usage := usage si; model := model si;
           emitted := emitted si; onEntry := onEntry si |} in
    if done then finalize None si1 s else (si1, s).

(** Modelled from the spec: the end of the upstream body, an upstream read
    error, and the close of the body by the proxy before either (items 4
    and 5). *)
Definition onEOF (si : streamInterceptor) (s : St) : streamInterceptor * St :=
  finalize None si s.

Definition onReadError (si : streamInterceptor) (s : St) : streamInterceptor * St :=
  finalize (Some "stream read error") si s.

Definition Close (si : streamInterceptor) (s : St) : streamInterceptor * St :=
  finalize (Some "client disconnected") si s.

(** ** The reverse proxy's copy of a response body to the caller

    [client] bounds the writes the caller accepts: [Some n] when the caller
    goes away after [n] chunks, [None] when it reads to the end. *)

Definition accepts (client : option nat) : option (option nat) :=
  match client with
  | None => Some None
  | Some O => None
  | Some (S n) => Some (Some n)
  end.

Fixpoint copyPlain (cs : list string) (client : option nat) : list string :=
  match cs with
  | [] => []
  | c :: rest =>
      match accepts client with
      | None => []
      | Some client' => c :: copyPlain rest client'
      end
  end.

Fixpoint copyIntercepted (cs : list string) (failing : bool)
    (client : option nat) (si : streamInterceptor) (s : St)
    : list string * (streamInterceptor * St) :=
  match cs with
  | [] => ([], if failing then onReadError si s else onEOF si s)
  | c :: rest =>
      let '(si1, s1) := onData c si s in
      match accepts client with
      | None => ([], (si1, s1))
      | Some client' =>
          let '(out, st) := copyIntercepted rest failing client' si1 s1 in
          (c :: out, st)
      end
  end.

(** Whether the copy reaches the end of the body: no read fails, and the
    caller takes every chunk. *)
Fixpoint completes (cs : list string) (failing : bool) (client : option nat) : bool :=
  match cs with
  | [] => negb failing
  | _ :: rest =>
      match accepts client with
      | None => false
      | Some client' => completes rest failing client'
      end
  end.

(** [copyResponse], then [res.Body.Close()]: the chunks written, whether the
    copy reached the end of the body, and the state of the callback. *)
Definition copyResponse (body : ReadCloser) (client : option nat) (s : St)
    : list string * bool * St :=
  match body with
  | Plain b => (copyPlain (chunks b) client, completes (chunks b) (fails b) client, s)
  | Intercepted b si =>
      let '(out, (si1, s1)) := copyIntercepted (chunks b) (fails b) client si s in
      (out, completes (chunks b) (fails b) client, snd (Close si1 s1))
  end.

(** ** The dispatcher *)

Record URL : Type := { Scheme : string; Host : string }.

(** The request the transport sends: the director's target and path, and the
    inbound request with the body the mutator left. *)
Record Outbound : Type := {
  Target : URL;
  TargetPath : string;
  Forwarded : Request.t
}.

(** What the caller gets: a status and the body chunks written; the same,
    after which the connection is dropped, when the copy of the body breaks
    off ([http.ErrAbortHandler]); or a connection dropped without a reply. *)
Inductive ClientResponse : Type :=
| Replied (status : Z) (body : list string)
| Broken (status : Z) (body : list string)
| Aborted.

(** The outcome of a copy that wrote [out]. *)
Definition written (status : Z) (out : list string) (complete : bool) : ClientResponse :=
  if complete then Replied status out else Broken status out.

Definition http_Error (msg : string) (status : Z) : ClientResponse :=
  Replied status [msg +:+ String "010"%char EmptyString].

Definition StatusBadRequest : Z := 400.
Definition StatusBadGateway : Z := 502.

Section Serve.
Variable json_Unmarshal : string -> result json.object.
Variable json_Marshal : json.object -> result string.
Variable url_Parse : string -> result URL.
(** [os.Getenv], the transport's round trip, and the caller. *)
Variable env : string -> string.
Variable transport : Outbound -> result (Response.t Stream).
Variable client : option nat.

(** The two callbacks of the reverse proxy after a round trip that
    succeeded: [ModifyResponse], then the copy to the caller. *)
Definition respond (provider targetPath : string) (resp : Response.t Stream) (s : St)
    : ClientResponse * St :=
  let '(resp', s1) := handleResponse provider targetPath resp s in
  let '(out, complete, s2) := copyResponse (Response.Body resp') client s1 in
  (written (Response.StatusCode resp') out complete, s2).

Definition ServeHTTP (r : Request.t) (s : St) : ClientResponse * St :=
  let pathParts := Go.SplitN2 (Go.TrimPrefix (Request.Path r) "/") "/"%char in
  match pathParts with
  | [] => (http_Error "invalid path" StatusBadRequest, s)
  | provider :: more =>
      match providerTargets !! provider with
      | None =>
          (http_Error ("unknown provider: " +:+ provider) StatusBadRequest, s)
      | Some targetBase =>
          let targetPath :=
            match more with
            | rest :: _ => "/" +:+ rest
            | [] => "/"
            end in
          let targetURL :=
            match url_Parse targetBase with
            | Ok u => Some u
            | Err _ => None
            end in
          let override :=
            Go.TrimSpace (env ("PLARIX_UPSTREAM_" +:+ Go.ToUpper provider)) in
          let targetURL :=
            if String.eqb override EmptyString then targetURL
            else match url_Parse override with
                 | Ok parsed => Some parsed
                 | Err _ => targetURL
                 end in
          let r :=
            if StreamUsageInjection config && String.eqb provider "openai"
            then injectStreamOptions json_Unmarshal json_Marshal r
            else r in
          match targetURL with
          | None => (Aborted, s)
          | Some u =>
              match transport {| Target := u; TargetPath := targetPath; Forwarded := r |} with
              | Err err =>
                  (http_Error ("proxy error: " +:+ err) StatusBadGateway, s)
              | Ok resp => respond provider targetPath resp s
              end
          end
      end
  end.

End Serve.

End Intercept.

End proxy.

(** * Reference totals

    The exact sums and counts the totals of a summary are compared with. *)

Module totals.

Definition indicator (b : bool) : Z := if b then 1 else 0.

Fixpoint sum (g : ledger.Entry -> Z) (l : list ledger.Entry) : Z :=
  match l with
  | [] => 0
  | e :: rest => g e + sum g rest
  end.

(** The costs of the cost-known entries, in the order of the entries. *)
Definition knownCosts (l : list ledger.Entry) : list Go.float64 :=
  map ledger.CostUSD (filter (fun e => ledger.CostKnown e = true) l).

End totals.

(** * Fixtures

    Concrete tables, files and messages, taken from the tests of the
    repository where they have them. *)

Module fixtures.

(** No rune above U+00FF counts as printable. *)
Definition noTable (r : Z) : bool := false.

(** The table of [TestComputeCost]. *)
Definition prices : pricing.Prices :=
  {| pricing.AsOf := "2026-01-01";
     pricing.Models :=
       Some {[ "gpt-4o" :=
                 {| pricing.InputPer1K := Go.lit 0.0025;
                    pricing.OutputPer1K := Go.lit 0.01 |} ]} |}.

(** A disk with one pricing file, the JSON text of an empty object, and the
    decoding of that text: no date, no models. *)
Definition disk (path : string) : result string :=
  if String.eqb path "prices/prices.json" then Ok "{}"
  else Err "no such file or directory".

Definition decodePrices (data : string) : result pricing.Prices :=
  if String.eqb data "{}" then
    Ok {| pricing.AsOf := EmptyString; pricing.Models := None |}
  else Err "invalid character".

(** A cost-known call of [gpt-4o] with the given cost. *)
Definition call (cost : Go.float64) : ledger.Entry :=
  {| ledger.Timestamp := EmptyString; ledger.Provider := "openai";
     ledger.Endpoint := "/v1/chat/completions"; ledger.Model := "gpt-4o";
     ledger.InputTokens := 100; ledger.OutputTokens := 50;
     ledger.RawUsage := None; ledger.CostUSD := cost;
     ledger.CostKnown := true; ledger.UnknownReason := EmptyString;
     ledger.RequestID := EmptyString; ledger.Streaming := false |}.

Definition threeCalls : list ledger.Entry :=
  [call (Go.lit 0.1); call (Go.lit 0.2); call (Go.lit 0.3)].

(** The clock at the time of the development notes, and sixty days. *)
Definition now : Go.Time := Go.Date 2026 1 4 + 12 * Go.Hour.
Definition sixtyDays : Go.Duration := 60 * 24 * Go.Hour.

Definition stamped (asOf : string) : pricing.Prices :=
  {| pricing.AsOf := asOf; pricing.Models := None |}.

(** Request bodies: a chat request that asks for a stream, and the same
    request with the usage options; a decoder and an encoder of
    [encoding/json] restricted to these and the empty object. *)
Definition quoted (s : string) : string :=
  String "034"%char (s +:+ String "034"%char EmptyString).

Definition streamBody : string := "{" +:+ quoted "stream" +:+ ":true}".

Definition streamBodyWithOptions : string :=
  "{" +:+ quoted "stream" +:+ ":true," +:+ quoted "stream_options" +:+ ":{"
      +:+ quoted "include_usage" +:+ ":true}}".

Definition streaming : gmap string json.value := {[ "stream" := json.Bool true ]}.

Definition decodeBody (body : string) : result json.object :=
  if String.eqb body "{}" then Ok (Some ∅)
  else if String.eqb body streamBody then Ok (Some streaming)
  else Err "invalid character".

Definition encodeBody (payload : json.object) : result string :=
  match payload with
  | None => Ok "null"
  | Some m =>
      match m !! "stream_options", m !! "stream" with
      | Some _, _ => Ok streamBodyWithOptions
      | None, Some _ => Ok streamBody
      | None, None => Ok "{}"
      end
  end.

Definition post (path body : string) : proxy.Request.t :=
  {| proxy.Request.Method := "POST"; proxy.Request.Path := path;
     proxy.Request.Header := [("Content-Type", "application/json")];
     proxy.Request.Body := Some (proxy.NopCloser body);
     proxy.Request.ContentLength := Go.len body |}.

(** A proxy that logs its entries, parsers that leave the entry as it is,
    no override in the environment, and an upstream that refuses every
    connection. *)
Definition logging : proxy.Config :=
  {| proxy.Providers := ["openai"; "anthropic"; "openrouter"];
     proxy.OnEntry := Some proxy.record;
     proxy.StreamUsageInjection := false |}.

Definition noParse (body : string) (e : ledger.Entry) : ledger.Entry := e.
Definition noChunk (provider payload : string) : option proxy.Usage * string :=
  (None, EmptyString).
Definition keepFirst (old new : proxy.Usage) : proxy.Usage := old.
Definition noURL (s : string) : result proxy.URL := Err "missing protocol scheme".
Definition noEnv (name : string) : string := EmptyString.
Definition refused (o : proxy.Outbound) : result (proxy.Response.t proxy.Stream) :=
  Err "connection refused".

Definition reply (status : Z) (contentType : string) (body : proxy.Stream)
    : proxy.Response.t proxy.Stream :=
  {| proxy.Response.StatusCode := status;
     proxy.Response.ContentType := contentType;
     proxy.Response.Body := body;
     proxy.Response.ContentLength := -1 |}.

(** Upstream bodies: a JSON document, a JSON document whose read breaks off,
    and an event stream of one data event and the terminator. *)
Definition newline : string := String "010"%char EmptyString.

Definition document : proxy.Stream := proxy.NopCloser "{}".

Definition truncated : proxy.Stream := {| proxy.chunks := ["{"]; proxy.fails := true |}.

Definition events : proxy.Stream :=
  {| proxy.chunks :=
       ["data: {}" +:+ newline +:+ newline; "data: [DONE]" +:+ newline +:+ newline];
     proxy.fails := false |}.

(** A table with a negative input rate, and a call of 1000 input tokens as
    an interceptor hands it over: cost known, not priced yet. *)
Definition negativePrices : pricing.Prices :=
  {| pricing.AsOf := "2026-01-01";
     pricing.Models :=
       Some {[ "gpt-4o" :=
                 {| pricing.InputPer1K := Go.lit (-0.0025);
                    pricing.OutputPer1K := Go.lit 0.01 |} ]} |}.

Definition observed : ledger.Entry :=
  {| ledger.Timestamp := EmptyString; ledger.Provider := "openai";
     ledger.Endpoint := "/v1/chat/completions"; ledger.Model := "gpt-4o";
     ledger.InputTokens := 1000; ledger.OutputTokens := 0;
     ledger.RawUsage := None; ledger.CostUSD := Go.f64_zero;
     ledger.CostKnown := true; ledger.UnknownReason := EmptyString;
     ledger.RequestID := EmptyString; ledger.Streaming := false |}.

End fixtures.

(** * Views of a ledger

    What the per-model rows and the reason counts of a summary are compared
    with, and the parts of [Summary], [Write] and [ComputeCost] that the
    statements name. *)

Module views.

(** The entries of one model, in the order of the ledger. *)
Definition ofModel (m : string) (l : list ledger.Entry) : list ledger.Entry :=
  filter (fun e => ledger.Model e = m) l.

(** The entries of unknown cost that give one reason. *)
Definition withReason (r : string) (l : list ledger.Entry) : list ledger.Entry :=
  filter (fun e => ledger.CostKnown e = false /\ ledger.UnknownReason e = r) l.

(** What [Summary] does to the row of an entry's model (ledger.go, lines
    137-144). *)
Definition bump (e : ledger.Entry) (ms : ledger.ModelStats.t) : ledger.ModelStats.t :=
  {| ledger.ModelStats.Calls := Go.int_add (ledger.ModelStats.Calls ms) 1;
     ledger.ModelStats.InputTokens :=
       Go.int_add (ledger.ModelStats.InputTokens ms) (ledger.InputTokens e);
     ledger.ModelStats.OutputTokens :=
       Go.int_add (ledger.ModelStats.OutputTokens ms) (ledger.OutputTokens e);
     ledger.ModelStats.KnownCostUSD :=
       if ledger.CostKnown e
       then Go.f64_add (ledger.ModelStats.KnownCostUSD ms) (ledger.CostUSD e)
       else ledger.ModelStats.KnownCostUSD ms |}.

(** The entry [Write] encodes: its timestamp set when it has none (ledger.go,
    lines 71-73). *)
Definition stamp (clock : string) (e : ledger.Entry) : ledger.Entry :=
  if String.eqb (ledger.Timestamp e) EmptyString then ledger.set_Timestamp clock e else e.

(** A [float64] that is neither an infinity nor a NaN. *)
Definition finite (f : Go.float64) : bool :=
  match f with
  | S754_zero _ | S754_finite _ _ _ => true
  | _ => false
  end.

End views.

(** * A run of the callback

    The proxy calls [OnEntry] once per observed call; over a run the calls
    arrive one after the other. *)

Module run.

Section Callbacks.
Variable unicodePrint : Z -> bool.
Variable json_Marshal : ledger.Entry -> result string.
Variable clock : string.
Variable file_Write : list string -> string -> option (nat * string).
Variable prices : pricing.Prices.

Definition OnEntries (l : list ledger.Entry) (st : scan.Run) : scan.Run :=
  fold_left
    (fun st e => scan.OnEntry unicodePrint json_Marshal clock file_Write prices e st) l st.

End Callbacks.

End run.

(** * Routing in [ServeHTTP]

    The steps of [proxy.ServeHTTP] between the provider lookup and the
    reverse proxy, one definition per step (proxy.go, lines 127-146). *)

Module routes.

Fixpoint noSlash (s : string) : bool :=
  match s with
  | EmptyString => true
  | String c t => negb (Ascii.eqb c "/"%char) && noSlash t
  end.

(** The path the director sets (lines 127-131). *)
Definition targetPath (path : string) : string :=
  match Go.SplitN2 (Go.TrimPrefix path "/") "/"%char with
  | _ :: rest :: _ => "/" +:+ rest
  | _ => "/"
  end.


(** The variable that overrides a provider's upstream (line 137). *)
Definition envParam (provider : string) : string :=
  "PLARIX_UPSTREAM_" +:+ Go.ToUpper provider.

Section Resolve.
(** [url.Parse] and [os.Getenv]. *)
Variable url_Parse : string -> result proxy.URL.
Variable env : string -> string.

(** The upstream of a provider (lines 133-142); [None] is the [nil] URL a
    failed [url.Parse] leaves. *)
Definition resolveTarget (provider targetBase : string) : option proxy.URL :=
  let targetURL :=
    match url_Parse targetBase with
    | Ok u => Some u
    | Err _ => None
    end in
  let override := Go.TrimSpace (env (envParam provider)) in
  if String.eqb override EmptyString then targetURL
  else match url_Parse override with
       | Ok parsed => Some parsed
       | Err _ => targetURL
       end.
End Resolve.

Section Forwarded.
Variable json_Unmarshal : string -> result json.object.
Variable json_Marshal : json.object -> result string.

(** The request handed to the reverse proxy (lines 145-147). *)
Definition forwarded {St : Type} (config : @proxy.Config St) (provider : string)
    (r : proxy.Request.t) : proxy.Request.t :=
  if proxy.StreamUsageInjection config && String.eqb provider "openai"
  then proxy.injectStreamOptions json_Unmarshal json_Marshal r
  else r.
End Forwarded.

End routes.

(** * The life of a server

    The fields of [proxy.Server] that [Start], [Stop] and [Port] read and
    write (proxy.go, lines 65-109): the listener, here the port it is bound
    to, and the [started] flag. The outcomes of [net.Listen] and of
    [httpServer.Close] are arguments. *)

Module lifecycle.

Record Server : Type := { listener : option Z; started : bool }.

Definition NewServer : Server := {| listener := None; started := false |}.

Definition Start (listen : result Z) (s : Server) : Server * result Z :=
  if started s then (s, Err "server already started")
  else
    match listen with
    | Err e => ({| listener := None; started := started s |}, Err ("listen: " +:+ e))
    | Ok port => ({| listener := Some port; started := true |}, Ok port)
    end.

Definition Stop (close : option string) (s : Server) : Server * option string :=
  if negb (started s) then (s, None)
  else ({| listener := listener s; started := false |}, close).

Definition Port (s : Server) : Z :=
  match listener s with
  | None => 0
  | Some port => port
  end.

End lifecycle.

(** * [cmd/plarix-scan]: the command line *)

Module cli.

Section LoadPricing.
(** [os.Executable] (the empty string when it fails), [filepath.Dir],
    [filepath.Join], whether [os.Stat] succeeds, [os.ReadFile] and
    [json.Unmarshal]. *)
Variable os_Executable : string.
Variable filepath_Dir : string -> string.
Variable filepath_Join : list string -> string.
Variable os_Stat : string -> bool.
Variable os_ReadFile : string -> result string.
Variable json_Unmarshal : string -> result pricing.Prices.

Definition candidates : list string :=
  [filepath_Join [filepath_Dir os_Executable; "prices"; "prices.json"];
   filepath_Join [filepath_Dir os_Executable; ".."; "prices"; "prices.json"];
   "prices/prices.json"].

(** The loop over the candidates: the path stays empty when none exists. *)
Fixpoint firstExisting (cs : list string) : string :=
  match cs with
  | [] => EmptyString
  | c :: rest => if os_Stat c then c else firstExisting rest
  end.

Definition loadPricing (customPath : string) : result pricing.Prices :=
  let path :=
    if String.eqb customPath EmptyString then firstExisting candidates
    else customPath in
  if String.eqb path EmptyString then Err "pricing file not found"
  else pricing.Load os_ReadFile json_Unmarshal path.
End LoadPricing.

Section RunCmd.
Variable unicodePrint : Z -> bool.
Variable json_Marshal : ledger.Entry -> result string.
Variable clock : string.
Variable file_Write : list string -> string -> option (nat * string).
Variable prices : pricing.Prices.

(** The configuration [runCmd] starts the proxy with (main.go, lines
    103-123). The value of [--enable-openai-stream-usage-injection] is
    parsed and dropped (line 73), so the field keeps its zero value. *)
Definition proxyConfig (providers : list string) (enableInjection : bool)
    : @proxy.Config scan.Run :=
  {| proxy.Providers := providers;
     proxy.OnEntry :=
       Some (scan.OnEntry unicodePrint json_Marshal clock file_Write prices);
     proxy.StreamUsageInjection := false |}.
End RunCmd.

(** The error of a run whose threshold is not exceeded (main.go, lines
    189-194). *)
Definition commandOnly (cmdErr : option string) : option string :=
  match cmdErr with
  | Some err => Some ("command failed: " +:+ err)
  | None => None
  end.

Section Verdict.
(** [fmt]'s [%.4f]. *)
Variable format4 : Go.float64 -> string.

(** The end of [runCmd] (main.go, lines 184-194). *)
Definition verdict (failOnCost total : Go.float64) (cmdErr : option string)
    : option string :=
  if Go.f64_ltb Go.f64_zero failOnCost && Go.f64_ltb failOnCost total then
    Some ("cost threshold exceeded: $" +:+ format4 total +:+ " > $" +:+ format4 failOnCost)
  else commandOnly cmdErr.
End Verdict.

End cli.

(** * More of the Go library

    [strings.HasSuffix], and the decimal form [fmt] gives an integer under
    [%d]. *)

Module GoLib.

Definition HasSuffix (s suffix : string) : bool :=
  (String.length suffix <=? String.length s)%nat &&
  String.eqb (Go.skip (String.length s - String.length suffix) s) suffix.

Definition FormatInt (n : Z) : string := DecimalString.NilZero.string_of_int (Z.to_int n).

End GoLib.

(** * Regular expressions

    The expressions of [regexp], as far as the program writes them, matched
    by derivatives. [MatchString] looks for a match anywhere in the text. *)

Module regexp.

Inductive t : Type :=
| Never
| Empty
| Class (p : ascii -> bool)
| Cat (a b : t)
| Alt (a b : t)
| Star (a : t).

Fixpoint nullable (r : t) : bool :=
  match r with
  | Never => false
  | Empty => true
  | Class _ => false
  | Cat a b => nullable a && nullable b
  | Alt a b => nullable a || nullable b
  | Star _ => true
  end.

Fixpoint deriv (c : ascii) (r : t) : t :=
  match r with
  | Never => Never
  | Empty => Never
  | Class p => if p c then Empty else Never
  | Cat a b =>
      if nullable a then Alt (Cat (deriv c a) b) (deriv c b)
      else Cat (deriv c a) b
  | Alt a b => Alt (deriv c a) (deriv c b)
  | Star a => Cat (deriv c a) (Star a)
  end.

Fixpoint matches (r : t) (s : string) : bool :=
  match s with
  | EmptyString => nullable r
  | String c rest => matches (deriv c r) rest
  end.

Definition any : t := Class (fun _ => true).

Definition MatchString (r : t) (s : string) : bool :=
  matches (Cat (Star any) (Cat r (Star any))) s.

Fixpoint literal (s : string) : t :=
  match s with
  | EmptyString => Empty
  | String c rest => Cat (Class (Ascii.eqb c)) (literal rest)
  end.

(** The class [\s]: tab, line feed, form feed, carriage return, space. *)
Definition space (c : ascii) : bool :=
  let n := Go.code c in
  (n =? 9) || (n =? 10) || (n =? 12) || (n =? 13) || (n =? 32).

(** A text of white space only. *)
Fixpoint blank (s : string) : bool :=
  match s with
  | EmptyString => true
  | String c rest => space c && blank rest
  end.

(** The texts of an expression, as the syntax defines them. *)
Inductive lang : t -> string -> Prop :=
| lang_Empty : lang Empty EmptyString
| lang_Class p c : p c = true -> lang (Class p) (String c EmptyString)
| lang_Cat a b s1 s2 : lang a s1 -> lang b s2 -> lang (Cat a b) (s1 +:+ s2)
| lang_AltL a b s : lang a s -> lang (Alt a b) s
| lang_AltR a b s : lang b s -> lang (Alt a b) s
| lang_Star0 a : lang (Star a) EmptyString
| lang_StarS a s1 s2 : lang a s1 -> lang (Star a) s2 -> lang (Star a) (s1 +:+ s2).

End regexp.

(** * Package [action]

    Comments on pull requests and the step summary. The requests handed to
    [http.DefaultClient] are kept in a log, in the order they are sent. *)

Module action.

Definition commentMarker : string := "<!-- plarix-scan -->".

(** The expression of [findExistingComment]: the marker, with any white
    space around its name. *)
Definition markerRegex : regexp.t :=
  regexp.Cat (regexp.literal "<!--")
    (regexp.Cat (regexp.Star (regexp.Class regexp.space))
       (regexp.Cat (regexp.literal "plarix-scan")
          (regexp.Cat (regexp.Star (regexp.Class regexp.space))
             (regexp.literal "-->")))).

Record PRInfo : Type := {
  Owner : string;
  Repo : string;
  Number : Z;
  Token : string;
  APIURL : string
}.

Record Request : Type := {
  Method : string;
  URL : string;
  Header : gmap string string;
  Payload : option string
}.

Record Response : Type := {
  StatusCode : Z;
  Status : string;
  Body : string
}.

(** An element of the decoded listing: its [id] and its [body]. *)
Record comment : Type := { ID : Z; Text : string }.

(** The loop of [findExistingComment]: the first comment the expression
    matches, 0 when there is none. *)
Fixpoint firstMarked (comments : list comment) : Z :=
  match comments with
  | [] => 0
  | c :: rest =>
      if regexp.MatchString markerRegex (Text c) then ID c else firstMarked rest
  end.

Definition newline : string := String "010"%char EmptyString.

(** The requests the package builds: a listing, and a write with its
    encoded body. *)
Definition listRequest (pr : PRInfo) (url : string) : Request :=
  {| Method := "GET"; URL := url;
     Header := <["Accept" := "application/vnd.github+json"]>
                 (<["Authorization" := "Bearer " +:+ Token pr]> ∅);
     Payload := None |}.

Definition writeRequest (pr : PRInfo) (method url body : string) : Request :=
  {| Method := method; URL := url;
     Header := <["Content-Type" := "application/json"]>
                 (<["Accept" := "application/vnd.github+json"]>
                    (<["Authorization" := "Bearer " +:+ Token pr]> ∅));
     Payload := Some body |}.

Section GitHub.
(** The error of [http.NewRequest] for a method and a URL, the answer of
    [http.DefaultClient.Do], the decoder of a listing, and [json.Marshal] of
    the one-field object that carries a comment's text. *)
Variable http_NewRequest : string -> string -> option string.
Variable http_Do : Request -> result Response.
Variable json_Decode : string -> result (list comment).
Variable json_Marshal : string -> string.

Definition listURL (pr : PRInfo) : string :=
  APIURL pr +:+ "/repos/" +:+ Owner pr +:+ "/" +:+ Repo pr +:+ "/issues/" +:+
  GoLib.FormatInt (Number pr) +:+ "/comments".

Definition commentURL (pr : PRInfo) (commentID : Z) : string :=
  APIURL pr +:+ "/repos/" +:+ Owner pr +:+ "/" +:+ Repo pr +:+
  "/issues/comments/" +:+ GoLib.FormatInt commentID.

Definition findExistingComment (pr : PRInfo) (sent : list Request)
    : result Z * list Request :=
  let url := listURL pr in
  match http_NewRequest "GET" url with
  | Some err => (Err err, sent)
  | None =>
      let req :=
        {| Method := "GET"; URL := url;
           Header := <["Accept" := "application/vnd.github+json"]>
                       (<["Authorization" := "Bearer " +:+ Token pr]> ∅);
           Payload := None |} in
      match http_Do req with
      | Err err => (Err err, sent ++ [req])
      | Ok resp =>
          if negb (StatusCode resp =? 200) then
            (Err ("list comments failed: " +:+ Status resp +:+ " - " +:+ Body resp),
             sent ++ [req])
          else
            match json_Decode (Body resp) with
            | Err err => (Err err, sent ++ [req])
            | Ok comments => (Ok (firstMarked comments), sent ++ [req])
            end
      end
  end.

Definition createComment (pr : PRInfo) (content : string) (sent : list Request)
    : option string * list Request :=
  let url := listURL pr in
  let body := json_Marshal content in
  match http_NewRequest "POST" url with
  | Some err => (Some err, sent)
  | None =>
      let req :=
        {| Method := "POST"; URL := url;
           Header := <["Content-Type" := "application/json"]>
                       (<["Accept" := "application/vnd.github+json"]>
                          (<["Authorization" := "Bearer " +:+ Token pr]> ∅));
           Payload := Some body |} in
      match http_Do req with
      | Err err => (Some err, sent ++ [req])
      | Ok resp =>
          if (StatusCode resp <? 200) || (300 <=? StatusCode resp) then
            (Some ("create comment failed: " +:+ Status resp +:+ " - " +:+ Body resp),
             sent ++ [req])
          else (None, sent ++ [req])
      end
  end.

Definition updateComment (pr : PRInfo) (commentID : Z) (content : string)
    (sent : list Request) : option string * list Request :=
  let url := commentURL pr commentID in
  let body := json_Marshal content in
  match http_NewRequest "PATCH" url with
  | Some err => (Some err, sent)
  | None =>
      let req :=
        {| Method := "PATCH"; URL := url;
           Header := <["Content-Type" := "application/json"]>
                       (<["Accept" := "application/vnd.github+json"]>
                          (<["Authorization" := "Bearer " +:+ Token pr]> ∅));
           Payload := Some body |} in
      match http_Do req with
      | Err err => (Some err, sent ++ [req])
      | Ok resp =>
          if (StatusCode resp <? 200) || (300 <=? StatusCode resp) then
            (Some ("update comment failed: " +:+ Status resp +:+ " - " +:+ Body resp),
             sent ++ [req])
          else (None, sent ++ [req])
      end
  end.

Definition PostComment (pr : PRInfo) (content : string) (sent : list Request)
    : option string * list Request :=
  let content := commentMarker +:+ newline +:+ content in
  match findExistingComment pr sent with
  | (Err err, sent) => (Some ("find existing comment: " +:+ err), sent)
  | (Ok existingID, sent) =>
      if 0 <? existingID then updateComment pr existingID content sent
      else createComment pr content sent
  end.
End GitHub.

Section StepSummary.
(** [os.Getenv], the error of [os.OpenFile] for a path, and the outcome of
    [WriteString]: [None] when all is written, the number of bytes written
    and the error otherwise. Files are kept by path. *)
Variable env : string -> string.
Variable os_OpenFile : string -> option string.
Variable f_WriteString : string -> string -> option (nat * string).

Definition WriteStepSummary (content : string) (fs : gmap string string)
    : gmap string string * option string :=
  let summaryPath := env "GITHUB_STEP_SUMMARY" in
  if String.eqb summaryPath EmptyString then (fs, None)
  else
    match os_OpenFile summaryPath with
    | Some err => (fs, Some err)
    | None =>
        let old := default EmptyString (fs !! summaryPath) in
        let content :=
          if GoLib.HasSuffix content newline then content else content +:+ newline in
        match f_WriteString summaryPath content with
        | None => (<[summaryPath := old +:+ content]> fs, None)
        | Some (n, err) => (<[summaryPath := old +:+ Go.first n content]> fs, Some err)
        end
    end.
End StepSummary.

End action.


(** * Samples

    Concrete runs, upstreams and pull requests for the instances of the
    later theorems. *)

Module samples.

(** An encoder of entries that writes the model's name and never fails, a
    file that takes every write, and a run that has recorded nothing yet. *)
Definition encode (e : ledger.Entry) : string := ledger.Model e.

Definition marshal (e : ledger.Entry) : result string := Ok (encode e).

Definition roomy (written : list string) (data : string) : option (nat * string) := None.

Definition fresh : scan.Run :=
  {| scan.agg := ledger.Aggregator.NewAggregator;
     scan.writer := {| ledger.Writer.file := [] |};
     scan.stderr := [] |}.

(** A disk whose pricing file decodes to the table of the tests. *)
Definition tableDisk (path : string) : result string :=
  if String.eqb path "prices/prices.json" then Ok "table"
  else Err "no such file or directory".

Definition decodeTable (data : string) : result pricing.Prices :=
  if String.eqb data "table" then Ok fixtures.prices
  else Err "invalid character".

(** A call whose usage could not be read. *)
Definition unread : ledger.Entry :=
  {| ledger.Timestamp := EmptyString; ledger.Provider := "anthropic";
     ledger.Endpoint := "/v1/messages"; ledger.Model := EmptyString;
     ledger.InputTokens := 0; ledger.OutputTokens := 0;
     ledger.RawUsage := None; ledger.CostUSD := Go.f64_zero;
     ledger.CostKnown := false; ledger.UnknownReason := "usage missing";
     ledger.RequestID := EmptyString; ledger.Streaming := false |}.

(** A call that reports a negative number of input tokens. *)
Definition refund : ledger.Entry :=
  {| ledger.Timestamp := EmptyString; ledger.Provider := "openai";
     ledger.Endpoint := "/v1/chat/completions"; ledger.Model := "gpt-4o";
     ledger.InputTokens := -1000; ledger.OutputTokens := 0;
     ledger.RawUsage := None; ledger.CostUSD := Go.f64_zero;
     ledger.CostKnown := true; ledger.UnknownReason := EmptyString;
     ledger.RequestID := EmptyString; ledger.Streaming := false |}.

(** A call of known cost that carries a reason all the same. *)
Definition doubtful : ledger.Entry :=
  {| ledger.Timestamp := EmptyString; ledger.Provider := "openai";
     ledger.Endpoint := "/v1/chat/completions"; ledger.Model := "gpt-4o";
     ledger.InputTokens := 1000; ledger.OutputTokens := 0;
     ledger.RawUsage := None; ledger.CostUSD := Go.f64_zero;
     ledger.CostKnown := true; ledger.UnknownReason := "usage estimated";
     ledger.RequestID := EmptyString; ledger.Streaming := false |}.

(** A formatter that prints no digits. *)
Definition noDigits (f : Go.float64) : string := "?".

(** A URL parser that takes every text for a local upstream, an upstream
    that refuses every connection and reports the body it was offered, and
    a configuration that lists no provider. *)
Definition local : proxy.URL :=
  {| proxy.Scheme := "http"; proxy.Host := "127.0.0.1:8080" |}.

Definition parseLocal (s : string) : result proxy.URL := Ok local.

Definition bounce (o : proxy.Outbound) : result (proxy.Response.t proxy.Stream) :=
  match proxy.Request.bytes (proxy.Forwarded o) with
  | Ok body => Err ("refused: " +:+ body)
  | Err e => Err e
  end.



Definition unlisted : proxy.Config :=
  {| proxy.Providers := [];
     proxy.OnEntry := Some proxy.record;
     proxy.StreamUsageInjection := false |}.

(** A pull request whose listing shows a review comment and a report of an
    earlier run; an API that answers every request with 200. *)
Definition pr : action.PRInfo :=
  {| action.Owner := "octo"; action.Repo := "demo"; action.Number := 7;
     action.Token := "t"; action.APIURL := "https://api.github.com" |}.

Definition listing : list action.comment :=
  [{| action.ID := 41; action.Text := "LGTM" |};
   {| action.ID := 42;
      action.Text := action.commentMarker +:+ action.newline +:+ "old report" |}].

Definition valid (method url : string) : option string := None.

Definition api (req : action.Request) : result action.Response :=
  Ok {| action.StatusCode := 200; action.Status := "200 OK"; action.Body := "[]" |}.

Definition decodeListing (body : string) : result (list action.comment) := Ok listing.

Definition encodeComment (content : string) : string := content.

End samples.

(** * Verification *)

(** ** Facts about the runtime *)

Section GoFacts.
Import Go.

Lemma two63 : 2 ^ 63 = 9223372036854775808.
Proof. reflexivity. Qed.

Lemma two64 : 2 ^ 64 = 18446744073709551616.
Proof. reflexivity. Qed.

Ltac pow2 := unfold is_int, minInt, maxInt, wrap in *; rewrite ?two63, ?two64 in *.

Lemma wrap_range (z : Z) : is_int (wrap z).
Proof.
  pow2.
  pose proof (Z.mod_pos_bound (z + 9223372036854775808) 18446744073709551616 eq_refl).
  lia.
Qed.

Lemma wrap_small (z : Z) : is_int z -> wrap z = z.
Proof. pow2. intros H. rewrite Z.mod_small; lia. Qed.

Lemma wrap_idem (z : Z) : wrap (wrap z) = wrap z.
Proof. apply wrap_small, wrap_range. Qed.

Lemma wrap_add_l (a b : Z) : wrap (wrap a + b) = wrap (a + b).
Proof.
  unfold wrap.
  replace ((a + 2 ^ 63) mod 2 ^ 64 - 2 ^ 63 + b + 2 ^ 63)
    with ((a + 2 ^ 63) mod 2 ^ 64 + b) by lia.
  rewrite Zplus_mod_idemp_l. f_equal. f_equal. lia.
Qed.

Lemma len_app (a b : string) : len (a +:+ b) = len a + len b.
Proof.
  induction a as [|c a IH]; [reflexivity|].
  change (len (String c a +:+ b)) with (1 + len (a +:+ b)).
  change (len (String c a)) with (1 + len a). lia.
Qed.

Lemma len_nonneg (a : string) : 0 <= len a.
Proof.
  induction a as [|c a IH]; [reflexivity|].
  change (len (String c a)) with (1 + len a). lia.
Qed.

Lemma HasPrefix_app (s t : string) : HasPrefix (s +:+ t) s = true.
Proof.
  induction s as [|c s IH]; simpl; [reflexivity|].
  now rewrite Ascii.eqb_refl.
Qed.

Lemma Contains_prefix (s t : string) : HasPrefix s t = true -> Contains s t = true.
Proof. intros H. destruct s; simpl in *; now rewrite H. Qed.

Lemma Contains_app_r (a s t : string) :
  Contains s t = true -> Contains (a +:+ s) t = true.
Proof.
  intros H. induction a as [|c a IH]; simpl; [exact H|].
  rewrite IH. apply orb_true_r.
Qed.

Lemma append_cons (x : ascii) (a b : string) :
  String x a +:+ b = String x (a +:+ b).
Proof. reflexivity. Qed.

Lemma append_assoc3 (a b c : string) : (a +:+ b) +:+ c = a +:+ (b +:+ c).
Proof.
  induction a as [|x a IH]; [reflexivity|].
  rewrite !append_cons. now rewrite IH.
Qed.

(** A text contains whatever stands in the middle of it. *)
Lemma Contains_middle (a s b : string) : Contains (a +:+ s +:+ b) s = true.
Proof. apply Contains_app_r, Contains_prefix, HasPrefix_app. Qed.

End GoFacts.

(** ** Signs of [float64] results

    Products, sums and quotients of values that are not negative are not
    negative, and never NaN; the conversion of an [int] is finite. *)

Section FloatFacts.

Lemma digits2_size (p : positive) : digits2_pos p = Pos.size p.
Proof. induction p as [p IH|p IH|]; simpl; now rewrite ?IH. Qed.

Lemma Zdigits2_bound (m k : Z) : 0 <= k -> 0 <= m <= 2 ^ k -> Zdigits2 m <= k + 1.
Proof.
  intros Hk [H0 Hm]. destruct m as [|p|p]; [simpl; lia| |lia].
  cbn [Zdigits2]. rewrite digits2_size.
  pose proof (Pos.size_le p) as Hs.
  apply Pos2Z.pos_le_pos in Hs. rewrite Pos2Z.inj_pow in Hs.
  change (Z.pos p~0) with (2 * Z.pos p) in Hs.
  assert (H2 : 2 ^ Z.pos (Pos.size p) <= 2 ^ (k + 1)).
  { rewrite Z.pow_add_r, Z.pow_1_r by lia. lia. }
  apply Z.pow_le_mono_r_iff in H2; lia.
Qed.

Lemma shr_1_bounds (r : shr_record) :
  0 <= shr_m r -> 0 <= shr_m (shr_1 r) <= shr_m r.
Proof.
  destruct r as [m b s]. cbn [shr_m]. intros H.
  destruct m as [|[p|p|]|p]; cbn; lia.
Qed.

Lemma iter_shr_1_bounds (p : positive) :
  forall r, 0 <= shr_m r -> 0 <= shr_m (SpecFloat.iter_pos shr_1 p r) <= shr_m r.
Proof.
  induction p as [p IH|p IH|]; intros r H; cbn [SpecFloat.iter_pos].
  - pose proof (shr_1_bounds r H) as H1.
    pose proof (IH _ (proj1 H1)) as H2.
    pose proof (IH _ (proj1 H2)) as H3. lia.
  - pose proof (IH _ H) as H2.
    pose proof (IH _ (proj1 H2)) as H3. lia.
  - apply shr_1_bounds, H.
Qed.

Lemma shr_record_of_loc_m (m : Z) (l : location) : shr_m (shr_record_of_loc m l) = m.
Proof. destruct l as [|[| |]]; reflexivity. Qed.

Lemma fexp_le (x : Z) : fexp prec emax x <= Z.max (x - 53) (-1074).
Proof. unfold fexp, SpecFloat.emin, prec, emax. lia. Qed.

Lemma shr_fexp_bounds (m e : Z) (l : location) :
  0 <= m ->
  0 <= shr_m (fst (shr_fexp prec emax m e l)) <= m /\
  snd (shr_fexp prec emax m e l) <= Z.max e (fexp prec emax (Zdigits2 m + e)).
Proof.
  intros Hm. unfold shr_fexp, shr.
  destruct (fexp prec emax (Zdigits2 m + e) - e) as [|p|p] eqn:Hn; cbn [fst snd].
  - rewrite shr_record_of_loc_m. lia.
  - pose proof (iter_shr_1_bounds p (shr_record_of_loc m l)) as H.
    rewrite shr_record_of_loc_m in H. split; [apply H, Hm | lia].
  - rewrite shr_record_of_loc_m. lia.
Qed.

Lemma round_nearest_even_bounds (m : Z) (l : location) :
  m <= round_nearest_even m l <= m + 1.
Proof. destruct l as [|[| |]]; cbn; try lia. destruct (Z.even m); lia. Qed.

Lemma binary_round_aux_nonneg (mx ex : Z) (lx : location) :
  0 <= mx -> Go.signed_nonneg (binary_round_aux prec emax false mx ex lx) = true.
Proof.
  intros Hm. unfold binary_round_aux.
  pose proof (shr_fexp_bounds mx ex lx Hm) as [H1 _].
  destruct (shr_fexp prec emax mx ex lx) as [mrs' e']. cbn [fst snd] in *.
  pose proof (round_nearest_even_bounds (shr_m mrs') (loc_of_shr_record mrs')) as Hr.
  pose proof (shr_fexp_bounds (round_nearest_even (shr_m mrs') (loc_of_shr_record mrs'))
                e' loc_Exact ltac:(lia)) as [H2 _].
  destruct (shr_fexp prec emax _ e' loc_Exact) as [mrs'' e'']. cbn [fst snd] in *.
  destruct (shr_m mrs'') as [|p|p]; [reflexivity| |lia].
  destruct (e'' <=? emax - prec); reflexivity.
Qed.

(** A mantissa and an exponent far below the overflow threshold round to a
    finite number. *)
Lemma binary_round_aux_finite (mx ex : Z) (lx : location) :
  0 <= mx <= 2 ^ 200 -> ex <= 100 ->
  Go.finite_nonneg (binary_round_aux prec emax false mx ex lx) = true.
Proof.
  intros [Hm Hb] He. unfold binary_round_aux.
  pose proof (shr_fexp_bounds mx ex lx Hm) as [H1 E1].
  pose proof (Zdigits2_bound mx 200 ltac:(lia) (conj Hm Hb)) as D1.
  pose proof (fexp_le (Zdigits2 mx + ex)) as F1.
  destruct (shr_fexp prec emax mx ex lx) as [mrs' e']. cbn [fst snd] in *.
  pose proof (round_nearest_even_bounds (shr_m mrs') (loc_of_shr_record mrs')) as Hr.
  set (m2 := round_nearest_even (shr_m mrs') (loc_of_shr_record mrs')) in *.
  assert (Hm2 : 0 <= m2 <= 2 ^ 201).
  { split; [lia|]. replace (2 ^ 201) with (2 * 2 ^ 200) by reflexivity. lia. }
  pose proof (shr_fexp_bounds m2 e' loc_Exact (proj1 Hm2)) as [H2 E2].
  pose proof (Zdigits2_bound m2 201 ltac:(lia) Hm2) as D2.
  pose proof (fexp_le (Zdigits2 m2 + e')) as F2.
  destruct (shr_fexp prec emax m2 e' loc_Exact) as [mrs'' e'']. cbn [fst snd] in *.
  destruct (shr_m mrs'') as [|p|p]; [reflexivity| |lia].
  destruct (Z.leb_spec e'' (emax - prec)) as [_|Hbig]; [reflexivity|].
  unfold emax, prec in Hbig. lia.
Qed.

Lemma iter_xO (m d : positive) : Z.pos (Pos.iter xO m d) = Z.pos m * 2 ^ Z.pos d.
Proof.
  induction d as [|d IH] using Pos.peano_ind.
  - cbn [Pos.iter]. rewrite Z.pow_1_r. lia.
  - rewrite Pos.iter_succ, Pos2Z.inj_succ, Z.pow_succ_r by lia.
    rewrite Pos2Z.inj_xO, IH. lia.
Qed.

(** [float64(i)] is finite, and not negative when [i] is not. *)
Lemma float64_of_int_nonneg (i : Z) :
  0 <= i <= Go.maxInt -> Go.finite_nonneg (Go.float64_of_int i) = true.
Proof.
  intros [H0 Hi]. destruct i as [|m|m]; [reflexivity| |lia].
  unfold Go.float64_of_int, binary_normalize, binary_round, shl_align.
  pose proof (fexp_le (Z.pos (digits2_pos m) + 0)) as Hf.
  assert (Hg : Z.pos (digits2_pos m) + 0 - 53 <= fexp prec emax (Z.pos (digits2_pos m) + 0))
    by (unfold fexp, prec; lia).
  assert (Hm : Z.pos m <= 2 ^ 63) by (unfold Go.maxInt in Hi; lia).
  destruct (fexp prec emax (Z.pos (digits2_pos m) + 0) - 0) as [|d|d] eqn:Hd.
  - apply binary_round_aux_finite; [|lia]. split; [lia|].
    transitivity (2 ^ 63); [exact Hm | apply Z.pow_le_mono_r; lia].
  - apply binary_round_aux_finite; [|lia]. split; [lia|].
    transitivity (2 ^ 63); [exact Hm | apply Z.pow_le_mono_r; lia].
  - apply binary_round_aux_finite; [|lia]. split; [lia|].
    rewrite iter_xO.
    assert (Hd52 : Z.pos d <= 52) by lia.
    assert (Hp : 2 ^ Z.pos d <= 2 ^ 52) by (apply Z.pow_le_mono_r; lia).
    replace (2 ^ 200) with (2 ^ 63 * 2 ^ 137) by reflexivity.
    apply Z.mul_le_mono_nonneg; lia.
Qed.

Lemma f64_mul_nonneg (x y : Go.float64) :
  Go.finite_nonneg x = true -> Go.finite_nonneg y = true ->
  Go.signed_nonneg (Go.f64_mul x y) = true.
Proof.
  destruct x as [[|]|[|]| |[|] mx ex]; try discriminate;
    destruct y as [[|]|[|]| |[|] my ey]; try discriminate; intros _ _;
    try reflexivity.
  unfold Go.f64_mul, SFmul. cbn [xorb]. apply binary_round_aux_nonneg. lia.
Qed.

Lemma binary_round_nonneg (m : positive) (e : Z) :
  Go.signed_nonneg (binary_round prec emax false m e) = true.
Proof.
  unfold binary_round. destruct (shl_align m e _) as [mz ez].
  apply binary_round_aux_nonneg. lia.
Qed.

Lemma f64_add_nonneg (x y : Go.float64) :
  Go.signed_nonneg x = true -> Go.signed_nonneg y = true ->
  Go.signed_nonneg (Go.f64_add x y) = true.
Proof.
  destruct x as [[|]|[|]| |[|] mx ex]; try discriminate;
    destruct y as [[|]|[|]| |[|] my ey]; try discriminate; intros _ _;
    try reflexivity.
  unfold Go.f64_add, SFadd. cbn [cond_Zopp Z.add].
  apply binary_round_nonneg.
Qed.

Lemma lit_1000 : Go.lit 1000 = S754_finite false 8796093022208000 (-43).
Proof. vm_compute. reflexivity. Qed.

Lemma f64_div_1000_nonneg (x : Go.float64) :
  Go.signed_nonneg x = true ->
  Go.signed_nonneg (Go.f64_div x (Go.lit 1000)) = true.
Proof.
  rewrite lit_1000.
  destruct x as [[|]|[|]| |[|] mx ex]; try discriminate; intros _; try reflexivity.
  unfold Go.f64_div, SFdiv, SFdiv_core_binary.
  set (e' := Z.min _ _). set (m' := match ex - -43 - e' with Z0 => _ | Zpos _ => _ | Zneg _ => _ end).
  assert (Hm' : 0 <= m').
  { subst m'. destruct (ex - -43 - e'); [lia| |lia]. apply Z.shiftl_nonneg. lia. }
  pose proof (Z.div_pos m' (Z.pos 8796093022208000) Hm' ltac:(lia)) as Hq.
  unfold Z.div in Hq.
  destruct (Z.div_eucl m' (Z.pos 8796093022208000)) as [q r].
  cbn [xorb]. apply binary_round_aux_nonneg. exact Hq.
Qed.

Lemma signed_nonneg_ge (f : Go.float64) :
  Go.signed_nonneg f = true -> Go.f64_leb Go.f64_zero f = true.
Proof. destruct f as [[|]|[|]| |[|] m e]; try discriminate; reflexivity. Qed.

End FloatFacts.

(** ** [strconv.Quote] on plain names *)

Section QuoteFacts.
Variable unicodePrint : Z -> bool.

Ltac decide_tests :=
  repeat match goal with
    | |- context [Z.eqb ?a ?b] => destruct (Z.eqb_spec a b); try lia
    | |- context [Z.leb ?a ?b] => destruct (Z.leb_spec a b); try lia
    | |- context [Z.ltb ?a ?b] => destruct (Z.ltb_spec a b); try lia
    end.

Lemma plainByte_range (c : ascii) :
  Go.plainByte c = true ->
  32 <= Go.code c <= 126 /\ Go.code c <> 34 /\ Go.code c <> 92.
Proof.
  unfold Go.plainByte. rewrite !andb_true_iff, !negb_true_iff.
  rewrite !Z.leb_le, !Z.eqb_neq. lia.
Qed.

Lemma appendEscapedRune_plain (r : Z) (enc : string) :
  32 <= r <= 126 -> r <> 34 -> r <> 92 ->
  Go.appendEscapedRune unicodePrint r enc = enc.
Proof.
  intros Hr H34 H92. unfold Go.appendEscapedRune, Go.IsPrint.
  decide_tests; reflexivity.
Qed.

Lemma appendQuoted_plain (s : string) :
  Go.plainName s = true ->
  forall fuel, (String.length s <= fuel)%nat ->
  Go.appendQuoted unicodePrint fuel s = s.
Proof.
  induction s as [|c s IH]; intros Hp fuel Hf.
  - destruct fuel; reflexivity.
  - destruct fuel as [|fuel]; [simpl in Hf; lia|].
    simpl in Hp. apply andb_true_iff in Hp as [Hc Hs].
    apply plainByte_range in Hc as (Hr & H34 & H92).
    cbn [Go.appendQuoted].
    destruct (Z.ltb_spec (Go.code c) 128); [|lia].
    replace (Go.code c =? Go.RuneError) with false
      by (symmetry; apply Z.eqb_neq; unfold Go.RuneError; lia).
    rewrite andb_false_r.
    rewrite appendEscapedRune_plain by assumption.
    cbn [Go.first Go.skip String.append].
    simpl. f_equal. apply IH; [exact Hs|]. simpl in Hf. lia.
Qed.

Lemma Quote_plain (s : string) :
  Go.plainName s = true ->
  Go.Quote unicodePrint s = String "034"%char (s +:+ String "034"%char EmptyString).
Proof.
  intros Hp. unfold Go.Quote. now rewrite appendQuoted_plain.
Qed.

End QuoteFacts.

(** ** The pricing table *)

Section Pricing.
Import pricing.
Variable unicodePrint : Z -> bool.

Lemma ComputeCost_absent (p : Prices) (model : string) (i o : Z) :
  json.get (Models p) model = None ->
  ComputeCost unicodePrint p model i o =
    {| CostUSD := Go.f64_zero; Known := false;
       UnknownReason :=
         "model " +:+ Go.Quote unicodePrint model +:+ " not in pricing table" |}.
Proof. intros H. unfold ComputeCost. now rewrite H. Qed.

Lemma ComputeCost_present (p : Prices) (model : string) (mp : ModelPrice) (i o : Z) :
  json.get (Models p) model = Some mp ->
  ComputeCost unicodePrint p model i o =
    {| CostUSD :=
         Go.f64_div
           (Go.f64_add (Go.f64_mul (Go.float64_of_int i) (InputPer1K mp))
                       (Go.f64_mul (Go.float64_of_int o) (OutputPer1K mp)))
           (Go.lit 1000);
       Known := true; UnknownReason := EmptyString |}.
Proof. intros H. unfold ComputeCost. now rewrite H. Qed.

(** C4. For a model of the table with rates [r_in] and [r_out] per 1000
    tokens, [ComputeCost] answers [Known = true] with the cost
    [(i * r_in + o * r_out) / 1000] in [float64] arithmetic, and no reason;
    with rates 0.0025 and 0.01, 1000 input and 500 output tokens the cost is
    the [float64] 0.0075. *)
Theorem ComputeCost_known_model (p : Prices) (model : string) (mp : ModelPrice) (i o : Z) :
  json.get (Models p) model = Some mp ->
  let r := ComputeCost unicodePrint p model i o in
  Known r = true /\
  UnknownReason r = EmptyString /\
  CostUSD r =
    Go.f64_div
      (Go.f64_add (Go.f64_mul (Go.float64_of_int i) (InputPer1K mp))
                  (Go.f64_mul (Go.float64_of_int o) (OutputPer1K mp)))
      (Go.lit 1000) /\
  (InputPer1K mp = Go.lit 0.0025 -> OutputPer1K mp = Go.lit 0.01 ->
   i = 1000 -> o = 500 -> CostUSD r = Go.lit 0.0075).
Proof.
  intros H r. subst r. rewrite (ComputeCost_present _ _ _ _ _ H). cbn [Known UnknownReason CostUSD].
  repeat split. intros -> -> -> ->. vm_compute. reflexivity.
Qed.

(** C5, as the code has it. For a model that is not in the table and any
    token counts, [ComputeCost] answers [Known = false] with a zero cost and
    the reason [model <name as %q prints it> not in pricing table]; a name
    of printable ASCII without double quote and backslash is printed as it
    is, so the reason contains it. *)
Theorem ComputeCost_unknown_model (p : Prices) (model : string) (i o : Z) :
  json.get (Models p) model = None ->
  let r := ComputeCost unicodePrint p model i o in
  Known r = false /\
  CostUSD r = Go.f64_zero /\
  UnknownReason r =
    "model " +:+ Go.Quote unicodePrint model +:+ " not in pricing table" /\
  (Go.plainName model = true -> Go.Contains (UnknownReason r) model = true).
Proof.
  intros H r. subst r. rewrite (ComputeCost_absent _ _ _ _ H).
  cbn [Known UnknownReason CostUSD]. repeat split.
  intros Hp. rewrite (Quote_plain unicodePrint _ Hp).
  change (String "034"%char (model +:+ String "034"%char EmptyString))
    with (String "034"%char EmptyString +:+ (model +:+ String "034"%char EmptyString)).
  rewrite !append_assoc3, <- (append_assoc3 "model ").
  apply Contains_middle.
Qed.

End Pricing.

(** The fixture of [TestComputeCost]: 1000 input and 500 output tokens of
    [gpt-4o] cost 0.0075. *)
Lemma ComputeCost_known_model_witness :
  pricing.Known
    (pricing.ComputeCost fixtures.noTable fixtures.prices "gpt-4o" 1000 500) = true /\
  pricing.CostUSD
    (pricing.ComputeCost fixtures.noTable fixtures.prices "gpt-4o" 1000 500) =
  Go.lit 0.0075.
Proof.
  pose proof
    (ComputeCost_known_model fixtures.noTable fixtures.prices "gpt-4o"
       {| pricing.InputPer1K := Go.lit 0.0025; pricing.OutputPer1K := Go.lit 0.01 |}
       1000 500 ltac:(vm_compute; reflexivity)) as H.
  cbv zeta in H. destruct H as (Hk & _ & _ & H75).
  split; [exact Hk | apply H75; reflexivity].
Defined.

(** The unknown model of [TestComputeCost]: the reason names it. *)
Lemma ComputeCost_unknown_model_witness :
  pricing.Known
    (pricing.ComputeCost fixtures.noTable fixtures.prices "unknown-model" 100 50) = false /\
  Go.Contains
    (pricing.UnknownReason
       (pricing.ComputeCost fixtures.noTable fixtures.prices "unknown-model" 100 50))
    "unknown-model" = true.
Proof.
  pose proof
    (ComputeCost_unknown_model fixtures.noTable fixtures.prices "unknown-model"
       100 50 ltac:(vm_compute; reflexivity)) as H.
  cbv zeta in H. destruct H as (Hk & _ & _ & Hc).
  split; [exact Hk | apply Hc; reflexivity].
Defined.

(** C5, as stated, fails for a name [%q] escapes: the reason for the absent
    model [a\b] spells it with a doubled backslash, and does not contain the
    name. *)
Lemma ComputeCost_reason_escapes_name :
  json.get (pricing.Models fixtures.prices) "a\b" = None /\
  pricing.Known
    (pricing.ComputeCost fixtures.noTable fixtures.prices "a\b" 100 50) = false /\
  pricing.UnknownReason
    (pricing.ComputeCost fixtures.noTable fixtures.prices "a\b" 100 50) =
  "model " +:+ String "034"%char ("a\\b" +:+ String "034"%char " not in pricing table") /\
  Go.Contains
    (pricing.UnknownReason
       (pricing.ComputeCost fixtures.noTable fixtures.prices "a\b" 100 50))
    "a\b" = false.
Proof. repeat split; vm_compute; reflexivity. Qed.

Section Loading.
Import pricing.
Variable os_ReadFile : string -> result string.
Variable json_Unmarshal : string -> result Prices.
Variable unicodePrint : Z -> bool.

Lemma Load_models_not_nil (path : string) (p : Prices) :
  Load os_ReadFile json_Unmarshal path = Ok p -> Models p <> None.
Proof.
  unfold Load. destruct (os_ReadFile path) as [data|e]; [|discriminate].
  destruct (json_Unmarshal data) as [p0|e]; [|discriminate].
  destruct (Models p0) eqn:Hm; intros [= <-]; simpl; congruence.
Qed.

(** C10. A pricing file that is read and decoded, and whose decoded table has
    no models mapping, loads as a table with the same date and a map that is
    not nil and is empty; on it [ComputeCost] answers [Known = false] with a
    zero cost for every model and every token counts. *)
Theorem Load_without_models (path data : string) (p0 : Prices) :
  os_ReadFile path = Ok data ->
  json_Unmarshal data = Ok p0 ->
  Models p0 = None ->
  exists p : Prices,
    Load os_ReadFile json_Unmarshal path = Ok p /\
    AsOf p = AsOf p0 /\
    Models p = Some ∅ /\
    forall (model : string) (i o : Z),
      Known (ComputeCost unicodePrint p model i o) = false /\
      CostUSD (ComputeCost unicodePrint p model i o) = Go.f64_zero.
Proof.
  intros Hr Hu Hm.
  exists {| AsOf := AsOf p0; Models := Some ∅ |}.
  unfold Load. rewrite Hr, Hu, Hm. repeat split.
  all: rewrite ComputeCost_absent; [reflexivity|]; simpl; apply lookup_empty.
Qed.

End Loading.

(** The file [{}]: it loads, and no model has a price. *)
Lemma Load_without_models_witness :
  exists p : pricing.Prices,
    pricing.Load fixtures.disk fixtures.decodePrices "prices/prices.json" = Ok p /\
    pricing.Models p = Some ∅ /\
    pricing.Known (pricing.ComputeCost fixtures.noTable p "gpt-4o" 1000 500) = false.
Proof.
  destruct
    (Load_without_models fixtures.disk fixtures.decodePrices fixtures.noTable
       "prices/prices.json" "{}"
       {| pricing.AsOf := EmptyString; pricing.Models := None |}
       eq_refl eq_refl eq_refl) as (p & Hl & _ & Hm & Hc).
  exists p. repeat split; [exact Hl | exact Hm | apply Hc].
Defined.

(** ** The aggregator *)

Section Aggregation.
Import ledger.

Lemma sum_perm (g : Entry -> Z) (l l' : list Entry) :
  Permutation l l' -> totals.sum g l = totals.sum g l'.
Proof. induction 1; simpl; lia. Qed.

(** A counter that starts in range and grows by wrapped additions holds the
    wrapped exact sum. *)
Lemma fold_wrapped (h : Z -> Entry -> Z) (g : Entry -> Z) :
  (forall a e, Go.wrap a = a -> h a e = Go.wrap (a + g e)) ->
  forall l a, Go.wrap a = a -> fold_left h l a = Go.wrap (a + totals.sum g l).
Proof.
  intros Hh l. induction l as [|e l IH]; intros a Ha; simpl.
  - now rewrite Z.add_0_r.
  - rewrite IH by (rewrite Hh by exact Ha; apply wrap_idem).
    rewrite Hh by exact Ha. rewrite wrap_add_l. f_equal. lia.
Qed.

Lemma fold_step_TotalCalls (l : list Entry) (s : Summary) :
  TotalCalls (fold_left step l s) =
  fold_left (fun a _ => Go.int_add a 1) l (TotalCalls s).
Proof. revert s. induction l as [|e l IH]; intros s; simpl; [|rewrite IH]; reflexivity. Qed.

Lemma fold_step_KnownCostCalls (l : list Entry) (s : Summary) :
  KnownCostCalls (fold_left step l s) =
  fold_left (fun a e => if CostKnown e then Go.int_add a 1 else a) l (KnownCostCalls s).
Proof. revert s. induction l as [|e l IH]; intros s; simpl; [|rewrite IH]; reflexivity. Qed.

Lemma fold_step_UnknownCostCalls (l : list Entry) (s : Summary) :
  UnknownCostCalls (fold_left step l s) =
  fold_left (fun a e => if CostKnown e then a else Go.int_add a 1) l (UnknownCostCalls s).
Proof. revert s. induction l as [|e l IH]; intros s; simpl; [|rewrite IH]; reflexivity. Qed.

Lemma fold_step_TotalInputTokens (l : list Entry) (s : Summary) :
  TotalInputTokens (fold_left step l s) =
  fold_left (fun a e => Go.int_add a (InputTokens e)) l (TotalInputTokens s).
Proof. revert s. induction l as [|e l IH]; intros s; simpl; [|rewrite IH]; reflexivity. Qed.

Lemma fold_step_TotalOutputTokens (l : list Entry) (s : Summary) :
  TotalOutputTokens (fold_left step l s) =
  fold_left (fun a e => Go.int_add a (OutputTokens e)) l (TotalOutputTokens s).
Proof. revert s. induction l as [|e l IH]; intros s; simpl; [|rewrite IH]; reflexivity. Qed.

Lemma fold_step_TotalKnownCostUSD (l : list Entry) (s : Summary) :
  TotalKnownCostUSD (fold_left step l s) =
  fold_left Go.f64_add (totals.knownCosts l) (TotalKnownCostUSD s).
Proof.
  revert s. induction l as [|e l IH]; intros s; [reflexivity|].
  cbn [fold_left]. rewrite IH. unfold totals.knownCosts.
  cbn [filter list_filter step TotalKnownCostUSD].
  destruct (CostKnown e) eqn:Hk.
  - rewrite decide_True by reflexivity. reflexivity.
  - rewrite decide_False by discriminate. reflexivity.
Qed.

Lemma wrap_guard (b : bool) (a : Z) :
  Go.wrap a = a ->
  (if b then Go.int_add a 1 else a) = Go.wrap (a + totals.indicator b).
Proof.
  intros Ha. destruct b; simpl; [reflexivity|]. now rewrite Z.add_0_r.
Qed.

(** The integer totals of a summary are the exact sums, wrapped to 64 bits;
    the cost total is the [float64] sum of the known costs from left to
    right. *)
Lemma Summary_totals (l : list Entry) :
  let s := Aggregator.Summary {| Aggregator.entries := l |} in
  TotalCalls s = Go.wrap (totals.sum (fun _ => 1) l) /\
  KnownCostCalls s = Go.wrap (totals.sum (fun e => totals.indicator (CostKnown e)) l) /\
  UnknownCostCalls s =
    Go.wrap (totals.sum (fun e => totals.indicator (negb (CostKnown e))) l) /\
  TotalInputTokens s = Go.wrap (totals.sum InputTokens l) /\
  TotalOutputTokens s = Go.wrap (totals.sum OutputTokens l) /\
  TotalKnownCostUSD s = fold_left Go.f64_add (totals.knownCosts l) Go.f64_zero.
Proof.
  cbv zeta. unfold Aggregator.Summary. cbn [Aggregator.entries].
  rewrite fold_step_TotalCalls, fold_step_KnownCostCalls, fold_step_UnknownCostCalls,
    fold_step_TotalInputTokens, fold_step_TotalOutputTokens, fold_step_TotalKnownCostUSD.
  cbn [emptySummary TotalCalls KnownCostCalls UnknownCostCalls TotalInputTokens
       TotalOutputTokens TotalKnownCostUSD].
  repeat split.
  - now rewrite (fold_wrapped _ (fun _ => 1)).
  - rewrite (fold_wrapped _ (fun e => totals.indicator (CostKnown e))); try reflexivity.
    intros a e Ha. now apply wrap_guard.
  - rewrite (fold_wrapped _ (fun e => totals.indicator (negb (CostKnown e)))); try reflexivity.
    intros a e Ha. destruct (CostKnown e); simpl; [now rewrite Z.add_0_r | reflexivity].
  - now rewrite (fold_wrapped _ InputTokens).
  - now rewrite (fold_wrapped _ OutputTokens).
Qed.

(** C2, as the code has it. After adding the entries of a sequence, or of
    any permutation of it, the summaries have equal [TotalCalls],
    [KnownCostCalls], [UnknownCostCalls], [TotalInputTokens] and
    [TotalOutputTokens]; [TotalKnownCostUSD] is the [float64] sum of the
    costs of the cost-known entries, added from left to right in the order
    of the entries. *)
Theorem Summary_permutation (l l' : list Entry) :
  Permutation l l' ->
  let s := Aggregator.Summary {| Aggregator.entries := l |} in
  let s' := Aggregator.Summary {| Aggregator.entries := l' |} in
  TotalCalls s = TotalCalls s' /\
  KnownCostCalls s = KnownCostCalls s' /\
  UnknownCostCalls s = UnknownCostCalls s' /\
  TotalInputTokens s = TotalInputTokens s' /\
  TotalOutputTokens s = TotalOutputTokens s' /\
  TotalKnownCostUSD s = fold_left Go.f64_add (totals.knownCosts l) Go.f64_zero /\
  TotalKnownCostUSD s' = fold_left Go.f64_add (totals.knownCosts l') Go.f64_zero.
Proof.
  intros Hp s s'. subst s s'.
  destruct (Summary_totals l) as (H1 & H2 & H3 & H4 & H5 & H6).
  destruct (Summary_totals l') as (H1' & H2' & H3' & H4' & H5' & H6').
  cbv zeta in *.
  rewrite H1, H2, H3, H4, H5, H1', H2', H3', H4', H5'.
  repeat split; try assumption; f_equal; now apply sum_perm.
Qed.

End Aggregation.

(** The three calls of the fixture and their reversal: the integer totals
    agree. *)
Lemma Summary_permutation_witness :
  ledger.TotalCalls
    (ledger.Aggregator.Summary {| ledger.Aggregator.entries := fixtures.threeCalls |}) =
  ledger.TotalCalls
    (ledger.Aggregator.Summary {| ledger.Aggregator.entries := rev fixtures.threeCalls |}) /\
  ledger.TotalInputTokens
    (ledger.Aggregator.Summary {| ledger.Aggregator.entries := fixtures.threeCalls |}) =
  ledger.TotalInputTokens
    (ledger.Aggregator.Summary {| ledger.Aggregator.entries := rev fixtures.threeCalls |}).
Proof.
  pose proof
    (Summary_permutation fixtures.threeCalls (rev fixtures.threeCalls)
       (Permutation_rev fixtures.threeCalls)) as H.
  cbv zeta in H. destruct H as (H1 & _ & _ & H4 & _).
  split; [exact H1 | exact H4].
Defined.

(** C2, as stated, fails for the cost total: costs 0.1, 0.2 and 0.3 add up
    to 0.6000000000000001 in this order and to 0.6 in the reverse order. *)
Lemma Summary_cost_depends_on_order :
  Permutation fixtures.threeCalls (rev fixtures.threeCalls) /\
  ledger.TotalKnownCostUSD
    (ledger.Aggregator.Summary {| ledger.Aggregator.entries := fixtures.threeCalls |}) =
  Go.lit 0.6000000000000001 /\
  ledger.TotalKnownCostUSD
    (ledger.Aggregator.Summary {| ledger.Aggregator.entries := rev fixtures.threeCalls |}) =
  Go.lit 0.6 /\
  Go.f64_eqb
    (ledger.TotalKnownCostUSD
       (ledger.Aggregator.Summary {| ledger.Aggregator.entries := fixtures.threeCalls |}))
    (ledger.TotalKnownCostUSD
       (ledger.Aggregator.Summary {| ledger.Aggregator.entries := rev fixtures.threeCalls |}))
  = false.
Proof.
  split; [apply Permutation_rev|].
  repeat split; vm_compute; reflexivity.
Qed.

(** ** Staleness *)

Section Staleness.
Import pricing.

Lemma Since_clamped (now t : Go.Time) :
  Go.Since now t =
    if Go.maxDuration <? now - t then Go.maxDuration
    else if now - t <? Go.minDuration then Go.minDuration
    else now - t.
Proof. reflexivity. Qed.

Lemma IsStale_unparsed (now : Go.Time) (p : Prices) (maxAge : Go.Duration) :
  Go.ParseDate (AsOf p) = None -> IsStale now p maxAge = true.
Proof. intros H. unfold IsStale. now rewrite H. Qed.

Lemma IsStale_parsed (now asOf : Go.Time) (p : Prices) (maxAge : Go.Duration) :
  Go.ParseDate (AsOf p) = Some asOf ->
  IsStale now p maxAge = (maxAge <? Go.Since now asOf).
Proof. intros H. unfold IsStale. now rewrite H. Qed.

(** What [IsStale] computes. It answers [true] when the date does not parse
    as YYYY-MM-DD. When it parses, [IsStale] compares the max age with
    [time.Since], which is the elapsed time cut to the range of a
    [Duration]; for a max age below the largest [Duration] it answers [true]
    exactly when the date is older than the max age, and [false]
    otherwise. *)
Theorem IsStale_spec (now : Go.Time) (p : Prices) (maxAge : Go.Duration) :
  (Go.ParseDate (AsOf p) = None -> IsStale now p maxAge = true) /\
  (forall asOf : Go.Time,
     Go.ParseDate (AsOf p) = Some asOf ->
     IsStale now p maxAge = (maxAge <? Go.Since now asOf) /\
     (Go.minDuration <= maxAge < Go.maxDuration ->
      (maxAge < now - asOf -> IsStale now p maxAge = true) /\
      (now - asOf <= maxAge -> IsStale now p maxAge = false))).
Proof.
  split; [apply IsStale_unparsed|].
  intros asOf H. rewrite (IsStale_parsed _ _ _ _ H). split; [reflexivity|].
  intros [Hlo Hhi]. rewrite Since_clamped.
  destruct (Z.ltb_spec Go.maxDuration (now - asOf)) as [Hbig|Hbig].
  - split; intros; [apply Z.ltb_lt|]; lia.
  - destruct (Z.ltb_spec (now - asOf) Go.minDuration) as [Hsmall|Hsmall].
    + split; intros; [|apply Z.ltb_ge]; lia.
    + split; intros; [apply Z.ltb_lt | apply Z.ltb_ge]; lia.
Qed.

End Staleness.

(** The dates of [TestIsStale]: an old date and a text that is no date are
    stale, a date of three days ago is not. *)
Lemma IsStale_spec_witness :
  pricing.IsStale fixtures.now (fixtures.stamped "invalid") fixtures.sixtyDays = true /\
  pricing.IsStale fixtures.now (fixtures.stamped "2020-01-01") fixtures.sixtyDays = true /\
  pricing.IsStale fixtures.now (fixtures.stamped "2026-01-01") fixtures.sixtyDays = false.
Proof.
  pose proof (IsStale_spec fixtures.now (fixtures.stamped "invalid") fixtures.sixtyDays)
    as [Hbad _].
  pose proof (IsStale_spec fixtures.now (fixtures.stamped "2020-01-01") fixtures.sixtyDays)
    as [_ Hold].
  pose proof (IsStale_spec fixtures.now (fixtures.stamped "2026-01-01") fixtures.sixtyDays)
    as [_ Hnew].
  destruct (Hold (Go.Date 2020 1 1) eq_refl) as [_ Hold'].
  destruct (Hnew (Go.Date 2026 1 1) eq_refl) as [_ Hnew'].
  split; [|split].
  - apply Hbad. reflexivity.
  - apply Hold'; [split|]; vm_compute; congruence.
  - apply Hnew'; [split|]; vm_compute; congruence.
Defined.


(** ** The request mutator *)

Section Mutator.
Import proxy.
Variable json_Unmarshal : string -> result json.object.
Variable json_Marshal : json.object -> result string.

Lemma len_zero (s : string) : Go.len s = 0 -> s = EmptyString.
Proof.
  destruct s as [|c s]; [reflexivity|].
  change (Go.len (String c s)) with (1 + Go.len s).
  pose proof (len_nonneg s). lia.
Qed.

Lemma ReadAll_NopCloser (data : string) : ReadAll (NopCloser data) = Ok data.
Proof.
  unfold ReadAll, NopCloser. cbn [fails chunks String.concat]. reflexivity.
Qed.

(** The assignment happens for a payload with ["stream": true] and without
    ["stream_options"], and for no other. *)
Lemma withStreamOptions_cases (payload : json.object) :
  (exists m : gmap string json.value,
      payload = Some m /\
      m !! "stream" = Some (json.Bool true) /\
      m !! "stream_options" = None /\
      withStreamOptions payload =
        Some (<["stream_options" :=
                  json.Object {["include_usage" := json.Bool true]}]> m)) \/
  withStreamOptions payload = payload.
Proof.
  destruct payload as [m|]; [|right; reflexivity].
  unfold withStreamOptions.
  destruct (m !! "stream") as [[| [|] | | | |]|] eqn:Hs; try (right; reflexivity).
  destruct (m !! "stream_options") eqn:Ho; [right; reflexivity|].
  left. exists m. repeat split; assumption.
Qed.

(** C8. For a request whose body reads as [body] and whose declared length
    is unknown or the length of [body]: when [body] does not decode, or the
    payload does not encode again, the request forwards [body] and declares
    its length; when the payload encodes as [modified], the request forwards
    [modified] and declares the length of [modified]. The payload gets the
    usage options only when it has ["stream": true] and no
    ["stream_options"]; otherwise it is encoded as decoded. *)
Theorem injectStreamOptions_fail_open (r : Request.t) (b : Stream) (body : string) :
  Request.Body r = Some b ->
  ReadAll b = Ok body ->
  Request.declares r body ->
  let r' := injectStreamOptions json_Unmarshal json_Marshal r in
  ((forall payload, json_Unmarshal body = Ok payload ->
      exists e, json_Marshal (withStreamOptions payload) = Err e) ->
   Request.bytes r' = Ok body /\ Request.ContentLength r' = Go.len body) /\
  (forall payload modified,
     Request.ContentLength r <> 0 ->
     json_Unmarshal body = Ok payload ->
     json_Marshal (withStreamOptions payload) = Ok modified ->
     Request.bytes r' = Ok modified /\
     Request.ContentLength r' = Go.len modified) /\
  (forall payload,
     withStreamOptions payload <> payload ->
     exists m : gmap string json.value,
       payload = Some m /\
       m !! "stream" = Some (json.Bool true) /\
       m !! "stream_options" = None /\
       withStreamOptions payload =
         Some (<["stream_options" :=
                   json.Object {["include_usage" := json.Bool true]}]> m)).
Proof.
  intros Hb Hread Hdecl r'. subst r'. unfold injectStreamOptions.
  rewrite Hb, Hread. split; [|split].
  - intros Hfail.
    destruct (Z.eqb_spec (Request.ContentLength r) 0) as [Hz|Hz].
    + unfold Request.bytes. rewrite Hb, Hread. split; [reflexivity|].
      destruct Hdecl as [Hd|Hd]; lia.
    + destruct (json_Unmarshal body) as [payload|e].
      * destruct (Hfail payload eq_refl) as [e He]. rewrite He.
        unfold Request.bytes. cbn. split; reflexivity.
      * unfold Request.bytes. cbn. split; reflexivity.
  - intros payload modified Hz Hu Hm.
    destruct (Z.eqb_spec (Request.ContentLength r) 0) as [Hz'|_]; [contradiction|].
    rewrite Hu, Hm. unfold Request.bytes. cbn. split; reflexivity.
  - intros payload Hne.
    destruct (withStreamOptions_cases payload) as [H|H]; [exact H | contradiction].
Qed.

End Mutator.

(** A body that is no JSON text is forwarded as it is; a chat request with
    ["stream": true] is forwarded with the usage options, and its new length
    is declared. *)
Lemma injectStreamOptions_fail_open_witness :
  proxy.Request.bytes
    (proxy.injectStreamOptions fixtures.decodeBody fixtures.encodeBody
       (fixtures.post "/openai/v1/chat/completions" "not json")) = Ok "not json" /\
  proxy.Request.ContentLength
    (proxy.injectStreamOptions fixtures.decodeBody fixtures.encodeBody
       (fixtures.post "/openai/v1/chat/completions" "not json")) = 8 /\
  proxy.Request.bytes
    (proxy.injectStreamOptions fixtures.decodeBody fixtures.encodeBody
       (fixtures.post "/openai/v1/chat/completions" fixtures.streamBody)) =
  Ok fixtures.streamBodyWithOptions /\
  proxy.Request.ContentLength
    (proxy.injectStreamOptions fixtures.decodeBody fixtures.encodeBody
       (fixtures.post "/openai/v1/chat/completions" fixtures.streamBody)) = 55.
Proof.
  pose proof
    (injectStreamOptions_fail_open fixtures.decodeBody fixtures.encodeBody
       (fixtures.post "/openai/v1/chat/completions" "not json")
       (proxy.NopCloser "not json") "not json" eq_refl eq_refl
       (or_intror eq_refl)) as H1.
  pose proof
    (injectStreamOptions_fail_open fixtures.decodeBody fixtures.encodeBody
       (fixtures.post "/openai/v1/chat/completions" fixtures.streamBody)
       (proxy.NopCloser fixtures.streamBody) fixtures.streamBody eq_refl eq_refl
       (or_intror eq_refl)) as H2.
  cbv zeta in H1, H2.
  destruct H1 as [H1 _]. destruct H2 as [_ [H2 _]].
  destruct H1 as [Ha Hb]; [intros payload Hp; discriminate Hp|].
  destruct (H2 (Some fixtures.streaming) fixtures.streamBodyWithOptions) as [Hc Hd];
    [discriminate | reflexivity | reflexivity |].
  repeat split; assumption.
Defined.

(** ** The dispatcher and the response interceptor *)

Section Interception.
Import proxy.
Context {St : Type}.
Variable openai_ParseResponse : string -> ledger.Entry -> ledger.Entry.
Variable anthropic_ParseResponse : string -> ledger.Entry -> ledger.Entry.
Variable openrouter_ParseResponse : string -> ledger.Entry -> ledger.Entry.
Variable config : @Config St.
Variable parseChunk : string -> string -> option Usage * string.
Variable moreComplete : Usage -> Usage -> Usage.
Variable json_Unmarshal : string -> result json.object.
Variable json_Marshal : json.object -> result string.
Variable url_Parse : string -> result URL.
Variable env : string -> string.
Variable transport : Outbound -> result (Response.t Stream).
Variable client : option nat.

Local Abbreviation handle :=
  (handleResponse openai_ParseResponse anthropic_ParseResponse
     openrouter_ParseResponse config).
Local Abbreviation answer :=
  (respond openai_ParseResponse anthropic_ParseResponse
     openrouter_ParseResponse config parseChunk moreComplete client).
Local Abbreviation serve :=
  (ServeHTTP openai_ParseResponse anthropic_ParseResponse
     openrouter_ParseResponse config parseChunk moreComplete json_Unmarshal
     json_Marshal url_Parse env transport client).

Lemma providerTargets_unknown (provider : string) :
  provider <> "openai" -> provider <> "anthropic" -> provider <> "openrouter" ->
  providerTargets !! provider = None.
Proof.
  intros H1 H2 H3. unfold providerTargets.
  rewrite !lookup_insert_ne by congruence. apply lookup_empty.
Qed.

Lemma SplitN2_cons (s : string) (sep : ascii) :
  exists first more, Go.SplitN2 s sep = first :: more.
Proof.
  induction s as [|c s (first & more & IH)]; simpl; [eauto|].
  destruct (Ascii.eqb c sep); [eauto|].
  rewrite IH. destruct more; eauto.
Qed.

(** C7. A request whose first path segment is none of [openai],
    [anthropic], [openrouter] is answered with status 400 and the text
    [unknown provider: <segment>]; the state of the callback is as before:
    [OnEntry] is not invoked. *)
Theorem ServeHTTP_unknown_provider (r : Request.t) (s : St) :
  firstSegment (Request.Path r) <> "openai" ->
  firstSegment (Request.Path r) <> "anthropic" ->
  firstSegment (Request.Path r) <> "openrouter" ->
  serve r s =
    (http_Error ("unknown provider: " +:+ firstSegment (Request.Path r)) 400, s).
Proof.
  unfold firstSegment, ServeHTTP. intros H1 H2 H3.
  destruct (SplitN2_cons (Go.TrimPrefix (Request.Path r) "/") "/"%char)
    as (provider & more & Hs).
  rewrite Hs in *. cbn [hd] in *.
  now rewrite providerTargets_unknown.
Qed.

(** C9. For a response whose status is below 200 or at least 300,
    [handleResponse] leaves the response and its body as they are, installs
    no interceptor and does not invoke [OnEntry]; the caller gets the status
    and the chunks of the upstream body that the copy writes (the connection
    is dropped after them when a read of the body fails or the caller stops
    taking them), and the state of the callback is as before. *)
Theorem handleResponse_non_2xx (provider endpoint : string)
    (resp : Response.t Stream) (s : St) :
  Response.StatusCode resp < 200 \/ 300 <= Response.StatusCode resp ->
  handle provider endpoint resp s =
    (Response.set_Body (Plain (Response.Body resp)) (Response.ContentLength resp) resp, s) /\
  answer provider endpoint resp s =
    (written (Response.StatusCode resp)
       (copyPlain (chunks (Response.Body resp)) client)
       (completes (chunks (Response.Body resp)) (fails (Response.Body resp)) client), s).
Proof.
  intros Hs.
  assert (Hh : handle provider endpoint resp s =
    (Response.set_Body (Plain (Response.Body resp)) (Response.ContentLength resp) resp, s)).
  { unfold handleResponse.
    destruct (Z.ltb_spec (Response.StatusCode resp) 200);
      destruct (Z.leb_spec 300 (Response.StatusCode resp)); try reflexivity; lia. }
  split; [exact Hh|]. unfold respond. rewrite Hh. reflexivity.
Qed.

(** *** Exactly one record per stream *)

Lemma capture_keeps (si : @streamInterceptor St) (payload : string) :
  emitted (capture parseChunk moreComplete si payload) = emitted si /\
  onEntry (capture parseChunk moreComplete si payload) = onEntry si.
Proof. unfold capture. destruct (parseChunk _ _). split; reflexivity. Qed.

Lemma feed_keeps (events : list string) (si : @streamInterceptor St) :
  emitted (fst (feed parseChunk moreComplete events si)) = emitted si /\
  onEntry (fst (feed parseChunk moreComplete events si)) = onEntry si.
Proof.
  revert si. induction events as [|ev events IH]; intros si; [split; reflexivity|].
  cbn [feed]. destruct (dataPayload _ ev) as [payload|]; [|apply IH].
  destruct (String.eqb payload "[DONE]"); [split; reflexivity|].
  destruct (IH (capture parseChunk moreComplete si payload)) as [He Ho].
  destruct (capture_keeps si payload) as [He' Ho'].
  split; congruence.
Qed.

Lemma finalize_once (f : ledger.Entry -> St -> St) (s0 : St) (abort : option string)
    (si : @streamInterceptor St) (s : St) :
  once f s0 (si, s) ->
  once f s0 (finalize abort si s) /\ emitted (fst (finalize abort si s)) = true.
Proof.
  intros [Hf [[He Hs]|[He Hs]]]; cbn [fst snd] in *; unfold finalize; rewrite He.
  - split; [|reflexivity]. split; [exact Hf|]. right. split; [reflexivity|].
    cbn [fst snd]. exists (streamEntry abort si). subst. split; reflexivity.
  - split; [|exact He]. split; [exact Hf|]. right. now split.
Qed.

Lemma onData_once (f : ledger.Entry -> St -> St) (s0 : St) (chunk : string)
    (si : @streamInterceptor St) (s : St) :
  once f s0 (si, s) -> once f s0 (onData parseChunk moreComplete chunk si s).
Proof.
  intros H. unfold onData. destruct (emitted si) eqn:He; [exact H|].
  destruct (splitEvents _ _) as [evs rest].
  match goal with |- context [feed _ _ evs ?x] => set (si0 := x) end.
  pose proof (feed_keeps evs si0) as [Hk Ho].
  destruct (feed parseChunk moreComplete evs si0) as [si1 done]. cbn [fst] in Hk, Ho.
  assert (H1 : once f s0 (si1, s)).
  { destruct H as [Hf [[_ Hs]|[He' _]]]; cbn [fst snd] in *; [|congruence].
    split; [cbn [fst]; rewrite Ho; exact Hf|]. left. cbn [fst snd].
    split; [rewrite Hk; reflexivity | exact Hs]. }
  destruct done; [apply finalize_once; exact H1 | exact H1].
Qed.

Lemma copyIntercepted_once (f : ledger.Entry -> St -> St) (s0 : St)
    (cs : list string) (failing : bool) :
  forall (cl : option nat) (si : @streamInterceptor St) (s : St),
    once f s0 (si, s) ->
    once f s0 (snd (copyIntercepted parseChunk moreComplete cs failing cl si s)).
Proof.
  induction cs as [|c cs IH]; intros cl si s H; cbn [copyIntercepted].
  - cbn [snd]. destruct failing; apply finalize_once; exact H.
  - pose proof (onData_once f s0 c si s H) as H1.
    destruct (onData parseChunk moreComplete c si s) as [si1 s1].
    destruct (accepts cl) as [cl'|]; [|exact H1].
    specialize (IH cl' si1 s1 H1).
    destruct (copyIntercepted parseChunk moreComplete cs failing cl' si1 s1) as [out st].
    exact IH.
Qed.

(** A body behind a fresh interceptor: after the copy and the close, the
    callback has run once, on a record of a stream. *)
Lemma copyResponse_intercepted (f : ledger.Entry -> St -> St) (b : Stream)
    (provider endpoint : string) (s : St) :
  exists e, ledger.Streaming e = true /\
    snd (copyResponse parseChunk moreComplete
           (Intercepted b (newStreamInterceptor provider endpoint f)) client s) = f e s.
Proof.
  cbn [copyResponse].
  pose proof (copyIntercepted_once f s (chunks b) (fails b) client
                (newStreamInterceptor provider endpoint f) s) as H.
  destruct (copyIntercepted parseChunk moreComplete (chunks b) (fails b) client
              (newStreamInterceptor provider endpoint f) s) as [out [si1 s1]].
  cbn [snd] in *.
  assert (H0 : once f s (newStreamInterceptor provider endpoint f, s)).
  { split; [reflexivity|]. left. split; reflexivity. }
  destruct (finalize_once f s (Some "client disconnected") si1 s1 (H H0))
    as [[_ [[He _]|[_ Hs]]] Hem]; [unfold Close; congruence|].
  exact Hs.
Qed.


Lemma copyIntercepted_all (cs : list string) (failing : bool)
    (si : @streamInterceptor St) (s : St) :
  fst (copyIntercepted parseChunk moreComplete cs failing None si s) = cs.
Proof.
  revert si s. induction cs as [|c cs IH]; intros si s; [reflexivity|].
  cbn [copyIntercepted accepts].
  destruct (onData parseChunk moreComplete c si s) as [si1 s1].
  specialize (IH si1 s1).
  destruct (copyIntercepted parseChunk moreComplete cs failing None si1 s1) as [out st].
  cbn [fst] in *. now rewrite IH.
Qed.

(** One record for a response the proxy intercepts, through any callback. *)
Lemma respond_once (f : ledger.Entry -> St -> St) (provider targetPath : string)
    (resp : Response.t Stream) (s : St) :
  OnEntry config = Some f ->
  200 <= Response.StatusCode resp < 300 ->
  Go.Contains (Response.ContentType resp) "text/event-stream" = true \/
  (Go.Contains (Response.ContentType resp) "text/event-stream" = false /\
   Go.Contains (Response.ContentType resp) "application/json" = true /\
   fails (Response.Body resp) = false) ->
  exists e, snd (answer provider targetPath resp s) = f e s.
Proof.
  intros Hf Hs Hct. unfold respond, handleResponse.
  destruct (Z.ltb_spec (Response.StatusCode resp) 200); [lia|].
  destruct (Z.leb_spec 300 (Response.StatusCode resp)); [lia|].
  cbn [orb]. rewrite Hf.
  destruct Hct as [Hsse|(Hsse & Hjson & Hok)]; rewrite Hsse.
  - cbn [Response.set_Body Response.Body].
    destruct (copyResponse_intercepted f (Response.Body resp) provider targetPath s)
      as (e & _ & He).
    destruct (copyResponse _ _ _ client s) as [[out complete] s2]. cbn [snd] in *. eauto.
  - rewrite Hjson. cbn [negb]. unfold ReadAll. rewrite Hok.
    cbn. eauto.
Qed.

End Interception.

(** C1, as the code has it. With a callback that logs its entries, a
    response with a 2xx status adds exactly one entry to the log in two cases:
    a response declared as an event stream, whatever its chunks, however the
    upstream body ends and whenever the caller goes away; and a response
    declared as JSON (and not as an event stream) whose body is read to its
    end without an error. *)
Theorem respond_one_entry
    (openai_ParseResponse anthropic_ParseResponse openrouter_ParseResponse :
       string -> ledger.Entry -> ledger.Entry)
    (config : @proxy.Config (list ledger.Entry))
    (parseChunk : string -> string -> option proxy.Usage * string)
    (moreComplete : proxy.Usage -> proxy.Usage -> proxy.Usage)
    (client : option nat) (provider targetPath : string)
    (resp : proxy.Response.t proxy.Stream) (log : list ledger.Entry) :
  proxy.OnEntry config = Some proxy.record ->
  200 <= proxy.Response.StatusCode resp < 300 ->
  Go.Contains (proxy.Response.ContentType resp) "text/event-stream" = true \/
  (Go.Contains (proxy.Response.ContentType resp) "text/event-stream" = false /\
   Go.Contains (proxy.Response.ContentType resp) "application/json" = true /\
   proxy.fails (proxy.Response.Body resp) = false) ->
  exists e : ledger.Entry,
    snd (proxy.respond openai_ParseResponse anthropic_ParseResponse
           openrouter_ParseResponse config parseChunk moreComplete client
           provider targetPath resp log) = log ++ [e].
Proof.
  intros Hf Hs Hct.
  exact (respond_once openai_ParseResponse anthropic_ParseResponse
           openrouter_ParseResponse config parseChunk moreComplete client
           proxy.record provider targetPath resp log Hf Hs Hct).
Qed.

(** One entry for a JSON document, one for an event stream, and one for an
    event stream the caller leaves before its first chunk. *)
Lemma respond_one_entry_witness :
  (exists e,
     snd (proxy.respond fixtures.noParse fixtures.noParse fixtures.noParse
            fixtures.logging fixtures.noChunk fixtures.keepFirst None
            "openai" "/v1/chat/completions"
            (fixtures.reply 200 "application/json" fixtures.document) []) = [] ++ [e]) /\
  (exists e,
     snd (proxy.respond fixtures.noParse fixtures.noParse fixtures.noParse
            fixtures.logging fixtures.noChunk fixtures.keepFirst None
            "openai" "/v1/chat/completions"
            (fixtures.reply 200 "text/event-stream" fixtures.events) []) = [] ++ [e]) /\
  (exists e,
     snd (proxy.respond fixtures.noParse fixtures.noParse fixtures.noParse
            fixtures.logging fixtures.noChunk fixtures.keepFirst (Some 0%nat)
            "openai" "/v1/chat/completions"
            (fixtures.reply 200 "text/event-stream" fixtures.events) []) = [] ++ [e]).
Proof.
  split; [|split].
  - apply respond_one_entry; [reflexivity | cbn; lia | right; repeat split].
  - apply respond_one_entry; [reflexivity | cbn; lia | left; reflexivity].
  - apply respond_one_entry; [reflexivity | cbn; lia | left; reflexivity].
Defined.

(** C1, as stated, fails for a JSON response whose body cannot be read to
    its end: [handleResponse] gives up, no entry reaches the callback, and
    the copy of the body breaks off at once. *)
Lemma respond_read_error_no_entry :
  proxy.respond fixtures.noParse fixtures.noParse fixtures.noParse
    fixtures.logging fixtures.noChunk fixtures.keepFirst None
    "openai" "/v1/chat/completions"
    (fixtures.reply 200 "application/json" fixtures.truncated) [] =
  (proxy.Broken 200 [], []).
Proof. reflexivity. Qed.

(** A path that names no provider of the table: status 400, and nothing
    logged. *)
Lemma ServeHTTP_unknown_provider_witness :
  proxy.ServeHTTP fixtures.noParse fixtures.noParse fixtures.noParse
    fixtures.logging fixtures.noChunk fixtures.keepFirst fixtures.decodeBody
    fixtures.encodeBody fixtures.noURL fixtures.noEnv fixtures.refused None
    (fixtures.post "/gemini/v1/models" "{}") [] =
  (proxy.http_Error "unknown provider: gemini" 400, []).
Proof.
  apply (ServeHTTP_unknown_provider fixtures.noParse fixtures.noParse fixtures.noParse
           fixtures.logging fixtures.noChunk fixtures.keepFirst fixtures.decodeBody
           fixtures.encodeBody fixtures.noURL fixtures.noEnv fixtures.refused None
           (fixtures.post "/gemini/v1/models" "{}") []); discriminate.
Defined.

(** A JSON error document with status 500 goes through, and nothing is
    logged. *)
Lemma handleResponse_non_2xx_witness :
  proxy.respond fixtures.noParse fixtures.noParse fixtures.noParse
    fixtures.logging fixtures.noChunk fixtures.keepFirst None
    "openai" "/v1/chat/completions"
    (fixtures.reply 500 "application/json" fixtures.document) [] =
  (proxy.Replied 500 ["{}"], []).
Proof.
  apply (handleResponse_non_2xx fixtures.noParse fixtures.noParse fixtures.noParse
           fixtures.logging fixtures.noChunk fixtures.keepFirst None
           "openai" "/v1/chat/completions"
           (fixtures.reply 500 "application/json" fixtures.document) []).
  right. cbn. lia.
Defined.

(** ** The pricing stage of [OnEntry] *)

Section Finalization.
Variable unicodePrint : Z -> bool.
Variable json_Marshal : ledger.Entry -> result string.
Variable clock : string.
Variable file_Write : list string -> string -> option (nat * string).
Variable prices : pricing.Prices.

(** The cost of a model of a table with finite rates that are not negative,
    for token counts that are not negative, is not negative. *)
Lemma ComputeCost_nonneg (model : string) (mp : pricing.ModelPrice) (i o : Z) :
  json.get (pricing.Models prices) model = Some mp ->
  pricing.nonnegRates prices ->
  0 <= i <= Go.maxInt -> 0 <= o <= Go.maxInt ->
  Go.f64_leb Go.f64_zero
    (pricing.CostUSD (pricing.ComputeCost unicodePrint prices model i o)) = true.
Proof.
  intros Hm Hr Hi Ho. rewrite (ComputeCost_present _ _ _ _ _ _ Hm).
  destruct (Hr model mp Hm) as [Hin Hout]. cbn [pricing.CostUSD].
  apply signed_nonneg_ge, f64_div_1000_nonneg, f64_add_nonneg;
    apply f64_mul_nonneg; auto using float64_of_int_nonneg.
Qed.

(** The record the aggregator and the ledger get is the priced one. *)
Lemma OnEntry_records (e : ledger.Entry) (st : scan.Run) :
  ledger.Aggregator.entries
    (scan.agg (scan.OnEntry unicodePrint json_Marshal clock file_Write prices e st)) =
  ledger.Aggregator.entries (scan.agg st) ++ [scan.price unicodePrint prices e].
Proof.
  unfold scan.OnEntry.
  destruct (ledger.Writer.Write _ _ _ _ _) as [w [err|]]; reflexivity.
Qed.

(** A record the pricing stage prices, and that carries no reason, comes out
    with the invariant. *)
Lemma price_establishes (e : ledger.Entry) :
  pricing.nonnegRates prices ->
  0 <= ledger.InputTokens e <= Go.maxInt ->
  0 <= ledger.OutputTokens e <= Go.maxInt ->
  ledger.CostKnown e = true -> ledger.Model e <> EmptyString ->
  ledger.UnknownReason e = EmptyString ->
  ledger.invariant (scan.price unicodePrint prices e).
Proof.
  intros Hr Hi Ho Hc Hm Hreason. unfold scan.price. rewrite Hc.
  apply String.eqb_neq in Hm. rewrite Hm. cbn [andb negb].
  destruct (json.get (pricing.Models prices) (ledger.Model e)) as [mp|] eqn:Hl.
  - pose proof (ComputeCost_nonneg _ mp _ _ Hl Hr Hi Ho) as Hpos.
    rewrite (ComputeCost_present _ _ _ _ _ _ Hl) in *.
    cbn [pricing.Known pricing.CostUSD] in *.
    split; cbn; [intros _; split; assumption | congruence].
  - rewrite (ComputeCost_absent _ _ _ _ _ Hl). cbn [pricing.Known pricing.UnknownReason].
    split; cbn; [discriminate | intros _; discriminate].
Qed.

(** A record of unknown cost, or without a model name, is not priced. *)
Lemma price_keeps (e : ledger.Entry) :
  ledger.CostKnown e = false \/ ledger.Model e = EmptyString ->
  scan.price unicodePrint prices e = e.
Proof.
  unfold scan.price. intros [->| ->]; [reflexivity|].
  now rewrite andb_false_r.
Qed.

(** C3, as the code has it. Take a table whose rates are finite and not
    negative, and a record whose token counts are not negative. If the
    pricing stage prices the record (its cost is marked known and it names a
    model) and the record carries no reason, the record that is finalized
    satisfies the invariant: a known cost that is not negative and no
    reason or, for a model the table does not have, an unknown cost with a
    reason. A record of unknown cost, or without a model name, is finalized
    exactly as it was handed over. The finalized record is the one the
    aggregator gets. *)
Theorem price_invariant (e : ledger.Entry) (st : scan.Run) :
  pricing.nonnegRates prices ->
  0 <= ledger.InputTokens e <= Go.maxInt ->
  0 <= ledger.OutputTokens e <= Go.maxInt ->
  let e' := scan.price unicodePrint prices e in
  (ledger.CostKnown e = true -> ledger.Model e <> EmptyString ->
   ledger.UnknownReason e = EmptyString -> ledger.invariant e') /\
  (ledger.CostKnown e = false \/ ledger.Model e = EmptyString -> e' = e) /\
  ledger.Aggregator.entries
    (scan.agg (scan.OnEntry unicodePrint json_Marshal clock file_Write prices e st)) =
  ledger.Aggregator.entries (scan.agg st) ++ [e'].
Proof.
  intros Hr Hi Ho. cbv zeta.
  split; [now apply price_establishes|].
  split; [apply price_keeps|apply OnEntry_records].
Qed.

(** Hence a record that satisfies the invariant when it is handed over
    satisfies it when it is finalized. *)
Lemma price_preserves (e : ledger.Entry) :
  pricing.nonnegRates prices ->
  0 <= ledger.InputTokens e <= Go.maxInt ->
  0 <= ledger.OutputTokens e <= Go.maxInt ->
  ledger.invariant e -> ledger.invariant (scan.price unicodePrint prices e).
Proof.
  intros Hr Hi Ho Hinv.
  destruct (ledger.CostKnown e) eqn:Hc;
    [|rewrite price_keeps by (left; exact Hc); exact Hinv].
  destruct (String.eqb_spec (ledger.Model e) EmptyString) as [Hm|Hm];
    [rewrite price_keeps by (right; exact Hm); exact Hinv|].
  apply price_establishes; try assumption.
  now destruct Hinv as [Hk _]; destruct (Hk Hc).
Qed.

End Finalization.

(** The records a stream ends with satisfy the invariant. *)
Lemma streamEntry_invariant {St : Type} (abort : option string)
    (si : @proxy.streamInterceptor St) :
  (forall reason, abort = Some reason -> reason <> EmptyString) ->
  ledger.invariant (proxy.streamEntry abort si).
Proof.
  intros Ha. unfold ledger.invariant, proxy.streamEntry. cbn.
  destruct abort as [reason|]; destruct (proxy.usage si); split;
    try discriminate; try (intros _; split; reflexivity); intros _.
  all: apply (Ha reason eq_refl).
Qed.

(** A call of [gpt-4o] priced with the table of the tests: the cost is
    known, without a reason, and not negative. *)
Lemma price_invariant_witness :
  ledger.invariant (scan.price fixtures.noTable fixtures.prices fixtures.observed).
Proof.
  refine (proj1 (price_invariant fixtures.noTable samples.marshal EmptyString
                   samples.roomy fixtures.prices fixtures.observed samples.fresh
                   _ _ _) eq_refl _ eq_refl).
  - intros model mp H. unfold fixtures.prices in H. cbn in H.
    apply lookup_singleton_Some in H as [_ <-]. split; reflexivity.
  - cbn. unfold Go.maxInt. lia.
  - cbn. unfold Go.maxInt. lia.
  - discriminate.
Defined.

(** C3, as stated, fails in four ways. With a negative rate in the table a
    record is finalized with a known cost of -0.0025; so is, under the table
    of the tests, a record that reports -1000 input tokens; a record of
    known cost that carries a reason keeps it; and a record of unknown cost
    without a reason, as [parseUsage] creates it before a parser fills it,
    is finalized as it is. *)
Lemma price_breaks_invariant :
  (ledger.CostUSD
     (scan.price fixtures.noTable fixtures.negativePrices fixtures.observed) =
   Go.lit (-0.0025) /\
   ~ ledger.invariant
       (scan.price fixtures.noTable fixtures.negativePrices fixtures.observed)) /\
  (ledger.CostUSD (scan.price fixtures.noTable fixtures.prices samples.refund) =
   Go.lit (-0.0025) /\
   ~ ledger.invariant (scan.price fixtures.noTable fixtures.prices samples.refund)) /\
  (ledger.CostKnown (scan.price fixtures.noTable fixtures.prices samples.doubtful) = true /\
   ledger.UnknownReason (scan.price fixtures.noTable fixtures.prices samples.doubtful) =
   "usage estimated" /\
   ~ ledger.invariant (scan.price fixtures.noTable fixtures.prices samples.doubtful)) /\
  (scan.price fixtures.noTable fixtures.prices
     (ledger.newEntry "openai" "/v1/chat/completions" false) =
   ledger.newEntry "openai" "/v1/chat/completions" false /\
   ~ ledger.invariant
       (scan.price fixtures.noTable fixtures.prices
          (ledger.newEntry "openai" "/v1/chat/completions" false))).
Proof.
  split; [|split; [|split]].
  - split; [vm_compute; reflexivity|].
    intros [Hk _]. destruct (Hk eq_refl) as [_ Hc]. vm_compute in Hc. discriminate.
  - split; [vm_compute; reflexivity|].
    intros [Hk _]. destruct (Hk eq_refl) as [_ Hc]. vm_compute in Hc. discriminate.
  - split; [vm_compute; reflexivity|]. split; [vm_compute; reflexivity|].
    intros [Hk _]. destruct (Hk ltac:(vm_compute; reflexivity)) as [Hreason _].
    vm_compute in Hreason. discriminate.
  - split; [vm_compute; reflexivity|].
    intros [_ Hu]. exact (Hu eq_refl eq_refl).
Qed.

(** ** The rows and counts of a summary *)

Section Breakdown.
Import ledger.

Lemma wrap_add_r (a b : Z) : Go.wrap (a + Go.wrap b) = Go.wrap (a + b).
Proof. rewrite Z.add_comm, wrap_add_l. f_equal. lia. Qed.

Lemma sum_known_unknown (l : list Entry) :
  totals.sum (fun e => totals.indicator (CostKnown e)) l +
  totals.sum (fun e => totals.indicator (negb (CostKnown e))) l =
  totals.sum (fun _ => 1) l.
Proof.
  induction l as [|e l IH]; [reflexivity|]. cbn [totals.sum].
  destruct (CostKnown e); cbn [negb totals.indicator]; lia.
Qed.

Lemma sum_ones (l : list Entry) : totals.sum (fun _ => 1) l = Z.of_nat (length l).
Proof. induction l as [|e l IH]; [reflexivity|]. cbn [totals.sum length]. lia. Qed.

(** X1. In a summary every call is counted once as of known cost or once as
    of unknown cost: the two counts add up, as [int]s, to the total of
    calls; for a ledger of at most [maxInt] entries the total is the number
    of entries, with no wrap-around. *)
Theorem Summary_calls_partition (l : list Entry) :
  let s := Aggregator.Summary {| Aggregator.entries := l |} in
  Go.int_add (KnownCostCalls s) (UnknownCostCalls s) = TotalCalls s /\
  (Z.of_nat (length l) <= Go.maxInt ->
   TotalCalls s = Z.of_nat (length l) /\
   KnownCostCalls s + UnknownCostCalls s = Z.of_nat (length l)).
Proof.
  cbv zeta. destruct (Summary_totals l) as (H1 & H2 & H3 & _). cbv zeta in *.
  rewrite H1, H2, H3. unfold Go.int_add.
  rewrite wrap_add_l, wrap_add_r, sum_known_unknown. split; [reflexivity|].
  intros Hn.
  assert (Hk : 0 <= totals.sum (fun e => totals.indicator (CostKnown e)) l).
  { clear. induction l as [|e l IH]; cbn [totals.sum]; [lia|].
    destruct (CostKnown e); cbn [totals.indicator]; lia. }
  assert (Hu : 0 <= totals.sum (fun e => totals.indicator (negb (CostKnown e))) l).
  { clear. induction l as [|e l IH]; cbn [totals.sum]; [lia|].
    destruct (CostKnown e); cbn [negb totals.indicator]; lia. }
  pose proof (sum_known_unknown l) as Hs. rewrite sum_ones in *.
  unfold Go.maxInt in Hn.
  rewrite !wrap_small by (unfold Go.is_int, Go.minInt, Go.maxInt; lia). lia.
Qed.

Lemma fold_step_ModelBreakdown (l : list Entry) (s : Summary) :
  ModelBreakdown (fold_left step l s) =
  fold_left (fun mb e => addModel e mb) l (ModelBreakdown s).
Proof. revert s. induction l as [|e l IH]; intros s; simpl; [|rewrite IH]; reflexivity. Qed.

Lemma addModel_bump (e : Entry) (mb : gmap string ModelStats.t) :
  addModel e mb =
  <[Model e := views.bump e (default ModelStats.zero (mb !! Model e))]> mb.
Proof. reflexivity. Qed.

Lemma fold_addModel_lookup (m : string) (l : list Entry) :
  forall mb : gmap string ModelStats.t,
    fold_left (fun mb e => addModel e mb) l mb !! m =
    match views.ofModel m l with
    | [] => mb !! m
    | _ :: _ =>
        Some (fold_left (fun ms e => views.bump e ms) (views.ofModel m l)
                (default ModelStats.zero (mb !! m)))
    end.
Proof.
  induction l as [|e l IH]; intros mb; [reflexivity|].
  cbn [fold_left]. rewrite IH, addModel_bump. unfold views.ofModel.
  rewrite filter_cons. destruct (decide (Model e = m)) as [<-|Hne].
  - rewrite lookup_insert_eq. cbn [default fold_left].
    destruct (filter _ l); reflexivity.
  - rewrite lookup_insert_ne by exact Hne. reflexivity.
Qed.

Lemma fold_bump_Calls (l : list Entry) (ms : ModelStats.t) :
  ModelStats.Calls (fold_left (fun ms e => views.bump e ms) l ms) =
  fold_left (fun a _ => Go.int_add a 1) l (ModelStats.Calls ms).
Proof. revert ms. induction l as [|e l IH]; intros ms; simpl; [|rewrite IH]; reflexivity. Qed.

Lemma fold_bump_InputTokens (l : list Entry) (ms : ModelStats.t) :
  ModelStats.InputTokens (fold_left (fun ms e => views.bump e ms) l ms) =
  fold_left (fun a e => Go.int_add a (InputTokens e)) l (ModelStats.InputTokens ms).
Proof. revert ms. induction l as [|e l IH]; intros ms; simpl; [|rewrite IH]; reflexivity. Qed.

Lemma fold_bump_OutputTokens (l : list Entry) (ms : ModelStats.t) :
  ModelStats.OutputTokens (fold_left (fun ms e => views.bump e ms) l ms) =
  fold_left (fun a e => Go.int_add a (OutputTokens e)) l (ModelStats.OutputTokens ms).
Proof. revert ms. induction l as [|e l IH]; intros ms; simpl; [|rewrite IH]; reflexivity. Qed.

Lemma fold_bump_KnownCostUSD (l : list Entry) (ms : ModelStats.t) :
  ModelStats.KnownCostUSD (fold_left (fun ms e => views.bump e ms) l ms) =
  fold_left Go.f64_add (totals.knownCosts l) (ModelStats.KnownCostUSD ms).
Proof.
  revert ms. induction l as [|e l IH]; intros ms; [reflexivity|].
  cbn [fold_left]. rewrite IH. unfold totals.knownCosts.
  rewrite filter_cons. cbn [views.bump ModelStats.KnownCostUSD].
  destruct (CostKnown e) eqn:Hk.
  - rewrite decide_True by reflexivity. reflexivity.
  - rewrite decide_False by discriminate. reflexivity.
Qed.

(** X2. The row of a model in [ModelBreakdown]: a model has a row exactly
    when the ledger has an entry of it, and the row holds the number of
    those entries, the sums of their tokens (as [int]s) and the sum of their
    known costs, added in the order of the ledger. Entries of unknown cost
    count in the calls and tokens of the row, never in its cost. *)
Theorem Summary_model_breakdown (l : list Entry) (m : string) :
  let s := Aggregator.Summary {| Aggregator.entries := l |} in
  (ModelBreakdown s !! m = None <-> views.ofModel m l = []) /\
  (forall ms : ModelStats.t,
     ModelBreakdown s !! m = Some ms ->
     ModelStats.Calls ms = Go.wrap (Z.of_nat (length (views.ofModel m l))) /\
     ModelStats.InputTokens ms = Go.wrap (totals.sum InputTokens (views.ofModel m l)) /\
     ModelStats.OutputTokens ms = Go.wrap (totals.sum OutputTokens (views.ofModel m l)) /\
     ModelStats.KnownCostUSD ms =
       fold_left Go.f64_add (totals.knownCosts (views.ofModel m l)) Go.f64_zero).
Proof.
  cbv zeta. unfold Aggregator.Summary. cbn [Aggregator.entries].
  rewrite fold_step_ModelBreakdown, fold_addModel_lookup.
  cbn [emptySummary ModelBreakdown]. rewrite lookup_empty. cbn [default].
  split.
  - destruct (views.ofModel m l); split; congruence.
  - intros ms Hms.
    assert (Hfold : ms = fold_left (fun ms e => views.bump e ms) (views.ofModel m l)
                           ModelStats.zero)
      by (destruct (views.ofModel m l); [discriminate | congruence]).
    subst ms. clear Hms.
    rewrite fold_bump_Calls, fold_bump_InputTokens, fold_bump_OutputTokens,
      fold_bump_KnownCostUSD.
    cbn [ModelStats.zero ModelStats.Calls ModelStats.InputTokens
         ModelStats.OutputTokens ModelStats.KnownCostUSD].
    rewrite (fold_wrapped _ (fun _ => 1)), (fold_wrapped _ InputTokens),
      (fold_wrapped _ OutputTokens) by reflexivity.
    rewrite sum_ones. repeat split; reflexivity.
Qed.

Lemma fold_step_UnknownReasons (l : list Entry) (s : Summary) :
  UnknownReasons (fold_left step l s) =
  fold_left
    (fun ur e =>
       if CostKnown e then ur
       else if String.eqb (UnknownReason e) EmptyString then ur
       else incr (UnknownReason e) ur)
    l (UnknownReasons s).
Proof. revert s. induction l as [|e l IH]; intros s; simpl; [|rewrite IH]; reflexivity. Qed.

Lemma fold_incr_lookup (r : string) (l : list Entry) :
  forall ur : gmap string Z,
    fold_left
      (fun ur e =>
         if CostKnown e then ur
         else if String.eqb (UnknownReason e) EmptyString then ur
         else incr (UnknownReason e) ur)
      l ur !! r =
    if decide (r = EmptyString) then ur !! r
    else match views.withReason r l with
         | [] => ur !! r
         | _ :: _ =>
             Some (Go.wrap (default 0 (ur !! r) +
                            Z.of_nat (length (views.withReason r l))))
         end.
Proof.
  induction l as [|e l IH]; intros ur.
  - cbn. destruct (decide (r = EmptyString)); reflexivity.
  - cbn [fold_left]. rewrite IH. unfold views.withReason. rewrite filter_cons.
    destruct (decide (r = EmptyString)) as [->|Hr].
    + destruct (CostKnown e); [reflexivity|].
      destruct (String.eqb_spec (UnknownReason e) EmptyString) as [He|He]; [reflexivity|].
      unfold incr. rewrite lookup_insert_ne by exact He. reflexivity.
    + destruct (CostKnown e) eqn:Hk.
      * rewrite decide_False by (intros [H _]; discriminate H). reflexivity.
      * destruct (String.eqb_spec (UnknownReason e) EmptyString) as [He|He].
        { rewrite decide_False by (intros [_ H]; congruence). reflexivity. }
        destruct (decide (UnknownReason e = r)) as [<-|Hne].
        { rewrite decide_True by (split; reflexivity).
          unfold incr. rewrite lookup_insert_eq. cbn [default length].
          unfold Go.int_add, id.
          destruct (filter _ l) as [|e' l'].
          - cbn [length]. reflexivity.
          - rewrite wrap_add_l. f_equal. f_equal. lia. }
        { rewrite decide_False by (intros [_ H]; congruence).
          unfold incr. rewrite lookup_insert_ne by exact Hne. reflexivity. }
Qed.

(** X3. [UnknownReasons] counts, per reason, the entries of unknown cost
    that give it. The empty reason is never a key: an entry of unknown cost
    with no reason is counted in [UnknownCostCalls] only. *)
Theorem Summary_unknown_reasons (l : list Entry) (r : string) :
  let s := Aggregator.Summary {| Aggregator.entries := l |} in
  UnknownReasons s !! EmptyString = None /\
  (UnknownReasons s !! r = None <-> r = EmptyString \/ views.withReason r l = []) /\
  (forall n : Z,
     UnknownReasons s !! r = Some n ->
     n = Go.wrap (Z.of_nat (length (views.withReason r l)))).
Proof.
  cbv zeta. unfold Aggregator.Summary. cbn [Aggregator.entries].
  rewrite fold_step_UnknownReasons, !fold_incr_lookup.
  cbn [emptySummary UnknownReasons]. rewrite !lookup_empty. cbn [default].
  rewrite decide_True by reflexivity. split; [reflexivity|].
  destruct (decide (r = EmptyString)) as [->|Hr].
  - split; [split; auto | discriminate].
  - destruct (views.withReason r l) as [|e l'] eqn:Hl.
    + split; [split; auto | discriminate].
    + split; [split; [discriminate | intros [H|H]; congruence]|].
      intros n [= <-]. reflexivity.
Qed.

End Breakdown.

(** ** The ledger file over a run *)

Section Writing.
Import ledger.
Variable json_Marshal : Entry -> result string.
Variable clock : string.
Variable file_Write : list string -> string -> option (nat * string).

Local Abbreviation write := (Writer.Write json_Marshal clock file_Write).

Lemma Write_cases (w : Writer.t) (e : Entry) :
  (exists data, json_Marshal (views.stamp clock e) = Ok data /\
     file_Write (Writer.file w) (Writer.line data) = None /\
     write w e = ({| Writer.file := Writer.file w ++ [Writer.line data] |}, None)) \/
  (exists data n err, json_Marshal (views.stamp clock e) = Ok data /\
     file_Write (Writer.file w) (Writer.line data) = Some (n, err) /\
     write w e =
       ({| Writer.file := Writer.file w ++ [Go.first n (Writer.line data)] |}, Some err)) \/
  (exists err, json_Marshal (views.stamp clock e) = Err err /\ write w e = (w, Some err)).
Proof.
  unfold Writer.Write, views.stamp.
  destruct (json_Marshal _) as [data|msg] eqn:Hm.
  - destruct (file_Write _ _) as [[n err]|] eqn:Hw; [right; left|left]; eauto 7.
  - right; right. eauto.
Qed.

Lemma HasPrefix_first (n : nat) (s : string) : Go.HasPrefix s (Go.first n s) = true.
Proof.
  revert s. induction n as [|n IH]; intros [|c s]; try reflexivity.
  cbn [Go.first Go.HasPrefix]. now rewrite Ascii.eqb_refl.
Qed.

(** X4. [Writer.Write] only ever appends to the file. A write that
    succeeds adds one line: the encoding of the entry, its timestamp set
    when it had none, and a line break. A write that fails adds nothing when
    the encoding fails, and otherwise what the file took of the line, a
    prefix of it that may be empty. A timestamp the entry brings is kept. *)
Theorem Write_append_only (w : Writer.t) (e : Entry) :
  let r := write w e in
  (snd r = None ->
   exists data, json_Marshal (views.stamp clock e) = Ok data /\
     Writer.file (fst r) = Writer.file w ++ [data +:+ String "010"%char EmptyString]) /\
  (snd r <> None ->
   (exists err, json_Marshal (views.stamp clock e) = Err err /\ fst r = w) \/
   (exists data part, json_Marshal (views.stamp clock e) = Ok data /\
      Go.HasPrefix (data +:+ String "010"%char EmptyString) part = true /\
      Writer.file (fst r) = Writer.file w ++ [part])) /\
  (exists tail, Writer.file (fst r) = Writer.file w ++ tail /\ (length tail <= 1)%nat) /\
  (Timestamp e <> EmptyString -> views.stamp clock e = e) /\
  (Timestamp e = EmptyString -> Timestamp (views.stamp clock e) = clock).
Proof.
  cbv zeta.
  assert (Hstamp : (Timestamp e <> EmptyString -> views.stamp clock e = e) /\
                   (Timestamp e = EmptyString -> Timestamp (views.stamp clock e) = clock)).
  { unfold views.stamp. split; intros Ht.
    - destruct (String.eqb_spec (Timestamp e) EmptyString); [contradiction|reflexivity].
    - rewrite Ht. reflexivity. }
  destruct (Write_cases w e)
    as [(data & Hm & _ & ->)|[(data & n & err & Hm & _ & ->)|(err & Hm & ->)]];
    cbn [fst snd Writer.file].
  - split; [eauto|]. split; [congruence|].
    split; [eexists; split; [reflexivity|cbn; lia]|exact Hstamp].
  - split; [discriminate|].
    split; [intros _; right; exists data, (Go.first n (Writer.line data));
            repeat split; [exact Hm|apply HasPrefix_first]|].
    split; [eexists; split; [reflexivity|cbn; lia]|exact Hstamp].
  - split; [discriminate|]. split; [intros _; left; eauto|].
    split; [exists []; split; [now rewrite app_nil_r|cbn; lia]|exact Hstamp].
Qed.

End Writing.

Section Run.
Variable unicodePrint : Z -> bool.
Variable json_Marshal : ledger.Entry -> result string.
Variable clock : string.
Variable file_Write : list string -> string -> option (nat * string).
Variable prices : pricing.Prices.

Local Abbreviation entries st := (ledger.Aggregator.entries (scan.agg st)).
Local Abbreviation lines st := (ledger.Writer.file (scan.writer st)).
Local Abbreviation on := (scan.OnEntry unicodePrint json_Marshal clock file_Write prices).
Local Abbreviation price := (scan.price unicodePrint prices).
Local Abbreviation warning err := ("Warning: failed to write ledger entry: " +:+ err).

Lemma OnEntry_cases (e : ledger.Entry) (st : scan.Run) :
  entries (on e st) = entries st ++ [price e] /\
  ((exists data,
      json_Marshal (views.stamp clock (price e)) = Ok data /\
      lines (on e st) = lines st ++ [ledger.Writer.line data] /\
      scan.stderr (on e st) = scan.stderr st) \/
   (exists part err,
      lines (on e st) = lines st ++ [part] /\
      scan.stderr (on e st) = scan.stderr st ++ [warning err]) \/
   (exists err,
      lines (on e st) = lines st /\
      scan.stderr (on e st) = scan.stderr st ++ [warning err])).
Proof.
  unfold scan.OnEntry.
  destruct (Write_cases json_Marshal clock file_Write (scan.writer st) (price e))
    as [(data & Hm & _ & ->)|[(data & n & err & _ & _ & ->)|(err & _ & ->)]]; cbn.
  - split; [reflexivity|]. left. exists data. repeat split; assumption.
  - split; [reflexivity|]. right; left. eauto.
  - split; [reflexivity|]. right; right. eauto.
Qed.

(** X5. Over a run of the callback every entry reaches the aggregator,
    priced, in the order of arrival, whether its write succeeds or not. The
    ledger file is only extended, by at most one write per entry; there is
    at most one warning per entry on standard error; and every entry leaves
    a write in the file or a warning (both, when its write breaks off). *)
Theorem OnEntries_accounts (l : list ledger.Entry) (st : scan.Run) :
  let st' := run.OnEntries unicodePrint json_Marshal clock file_Write prices l st in
  entries st' = entries st ++ map price l /\
  exists tail warnings,
    lines st' = lines st ++ tail /\
    scan.stderr st' = scan.stderr st ++ warnings /\
    (length tail <= length l)%nat /\
    (length warnings <= length l)%nat /\
    (length l <= length tail + length warnings)%nat.
Proof.
  cbv zeta. revert st. induction l as [|e l IH]; intros st.
  - cbn. rewrite app_nil_r. split; [reflexivity|].
    exists [], []. rewrite !app_nil_r. repeat split; cbn; lia.
  - unfold run.OnEntries in *. cbn [fold_left].
    destruct (IH (on e st)) as (Ha & tail & ws & Ht & Hw & H1 & H2 & H3).
    destruct (OnEntry_cases e st) as [He Hc].
    rewrite Ha, He, Ht, Hw, <- app_assoc. cbn [map app].
    split; [reflexivity|].
    destruct Hc as [(data & _ & Hl & Hs)|[(part & err & Hl & Hs)|(err & Hl & Hs)]];
      rewrite Hl, Hs, <- ?app_assoc.
    + exists (ledger.Writer.line data :: tail), ws. repeat split; cbn; lia.
    + exists (part :: tail), (warning err :: ws). repeat split; cbn; lia.
    + exists tail, (warning err :: ws). repeat split; cbn; lia.
Qed.


(** X7. Pricing touches the cost fields only: timestamp, provider,
    endpoint, model, token counts, raw usage, request id and streaming flag
    are kept; an entry of unknown cost never becomes one of known cost; and
    pricing an entry twice is pricing it once. *)
Theorem price_frame (e : ledger.Entry) :
  let e' := price e in
  ledger.Timestamp e' = ledger.Timestamp e /\
  ledger.Provider e' = ledger.Provider e /\
  ledger.Endpoint e' = ledger.Endpoint e /\
  ledger.Model e' = ledger.Model e /\
  ledger.InputTokens e' = ledger.InputTokens e /\
  ledger.OutputTokens e' = ledger.OutputTokens e /\
  ledger.RawUsage e' = ledger.RawUsage e /\
  ledger.RequestID e' = ledger.RequestID e /\
  ledger.Streaming e' = ledger.Streaming e /\
  (ledger.CostKnown e' = true -> ledger.CostKnown e = true) /\
  price e' = e'.
Proof.
  cbv zeta. unfold scan.price.
  destruct (ledger.CostKnown e) eqn:Hk; cbn [andb];
    [|rewrite Hk; cbn [andb]; repeat split; congruence].
  destruct (String.eqb (ledger.Model e) EmptyString) eqn:Hm; cbn [negb];
    [rewrite Hk, Hm; cbn; repeat split; congruence|].
  destruct (json.get (pricing.Models prices) (ledger.Model e)) as [mp|] eqn:Hg.
  - rewrite (ComputeCost_present _ _ _ _ _ _ Hg). cbn [pricing.Known pricing.CostUSD].
    cbn. rewrite Hk, Hm. cbn. rewrite (ComputeCost_present _ _ _ _ _ _ Hg). cbn.
    repeat split; congruence.
  - rewrite (ComputeCost_absent _ _ _ _ _ Hg). cbn [pricing.Known pricing.UnknownReason].
    cbn. repeat split; congruence.
Qed.

End Run.

(** ** More of the price table and of the proxy *)

Section MorePricing.
Import pricing.
Variable unicodePrint : Z -> bool.

(** X8. [StaleWarning] is empty exactly when the table's date parses and
    lies at most 60 days before now; a date that does not parse always
    warns. The warning, when there is one, quotes the table's [as_of]. *)
Theorem StaleWarning_spec (now : Go.Time) (p : Prices) :
  (Go.ParseDate (AsOf p) = None -> StaleWarning now p <> EmptyString) /\
  (forall asOf : Go.Time,
     Go.ParseDate (AsOf p) = Some asOf ->
     (StaleWarning now p = EmptyString <-> now - asOf <= 60 * 24 * Go.Hour)) /\
  (StaleWarning now p <> EmptyString ->
   StaleWarning now p = "Pricing table may be stale (as_of: " +:+ AsOf p +:+ ")" /\
   Go.Contains (StaleWarning now p) (AsOf p) = true).
Proof.
  unfold StaleWarning. split; [|split].
  - intros H. rewrite (IsStale_unparsed _ _ _ H). discriminate.
  - intros asOf H. rewrite (IsStale_parsed _ _ _ _ H), Since_clamped.
    assert (Hh : 60 * 24 * Go.Hour = 5184000000000000) by reflexivity.
    assert (Hmax : Go.maxDuration = 9223372036854775807) by reflexivity.
    assert (Hmin : Go.minDuration = -9223372036854775808) by reflexivity.
    rewrite Hh, Hmax, Hmin.
    destruct (Z.ltb_spec 9223372036854775807 (now - asOf)).
    + cbn. split; [discriminate | lia].
    + destruct (Z.ltb_spec (now - asOf) (-9223372036854775808)).
      * cbn. split; [lia | reflexivity].
      * destruct (Z.ltb_spec 5184000000000000 (now - asOf)); split;
          try discriminate; try reflexivity; lia.
  - destruct (IsStale now p _); [|congruence]. intros _. split; [reflexivity|].
    apply (Contains_middle "Pricing table may be stale (as_of: " (AsOf p) ")").
Qed.

(** X9. A call with no tokens of a model the table knows, at finite rates,
    costs nothing, and its cost is known. *)
Theorem ComputeCost_no_tokens (p : Prices) (model : string) (mp : ModelPrice) :
  json.get (Models p) model = Some mp ->
  views.finite (InputPer1K mp) = true ->
  views.finite (OutputPer1K mp) = true ->
  Known (ComputeCost unicodePrint p model 0 0) = true /\
  Go.f64_eqb (CostUSD (ComputeCost unicodePrint p model 0 0)) Go.f64_zero = true.
Proof.
  intros Hm Hi Ho. rewrite (ComputeCost_present _ _ _ _ _ _ Hm).
  cbn [Known CostUSD]. split; [reflexivity|]. rewrite lit_1000.
  destruct (InputPer1K mp) as [[|]|[|]| |[|] mi ei]; try discriminate;
    destruct (OutputPer1K mp) as [[|]|[|]| |[|] mo eo]; try discriminate; reflexivity.
Qed.

Variable os_ReadFile : string -> result string.
Variable json_Unmarshal : string -> result Prices.

(** X10. A table that [Load] returns is the decoded file: same [as_of],
    same price for every model, hence the same cost for every call; its
    [Models] map is never [nil]. *)
Theorem Load_preserves_prices (path : string) (p : Prices) :
  Load os_ReadFile json_Unmarshal path = Ok p ->
  exists (data : string) (p0 : Prices),
    os_ReadFile path = Ok data /\
    json_Unmarshal data = Ok p0 /\
    AsOf p = AsOf p0 /\
    Models p <> None /\
    (forall model, json.get (Models p) model = json.get (Models p0) model) /\
    (forall model i o,
       ComputeCost unicodePrint p model i o = ComputeCost unicodePrint p0 model i o).
Proof.
  unfold Load. destruct (os_ReadFile path) as [data|e] eqn:Hr; [|discriminate].
  destruct (json_Unmarshal data) as [p0|e] eqn:Hu; [|discriminate].
  intros H. exists data, p0. split; [reflexivity|]. split; [exact Hu|].
  destruct (Models p0) as [m|] eqn:Hm; injection H as <-.
  - split; [reflexivity|]. split; [rewrite Hm; discriminate|].
    split; intros; rewrite ?Hm; reflexivity.
  - cbn [AsOf Models]. split; [reflexivity|]. split; [discriminate|].
    split; intros model.
    + cbn. apply lookup_empty.
    + intros i o. unfold ComputeCost. cbn [Models]. rewrite ?Hm.
      cbn [json.get]. rewrite lookup_empty. reflexivity.
Qed.

End MorePricing.

Section MoreProxy.
Import proxy.
Context {St : Type}.
Variable openai_ParseResponse : string -> ledger.Entry -> ledger.Entry.
Variable anthropic_ParseResponse : string -> ledger.Entry -> ledger.Entry.
Variable openrouter_ParseResponse : string -> ledger.Entry -> ledger.Entry.
Variable config : @Config St.
Variable parseChunk : string -> string -> option Usage * string.
Variable moreComplete : Usage -> Usage -> Usage.
Variable client : option nat.

Local Abbreviation handle :=
  (handleResponse openai_ParseResponse anthropic_ParseResponse
     openrouter_ParseResponse config).
Local Abbreviation answer :=
  (respond openai_ParseResponse anthropic_ParseResponse
     openrouter_ParseResponse config parseChunk moreComplete client).
Local Abbreviation parse :=
  (parseUsage openai_ParseResponse anthropic_ParseResponse openrouter_ParseResponse).

Lemma providerTargets_supported (provider base : string) :
  providerTargets !! provider = Some base ->
  (provider = "openai" /\ base = "https://api.openai.com") \/
  (provider = "anthropic" /\ base = "https://api.anthropic.com") \/
  (provider = "openrouter" /\ base = "https://openrouter.ai").
Proof.
  unfold providerTargets. intros H.
  apply lookup_insert_Some in H as [[<- <-]|[_ H]]; [auto|].
  apply lookup_insert_Some in H as [[<- <-]|[_ H]]; [auto|].
  apply lookup_insert_Some in H as [[<- <-]|[_ H]]; [auto|].
  rewrite lookup_empty in H. discriminate.
Qed.

(** X11. [parseUsage] hands the body to the parser of the provider, for
    each provider [ServeHTTP] routes; for any other provider the entry is of
    unknown cost with the reason "unsupported provider", and satisfies the
    ledger's invariant. *)
Theorem parseUsage_supported (provider base endpoint body : string) :
  (providerTargets !! provider = Some base ->
   parse provider endpoint body =
     (if String.eqb provider "openai" then openai_ParseResponse
      else if String.eqb provider "anthropic" then anthropic_ParseResponse
      else openrouter_ParseResponse) body (ledger.newEntry provider endpoint false)) /\
  (providerTargets !! provider = None ->
   parse provider endpoint body =
     ledger.set_unknown "unsupported provider" (ledger.newEntry provider endpoint false) /\
   ledger.invariant (parse provider endpoint body)).
Proof.
  split.
  - intros H. apply providerTargets_supported in H as [[-> _]|[[-> _]|[-> _]]]; reflexivity.
  - intros H. unfold parseUsage.
    destruct (String.eqb_spec provider "openai") as [->|_]; [discriminate H|].
    destruct (String.eqb_spec provider "anthropic") as [->|_]; [discriminate H|].
    destruct (String.eqb_spec provider "openrouter") as [->|_]; [discriminate H|].
    split; [reflexivity|]. split; cbn; [discriminate | intros _; discriminate].
Qed.




(** X13. A 2xx JSON response whose body can be read is recorded once, by
    the provider's parser, and handed on whole: the body is replaced by a
    reader over the bytes read, the content length is their number, the
    status is kept, and a client that takes everything gets exactly those
    bytes. *)
Theorem handleResponse_buffered (provider endpoint body : string)
    (resp : Response.t Stream) (s : St) :
  200 <= Response.StatusCode resp < 300 ->
  Go.Contains (Response.ContentType resp) "text/event-stream" = false ->
  Go.Contains (Response.ContentType resp) "application/json" = true ->
  ReadAll (Response.Body resp) = Ok body ->
  let r := handle provider endpoint resp s in
  Response.Body (fst r) = Plain (NopCloser body) /\
  Response.ContentLength (fst r) = Go.len body /\
  Response.StatusCode (fst r) = Response.StatusCode resp /\
  snd r = match OnEntry config with
          | Some f => f (parse provider endpoint body) s
          | None => s
          end /\
  (client = None ->
   fst (answer provider endpoint resp s) = Replied (Response.StatusCode resp) [body]).
Proof.
  intros Hst Hs Hj Hr. cbv zeta.
  assert (Hh : handle provider endpoint resp s =
    (Response.set_Body (Plain (NopCloser body)) (Go.len body) resp,
     match OnEntry config with
     | Some f => f (parse provider endpoint body) s
     | None => s
     end)).
  { unfold handleResponse. rewrite Hs, Hj, Hr. cbn [negb].
    destruct (Z.ltb_spec (Response.StatusCode resp) 200); [lia|].
    destruct (Z.leb_spec 300 (Response.StatusCode resp)); [lia|].
    cbn [orb]. destruct (OnEntry config); reflexivity. }
  rewrite Hh. cbn [fst snd]. repeat split.
  intros ->. unfold respond. rewrite Hh. reflexivity.
Qed.

(** X14. [handleResponse] never changes the status or the content type of
    a response; it records nothing when no callback is configured, and
    nothing at the time of the call for an event stream (the interceptor
    records when the stream ends). *)
Theorem handleResponse_frame (provider endpoint : string)
    (resp : Response.t Stream) (s : St) :
  let r := handle provider endpoint resp s in
  Response.StatusCode (fst r) = Response.StatusCode resp /\
  Response.ContentType (fst r) = Response.ContentType resp /\
  (OnEntry config = None -> snd r = s) /\
  (Go.Contains (Response.ContentType resp) "text/event-stream" = true -> snd r = s).
Proof.
  cbv zeta. unfold handleResponse.
  destruct (_ || _); [repeat split|].
  destruct (Go.Contains _ "text/event-stream"); [repeat split|].
  destruct (negb _); [repeat split; discriminate|].
  destruct (ReadAll _); [|repeat split; discriminate].
  destruct (OnEntry config) eqn:Ho; repeat split; discriminate.
Qed.

End MoreProxy.

Section MoreMutator.
Import proxy.
Variable json_Unmarshal : string -> result json.object.
Variable json_Marshal : json.object -> result string.

(** X15. Adding [stream_options] to a payload is idempotent, keeps every
    other field, leaves a payload that has the field as it is, and leaves
    the [nil] map of a JSON [null] as it is. *)
Theorem withStreamOptions_idempotent (payload : json.object) :
  withStreamOptions (withStreamOptions payload) = withStreamOptions payload /\
  (forall k : string, k <> "stream_options" ->
     json.get (withStreamOptions payload) k = json.get payload k) /\
  (forall v, json.get payload "stream_options" = Some v ->
     withStreamOptions payload = payload) /\
  (payload = None -> withStreamOptions payload = None).
Proof.
  split; [|split; [|split]].
  - destruct (withStreamOptions_cases payload) as [(m & -> & Hs & Ho & ->)|H].
    + unfold withStreamOptions.
      rewrite lookup_insert_ne by discriminate. rewrite Hs, lookup_insert_eq. reflexivity.
    + now rewrite !H.
  - intros k Hk.
    destruct (withStreamOptions_cases payload) as [(m & -> & Hs & Ho & ->)|H].
    + cbn [json.get]. now rewrite lookup_insert_ne by congruence.
    + now rewrite H.
  - intros v Hv.
    destruct (withStreamOptions_cases payload) as [(m & -> & Hs & Ho & _)|H]; [|exact H].
    cbn [json.get] in Hv. congruence.
  - intros ->. reflexivity.
Qed.

(** X16. [injectStreamOptions] returns a request with no body, or of
    content length 0, as it is; it never changes method, path or headers.
    When reading the body fails, the request goes on with its body consumed
    and its declared length unchanged. *)
Theorem injectStreamOptions_untouched (r : Request.t) :
  (Request.Body r = None \/ Request.ContentLength r = 0 ->
   injectStreamOptions json_Unmarshal json_Marshal r = r) /\
  (forall b, Request.Body r = Some b -> Request.ContentLength r <> 0 ->
     fails b = true ->
     Request.Body (injectStreamOptions json_Unmarshal json_Marshal r) = Some consumed /\
     Request.ContentLength (injectStreamOptions json_Unmarshal json_Marshal r) =
       Request.ContentLength r) /\
  Request.Method (injectStreamOptions json_Unmarshal json_Marshal r) = Request.Method r /\
  Request.Path (injectStreamOptions json_Unmarshal json_Marshal r) = Request.Path r /\
  Request.Header (injectStreamOptions json_Unmarshal json_Marshal r) = Request.Header r.
Proof.
  unfold injectStreamOptions. split; [|split].
  - intros [H|H].
    + now rewrite H.
    + destruct (Request.Body r); [|reflexivity].
      now rewrite H.
  - intros b Hb Hz Hf. rewrite Hb.
    destruct (Z.eqb_spec (Request.ContentLength r) 0); [contradiction|].
    unfold ReadAll. rewrite Hf. split; reflexivity.
  - destruct (Request.Body r) as [b|]; [|repeat split].
    destruct (_ =? 0); [repeat split|].
    destruct (ReadAll b); [|repeat split].
    destruct (json_Unmarshal _); [|repeat split].
    destruct (json_Marshal _); repeat split.
Qed.

End MoreMutator.

(** ** Routing, the life of a server, and the command line *)

Section Routing.
Import proxy.
Context {St : Type}.
Variable openai_ParseResponse : string -> ledger.Entry -> ledger.Entry.
Variable anthropic_ParseResponse : string -> ledger.Entry -> ledger.Entry.
Variable openrouter_ParseResponse : string -> ledger.Entry -> ledger.Entry.
Variable config : @Config St.
Variable parseChunk : string -> string -> option Usage * string.
Variable moreComplete : Usage -> Usage -> Usage.
Variable json_Unmarshal : string -> result json.object.
Variable json_Marshal : json.object -> result string.
Variable url_Parse : string -> result URL.
Variable env : string -> string.
Variable transport : Outbound -> result (Response.t Stream).
Variable client : option nat.

Local Abbreviation answer :=
  (respond openai_ParseResponse anthropic_ParseResponse
     openrouter_ParseResponse config parseChunk moreComplete client).
Local Abbreviation serve :=
  (ServeHTTP openai_ParseResponse anthropic_ParseResponse
     openrouter_ParseResponse config parseChunk moreComplete json_Unmarshal
     json_Marshal url_Parse env transport client).
Local Abbreviation outbound u r :=
  {| Target := u; TargetPath := routes.targetPath (Request.Path r);
     Forwarded := routes.forwarded json_Unmarshal json_Marshal config
                    (firstSegment (Request.Path r)) r |}.

Lemma ServeHTTP_routed (r : Request.t) (s : St) (base : string) :
  providerTargets !! firstSegment (Request.Path r) = Some base ->
  serve r s =
    match routes.resolveTarget url_Parse env (firstSegment (Request.Path r)) base with
    | None => (Aborted, s)
    | Some u =>
        match transport (outbound u r) with
        | Err err => (http_Error ("proxy error: " +:+ err) StatusBadGateway, s)
        | Ok resp =>
            answer (firstSegment (Request.Path r)) (routes.targetPath (Request.Path r)) resp s
        end
    end.
Proof.
  unfold ServeHTTP, firstSegment, routes.targetPath, routes.resolveTarget,
    routes.forwarded, routes.envParam.
  destruct (SplitN2_cons (Go.TrimPrefix (Request.Path r) "/") "/"%char)
    as (provider & more & Hs).
  rewrite Hs. cbn [hd]. intros ->.
  destruct more; reflexivity.
Qed.

Lemma SplitN2_segment (p rest : string) :
  routes.noSlash p = true ->
  Go.SplitN2 (p +:+ String "/"%char rest) "/"%char = [p; rest].
Proof.
  induction p as [|c p IH]; intros H; [reflexivity|].
  cbn [routes.noSlash] in H. apply andb_true_iff in H as [Hc Hp].
  rewrite append_cons. cbn [Go.SplitN2].
  destruct (Ascii.eqb c "/"%char); [discriminate|].
  now rewrite (IH Hp).
Qed.

Lemma SplitN2_single (p : string) :
  routes.noSlash p = true -> Go.SplitN2 p "/"%char = [p].
Proof.
  induction p as [|c p IH]; intros H; [reflexivity|].
  cbn [routes.noSlash] in H. apply andb_true_iff in H as [Hc Hp].
  cbn [Go.SplitN2]. destruct (Ascii.eqb c "/"%char); [discriminate|].
  now rewrite (IH Hp).
Qed.

Lemma supported_noSlash (p base : string) :
  providerTargets !! p = Some base -> routes.noSlash p = true.
Proof.
  intros H. apply providerTargets_supported in H as [[-> _]|[[-> _]|[-> _]]]; reflexivity.
Qed.


Lemma TrimPrefix_slash (x : string) : Go.TrimPrefix ("/" +:+ x) "/" = x.
Proof. reflexivity. Qed.

(** X17. A request to [/<provider>/<rest>], for a provider of the table,
    is forwarded with the path [/<rest>]: the provider's segment is
    stripped, whatever follows it is kept, further slashes included. The
    upstream is the resolved target; a failure of the transport is answered
    with 502 and records nothing; a response goes through
    [handleResponse]. *)
Theorem ServeHTTP_forwards (r : Request.t) (s : St) (p base rest : string) :
  providerTargets !! p = Some base ->
  Request.Path r = "/" +:+ p +:+ "/" +:+ rest ->
  firstSegment (Request.Path r) = p /\
  routes.targetPath (Request.Path r) = "/" +:+ rest /\
  serve r s =
    match routes.resolveTarget url_Parse env p base with
    | None => (Aborted, s)
    | Some u =>
        match transport {| Target := u; TargetPath := "/" +:+ rest;
                           Forwarded := routes.forwarded json_Unmarshal json_Marshal config p r |} with
        | Err err => (http_Error ("proxy error: " +:+ err) StatusBadGateway, s)
        | Ok resp => answer p ("/" +:+ rest) resp s
        end
    end.
Proof.
  intros Hp Hpath.
  assert (Hseg : firstSegment (Request.Path r) = p).
  { unfold firstSegment. rewrite Hpath, TrimPrefix_slash.
    change ("/" +:+ rest) with (String "/"%char rest).
    now rewrite (SplitN2_segment p rest (supported_noSlash p base Hp)). }
  assert (Htp : routes.targetPath (Request.Path r) = "/" +:+ rest).
  { unfold routes.targetPath. rewrite Hpath, TrimPrefix_slash.
    change ("/" +:+ rest) with (String "/"%char rest).
    now rewrite (SplitN2_segment p rest (supported_noSlash p base Hp)). }
  split; [exact Hseg|]. split; [exact Htp|].
  rewrite (ServeHTTP_routed r s base) by now rewrite Hseg.
  now rewrite Hseg, Htp.
Qed.

(** X18. When the upstream cannot be reached, a request to a provider of
    the table records nothing, and the client gets 502 with the transport's
    error (or no answer at all, when no upstream URL could be parsed). *)
Theorem ServeHTTP_bad_gateway (r : Request.t) (s : St) (base err : string) :
  providerTargets !! firstSegment (Request.Path r) = Some base ->
  (forall o, transport o = Err err) ->
  snd (serve r s) = s /\
  (fst (serve r s) = Aborted \/
   fst (serve r s) = http_Error ("proxy error: " +:+ err) StatusBadGateway).
Proof.
  intros Hp Ht. rewrite (ServeHTTP_routed r s base Hp).
  destruct (routes.resolveTarget _ _ _ _) as [u|]; [|split; [reflexivity|now left]].
  rewrite Ht. split; [reflexivity|now right].
Qed.

End Routing.

Section RoutingFrame.
Import proxy.
Context {St : Type}.
Variable openai_ParseResponse : string -> ledger.Entry -> ledger.Entry.
Variable anthropic_ParseResponse : string -> ledger.Entry -> ledger.Entry.
Variable openrouter_ParseResponse : string -> ledger.Entry -> ledger.Entry.
Variable parseChunk : string -> string -> option Usage * string.
Variable moreComplete : Usage -> Usage -> Usage.
Variable json_Unmarshal : string -> result json.object.
Variable json_Marshal : json.object -> result string.
Variable url_Parse : string -> result URL.
Variable env : string -> string.
Variable transport : Outbound -> result (Response.t Stream).
Variable client : option nat.

(** X19. [ServeHTTP] never consults [Config.Providers]: two configurations
    with the same callback answer a request alike, whatever their provider
    lists; the injection flag matters for requests to [openai] only. *)
Theorem ServeHTTP_ignores_Providers (config config' : @Config St)
    (r : Request.t) (s : St) :
  OnEntry config = OnEntry config' ->
  (firstSegment (Request.Path r) = "openai" ->
   StreamUsageInjection config = StreamUsageInjection config') ->
  ServeHTTP openai_ParseResponse anthropic_ParseResponse
    openrouter_ParseResponse config parseChunk moreComplete json_Unmarshal
    json_Marshal url_Parse env transport client r s =
  ServeHTTP openai_ParseResponse anthropic_ParseResponse
    openrouter_ParseResponse config' parseChunk moreComplete json_Unmarshal
    json_Marshal url_Parse env transport client r s.
Proof.
  destruct config as [ps f b], config' as [ps' f' b'].
  cbn [OnEntry StreamUsageInjection]. intros <- Hb.
  unfold ServeHTTP, firstSegment in *.
  destruct (Go.SplitN2 _ _) as [|provider more]; [reflexivity|].
  cbn [hd] in Hb.
  destruct (providerTargets !! provider); [|reflexivity].
  cbn [StreamUsageInjection].
  assert (Hr : (if b && String.eqb provider "openai"
                then injectStreamOptions json_Unmarshal json_Marshal r else r) =
               (if b' && String.eqb provider "openai"
                then injectStreamOptions json_Unmarshal json_Marshal r else r)).
  { destruct (String.eqb_spec provider "openai") as [->|_].
    - now rewrite (Hb eq_refl).
    - now rewrite !andb_false_r. }
  rewrite Hr. reflexivity.
Qed.
End RoutingFrame.

Section RunCmdFacts.
Import proxy.
Variable openai_ParseResponse : string -> ledger.Entry -> ledger.Entry.
Variable anthropic_ParseResponse : string -> ledger.Entry -> ledger.Entry.
Variable openrouter_ParseResponse : string -> ledger.Entry -> ledger.Entry.
Variable parseChunk : string -> string -> option Usage * string.
Variable moreComplete : Usage -> Usage -> Usage.
Variable json_Unmarshal : string -> result json.object.
Variable json_Marshal : json.object -> result string.
Variable url_Parse : string -> result URL.
Variable env : string -> string.
Variable transport : Outbound -> result (Response.t Stream).
Variable client : option nat.
Variable unicodePrint : Z -> bool.
Variable encode : ledger.Entry -> result string.
Variable clock : string.
Variable file_Write : list string -> string -> option (nat * string).
Variable prices : pricing.Prices.

(** X21. Under the configuration [runCmd] builds, a request to a provider
    of the table reaches the transport as the client sent it, whatever the
    value of [--enable-openai-stream-usage-injection]: the flag is parsed
    and never handed to the proxy. *)
Theorem runCmd_never_injects (providers : list string) (enableInjection : bool)
    (r : Request.t) (s : scan.Run) (base : string) :
  providerTargets !! firstSegment (Request.Path r) = Some base ->
  let config :=
    cli.proxyConfig unicodePrint encode clock file_Write prices providers enableInjection in
  ServeHTTP openai_ParseResponse anthropic_ParseResponse
    openrouter_ParseResponse config parseChunk moreComplete json_Unmarshal
    json_Marshal url_Parse env transport client r s =
  match routes.resolveTarget url_Parse env (firstSegment (Request.Path r)) base with
  | None => (Aborted, s)
  | Some u =>
      match transport {| Target := u; TargetPath := routes.targetPath (Request.Path r);
                         Forwarded := r |} with
      | Err err => (http_Error ("proxy error: " +:+ err) StatusBadGateway, s)
      | Ok resp =>
          respond openai_ParseResponse anthropic_ParseResponse
            openrouter_ParseResponse config parseChunk moreComplete client
            (firstSegment (Request.Path r)) (routes.targetPath (Request.Path r)) resp s
      end
  end.
Proof.
  intros Hp. cbv zeta.
  exact (ServeHTTP_routed openai_ParseResponse anthropic_ParseResponse
           openrouter_ParseResponse _ parseChunk moreComplete json_Unmarshal
           json_Marshal url_Parse env transport client r s base Hp).
Qed.
End RunCmdFacts.



Section Override.
Variable url_Parse : string -> result proxy.URL.
Variable env : string -> string.

End Override.

Section Lifecycle.
Import lifecycle.

(** X22. A server that is not started and gets a port: [Start] returns the
    port and [Port] reports it; a second [Start] is refused; [Stop] returns
    what closing the HTTP server returns, a second [Stop] does nothing; and
    [Port] still reports the port after [Stop], since the listener is never
    cleared. A [Start] whose listen fails leaves the server not started,
    with [Port] 0. *)
Theorem Server_lifecycle (s : Server) (port : Z) (listen : result Z)
    (close close' : option string) (e : string) :
  started s = false ->
  let s1 := fst (Start (Ok port) s) in
  let s2 := fst (Stop close s1) in
  (snd (Start (Ok port) s) = Ok port /\ Port s1 = port /\
   Start listen s1 = (s1, Err "server already started")) /\
  (snd (Stop close s1) = close /\ Port s2 = port /\
   Stop close' s2 = (s2, None)) /\
  (Start (Err e) s =
     ({| listener := None; started := false |}, Err ("listen: " +:+ e)) /\
   Port (fst (Start (Err e) s)) = 0 /\
   Stop close (fst (Start (Err e) s)) = (fst (Start (Err e) s), None)).
Proof.
  intros H. unfold Start, Stop, Port. rewrite H. cbn. repeat split.
Qed.
End Lifecycle.

Section CliFacts.
Variable os_Executable : string.
Variable filepath_Dir : string -> string.
Variable filepath_Join : list string -> string.
Variable os_Stat : string -> bool.
Variable os_ReadFile : string -> result string.
Variable json_Unmarshal : string -> result pricing.Prices.

Local Abbreviation firstExisting := (cli.firstExisting os_Stat).
Local Abbreviation candidates := (cli.candidates os_Executable filepath_Dir filepath_Join).
Local Abbreviation loadPricing :=
  (cli.loadPricing os_Executable filepath_Dir filepath_Join os_Stat os_ReadFile json_Unmarshal).

Lemma firstExisting_none (cs : list string) :
  Forall (fun c => os_Stat c = false) cs -> firstExisting cs = EmptyString.
Proof.
  induction 1 as [|c cs Hc _ IH]; [reflexivity|]. cbn. now rewrite Hc.
Qed.

Lemma firstExisting_first (before after : list string) (c : string) :
  Forall (fun c => os_Stat c = false) before -> os_Stat c = true ->
  firstExisting (before ++ c :: after) = c.
Proof.
  induction 1 as [|b before Hb _ IH]; intros Hc; cbn.
  - now rewrite Hc.
  - rewrite Hb. now apply IH.
Qed.

(** X23. Where the price table comes from: a custom path is used as it is,
    with no look at the bundled tables; with none, the first candidate that
    exists is loaded, in the order next to the executable, one directory up,
    the working directory; when none exists, the error is "pricing file not
    found". *)
Theorem loadPricing_search (customPath : string) :
  (customPath <> EmptyString ->
   loadPricing customPath = pricing.Load os_ReadFile json_Unmarshal customPath) /\
  (Forall (fun c => os_Stat c = false) candidates ->
   loadPricing EmptyString = Err "pricing file not found") /\
  (forall before c after,
     candidates = before ++ c :: after ->
     Forall (fun c => os_Stat c = false) before -> os_Stat c = true ->
     loadPricing EmptyString =
       if String.eqb c EmptyString then Err "pricing file not found"
       else pricing.Load os_ReadFile json_Unmarshal c).
Proof.
  unfold cli.loadPricing. repeat split.
  - intros H. apply String.eqb_neq in H. now rewrite !H.
  - intros H. cbn [String.eqb]. now rewrite (firstExisting_none _ H).
  - intros before c after Hc Hb Hs. cbn [String.eqb].
    now rewrite Hc, (firstExisting_first _ _ _ Hb Hs).
Qed.
End CliFacts.

Section VerdictFacts.
Variable format4 : Go.float64 -> string.
Variable unicodePrint : Z -> bool.

Lemma f64_ltb_zero_asym (x : Go.float64) :
  Go.f64_ltb Go.f64_zero x = true -> Go.f64_ltb x Go.f64_zero = false.
Proof. destruct x as [[]| []| |[] m e]; cbn; congruence. Qed.

Lemma knownCosts_unknown (l : list ledger.Entry) :
  Forall (fun e => ledger.CostKnown e = false) l -> totals.knownCosts l = [].
Proof.
  unfold totals.knownCosts. induction 1 as [|e l He _ IH]; [reflexivity|].
  rewrite filter_cons. destruct (decide _) as [Hk|_]; [congruence|exact IH].
Qed.

(** X24. The end of a run, from its ledger: with a positive threshold that
    the sum of the known costs, added in the order of the ledger, exceeds,
    the run fails for the threshold, whether the command failed or not;
    otherwise (threshold zero, negative or NaN, or a sum that is not above
    it) the run fails exactly when the command did. *)
Theorem verdict_threshold (failOnCost : Go.float64) (cmdErr : option string)
    (l : list ledger.Entry) :
  let summary := ledger.Aggregator.Summary {| ledger.Aggregator.entries := l |} in
  let total := fold_left Go.f64_add (totals.knownCosts l) Go.f64_zero in
  cli.verdict format4 failOnCost (ledger.TotalKnownCostUSD summary) cmdErr =
    if Go.f64_ltb Go.f64_zero failOnCost && Go.f64_ltb failOnCost total
    then Some ("cost threshold exceeded: $" +:+ format4 total +:+ " > $"
               +:+ format4 failOnCost)
    else cli.commandOnly cmdErr.
Proof.
  cbv zeta. destruct (Summary_totals l) as (_ & _ & _ & _ & _ & ->).
  reflexivity.
Qed.

(** X25. Calls of unknown cost never trip the threshold: a ledger with no
    call of known cost fails a run only through its command, whatever the
    threshold. *)
Theorem verdict_unknown_costs (failOnCost : Go.float64) (cmdErr : option string)
    (l : list ledger.Entry) :
  Forall (fun e => ledger.CostKnown e = false) l ->
  cli.verdict format4 failOnCost
    (ledger.TotalKnownCostUSD (ledger.Aggregator.Summary
       {| ledger.Aggregator.entries := l |})) cmdErr = cli.commandOnly cmdErr.
Proof.
  intros H.
  destruct (Summary_totals l) as (_ & _ & _ & _ & _ & ->).
  rewrite (knownCosts_unknown l H). cbn [fold_left].
  unfold cli.verdict.
  destruct (Go.f64_ltb Go.f64_zero failOnCost) eqn:Hpos; [|reflexivity].
  now rewrite (f64_ltb_zero_asym _ Hpos).
Qed.
End VerdictFacts.

(** ** Comments and the step summary *)

Section RegexpFacts.
Import regexp.

Lemma append_nil_inv (a b : string) :
  a +:+ b = EmptyString -> a = EmptyString /\ b = EmptyString.
Proof.
  destruct a; [intros H; split; [reflexivity|exact H]|].
  rewrite append_cons. discriminate.
Qed.

Lemma nullable_lang (r : t) (s : string) :
  lang r s -> s = EmptyString -> nullable r = true.
Proof.
  induction 1 as [|p c Hp|a b s1 s2 _ IHa _ IHb|a b s _ IH|a b s _ IH| |a s1 s2 _ _ _ _];
    intros Hs; cbn [nullable]; try reflexivity; try discriminate.
  - apply append_nil_inv in Hs as [H1 H2]. now rewrite (IHa H1), (IHb H2).
  - now rewrite IH.
  - rewrite IH by assumption. apply orb_true_r.
Qed.

Lemma deriv_lang (r : t) (s : string) :
  lang r s -> forall c rest, s = String c rest -> lang (deriv c r) rest.
Proof.
  induction 1 as [|p c' Hp|a b s1 s2 Ha IHa Hb IHb|a b s _ IH|a b s _ IH|
                  |a s1 s2 Ha IHa Hs IHs];
    intros c rest Hs'; cbn [deriv]; try discriminate.
  - injection Hs' as -> <-. rewrite Hp. constructor.
  - destruct s1 as [|c1 s1].
    + rewrite (nullable_lang a EmptyString Ha eq_refl).
      apply lang_AltR. now apply IHb.
    + rewrite append_cons in Hs'. injection Hs' as -> <-.
      assert (H : lang (Cat (deriv c a) b) (s1 +:+ s2))
        by (constructor; [now apply IHa | exact Hb]).
      destruct (nullable a); [now apply lang_AltL | exact H].
  - apply lang_AltL. now apply IH.
  - apply lang_AltR. now apply IH.
  - destruct s1 as [|c1 s1].
    + now apply IHs.
    + rewrite append_cons in Hs'. injection Hs' as -> <-.
      constructor; [now apply IHa | exact Hs].
Qed.

Lemma matches_lang (s : string) : forall r, lang r s -> matches r s = true.
Proof.
  induction s as [|c s IH]; intros r H; cbn [matches].
  - now apply (nullable_lang r EmptyString).
  - apply IH. now apply (deriv_lang r (String c s)).
Qed.

Lemma lang_literal (s : string) : lang (literal s) s.
Proof.
  induction s as [|c s IH]; cbn [literal]; [constructor|].
  change (String c s) with (String c EmptyString +:+ s).
  constructor; [|exact IH]. constructor. apply Ascii.eqb_refl.
Qed.

Lemma lang_any (s : string) : lang (Star any) s.
Proof.
  induction s as [|c s IH]; [constructor|].
  change (String c s) with (String c EmptyString +:+ s).
  constructor; [|exact IH]. now constructor.
Qed.

Lemma lang_blank (s : string) : blank s = true -> lang (Star (Class space)) s.
Proof.
  induction s as [|c s IH]; [constructor|]. cbn [blank].
  intros [Hc Hs]%andb_true_iff.
  change (String c s) with (String c EmptyString +:+ s).
  constructor; [now constructor | now apply IH].
Qed.

Lemma markerRegex_matches (pre ws1 ws2 post : string) :
  blank ws1 = true -> blank ws2 = true ->
  MatchString action.markerRegex
    (pre +:+ ("<!--" +:+ ws1 +:+ "plarix-scan" +:+ ws2 +:+ "-->") +:+ post) = true.
Proof.
  intros H1 H2. apply matches_lang.
  constructor; [apply lang_any|].
  constructor; [|apply lang_any].
  unfold action.markerRegex.
  constructor; [apply lang_literal|].
  constructor; [now apply lang_blank|].
  constructor; [apply lang_literal|].
  constructor; [now apply lang_blank|apply lang_literal].
Qed.

Lemma marked_matches (content : string) :
  MatchString action.markerRegex
    (action.commentMarker +:+ action.newline +:+ content) = true.
Proof.
  exact (markerRegex_matches EmptyString " " " " (action.newline +:+ content)
           eq_refl eq_refl).
Qed.
End RegexpFacts.

Section ActionFacts.
Import action.
Variable http_NewRequest : string -> string -> option string.
Variable http_Do : Request -> result Response.
Variable json_Decode : string -> result (list comment).
Variable json_Marshal : string -> string.

Local Abbreviation find := (findExistingComment http_NewRequest http_Do json_Decode).
Local Abbreviation create := (createComment http_NewRequest http_Do json_Marshal).
Local Abbreviation update := (updateComment http_NewRequest http_Do json_Marshal).
Local Abbreviation post := (PostComment http_NewRequest http_Do json_Decode json_Marshal).
Local Abbreviation unmarked :=
  (fun c : comment => regexp.MatchString markerRegex (Text c) = false).
Local Abbreviation marked content := (commentMarker +:+ newline +:+ content).

Lemma firstMarked_none (comments : list comment) :
  Forall unmarked comments -> firstMarked comments = 0.
Proof.
  induction 1 as [|c comments Hc _ IH]; [reflexivity|]. cbn [firstMarked].
  now rewrite Hc.
Qed.

Lemma firstMarked_first (before after : list comment) (c : comment) :
  Forall unmarked before -> regexp.MatchString markerRegex (Text c) = true ->
  firstMarked (before ++ c :: after) = ID c.
Proof.
  induction 1 as [|b before Hb _ IH]; intros Hc; cbn [firstMarked app].
  - now rewrite Hc.
  - rewrite Hb. now apply IH.
Qed.

Lemma find_cases (pr : PRInfo) (sent : list Request) :
  let get := listRequest pr (listURL pr) in
  (snd (find pr sent) = sent /\ exists err, fst (find pr sent) = Err err) \/
  (snd (find pr sent) = sent ++ [get] /\
   ((exists err, fst (find pr sent) = Err err) \/
    exists resp comments,
      http_Do get = Ok resp /\ StatusCode resp = 200 /\
      json_Decode (Body resp) = Ok comments /\
      fst (find pr sent) = Ok (firstMarked comments))).
Proof.
  cbv zeta. unfold findExistingComment.
  destruct (http_NewRequest "GET" (listURL pr)) as [err|]; [left; eauto|].
  right. fold (listRequest pr (listURL pr)).
  destruct (http_Do (listRequest pr (listURL pr))) as [resp|err] eqn:Hdo;
    [|split; [reflexivity|left; eauto]].
  destruct (StatusCode resp =? 200) eqn:Hs; cbn [negb];
    [|split; [reflexivity|left; eauto]].
  apply Z.eqb_eq in Hs.
  destruct (json_Decode (Body resp)) as [comments|err] eqn:Hd;
    (split; [reflexivity|]); [right|left]; eauto 10.
Qed.

Lemma create_cases (pr : PRInfo) (content : string) (sent : list Request) :
  snd (create pr content sent) = sent \/
  snd (create pr content sent) =
    sent ++ [writeRequest pr "POST" (listURL pr) (json_Marshal content)].
Proof.
  unfold createComment.
  destruct (http_NewRequest "POST" (listURL pr)); [now left|]. right.
  fold (writeRequest pr "POST" (listURL pr) (json_Marshal content)).
  destruct (http_Do _) as [resp|]; [|reflexivity].
  now destruct (_ || _).
Qed.

Lemma update_cases (pr : PRInfo) (id : Z) (content : string) (sent : list Request) :
  snd (update pr id content sent) = sent \/
  snd (update pr id content sent) =
    sent ++ [writeRequest pr "PATCH" (commentURL pr id) (json_Marshal content)].
Proof.
  unfold updateComment.
  destruct (http_NewRequest "PATCH" (commentURL pr id)); [now left|]. right.
  fold (writeRequest pr "PATCH" (commentURL pr id) (json_Marshal content)).
  destruct (http_Do _) as [resp|]; [|reflexivity].
  now destruct (_ || _).
Qed.

(** X26. [PostComment] sends at most two requests: the listing, and after
    a listing that succeeded one write, either a PATCH of the first marked
    comment (when its id is positive) or a POST of a new comment, never
    both. The write carries the content under the marker. When the listing
    fails, nothing is written. *)
Theorem PostComment_requests (pr : PRInfo) (content : string) (sent : list Request) :
  let get := listRequest pr (listURL pr) in
  let body := json_Marshal (marked content) in
  snd (post pr content sent) = sent \/
  snd (post pr content sent) = sent ++ [get] \/
  (exists resp comments,
     http_Do get = Ok resp /\ StatusCode resp = 200 /\
     json_Decode (Body resp) = Ok comments /\
     ((0 < firstMarked comments /\
       snd (post pr content sent) =
         sent ++ [get; writeRequest pr "PATCH" (commentURL pr (firstMarked comments)) body]) \/
      (firstMarked comments <= 0 /\
       snd (post pr content sent) =
         sent ++ [get; writeRequest pr "POST" (listURL pr) body]))).
Proof.
  cbv zeta. unfold PostComment.
  destruct (find_cases pr sent) as [[Hs [err He]]|[Hs [[err He]|(resp & comments & Hdo & Hst & Hd & Hf)]]];
    destruct (find pr sent) as [[id|e] sent'] eqn:Hfind; cbn [fst snd] in *;
    try discriminate; subst sent'.
  - now left.
  - right; now left.
  - injection Hf as ->.
    destruct (0 <? firstMarked comments) eqn:Hpos.
    + apply Z.ltb_lt in Hpos.
      destruct (update_cases pr (firstMarked comments) (marked content)
                  (sent ++ [listRequest pr (listURL pr)])) as [H|H]; rewrite H.
      * right; now left.
      * right; right. exists resp, comments. repeat split; try assumption.
        left. split; [exact Hpos|]. now rewrite <- app_assoc.
    + apply Z.ltb_ge in Hpos.
      destruct (create_cases pr (marked content)
                  (sent ++ [listRequest pr (listURL pr)])) as [H|H]; rewrite H.
      * right; now left.
      * right; right. exists resp, comments. repeat split; try assumption.
        right. split; [exact Hpos|]. now rewrite <- app_assoc.
Qed.

(** X27. [PostComment] is an upsert. When the listing shows a comment that
    an earlier call posted (the marker, a line break, any text), with a
    positive id and no marked comment before it, the call updates that
    comment; when no comment of the listing is marked, it creates one. *)
Theorem PostComment_upsert (pr : PRInfo) (content : string) (sent : list Request)
    (resp : Response) (comments : list comment) :
  http_NewRequest "GET" (listURL pr) = None ->
  http_Do (listRequest pr (listURL pr)) = Ok resp ->
  StatusCode resp = 200 ->
  json_Decode (Body resp) = Ok comments ->
  let sent' := sent ++ [listRequest pr (listURL pr)] in
  (forall before id old after,
     comments = before ++ {| ID := id; Text := marked old |} :: after ->
     Forall unmarked before -> 0 < id ->
     post pr content sent = update pr id (marked content) sent') /\
  (Forall unmarked comments ->
   post pr content sent = create pr (marked content) sent').
Proof.
  intros Hn Hdo Hs Hd. cbv zeta.
  assert (Hfind : find pr sent =
                  (Ok (firstMarked comments), sent ++ [listRequest pr (listURL pr)])).
  { unfold findExistingComment. rewrite Hn.
    fold (listRequest pr (listURL pr)). rewrite Hdo, Hs, Hd. reflexivity. }
  split.
  - intros before id old after -> Hb Hid. unfold PostComment. rewrite Hfind.
    rewrite (firstMarked_first before after {| ID := id; Text := marked old |} Hb
               (marked_matches old)).
    cbn [ID]. apply Z.ltb_lt in Hid. now rewrite Hid.
  - intros Hu. unfold PostComment. rewrite Hfind, (firstMarked_none _ Hu).
    reflexivity.
Qed.
End ActionFacts.

Section StepSummaryFacts.
Import action.
Variable env : string -> string.
Variable os_OpenFile : string -> option string.
Variable f_WriteString : string -> string -> option (nat * string).

Local Abbreviation summarise := (WriteStepSummary env os_OpenFile f_WriteString).

Lemma skip_length_app (a b : string) : Go.skip (String.length a) (a +:+ b) = b.
Proof. induction a as [|c a IH]; [reflexivity|]. rewrite append_cons. exact IH. Qed.

Lemma length_append (a b : string) :
  String.length (a +:+ b) = (String.length a + String.length b)%nat.
Proof.
  induction a as [|c a IH]; [reflexivity|]. rewrite append_cons. cbn. now rewrite IH.
Qed.

Lemma HasSuffix_app (a b : string) : GoLib.HasSuffix (a +:+ b) b = true.
Proof.
  unfold GoLib.HasSuffix. rewrite length_append.
  replace (String.length a + String.length b - String.length b)%nat
    with (String.length a) by lia.
  rewrite skip_length_app, String.eqb_refl, andb_true_r.
  apply Nat.leb_le. lia.
Qed.

(** X28. [WriteStepSummary] does nothing when [GITHUB_STEP_SUMMARY] is not
    set. Otherwise it touches the summary file only, and only appends to it;
    on success what it appends is the content, closed by a line break when
    the content does not end in one (and never by a second one). *)
Theorem WriteStepSummary_appends (content : string) (fs : gmap string string) :
  let path := env "GITHUB_STEP_SUMMARY" in
  let old := default EmptyString (fs !! path) in
  (path = EmptyString -> summarise content fs = (fs, None)) /\
  (forall p, p <> path -> fst (summarise content fs) !! p = fs !! p) /\
  (fst (summarise content fs) = fs \/
   exists added, fst (summarise content fs) !! path = Some (old +:+ added)) /\
  (path <> EmptyString -> snd (summarise content fs) = None ->
   exists block,
     fst (summarise content fs) !! path = Some (old +:+ block) /\
     GoLib.HasSuffix block newline = true /\
     (block = content \/
      block = content +:+ newline /\ GoLib.HasSuffix content newline = false)).
Proof.
  cbv zeta. unfold WriteStepSummary.
  destruct (String.eqb_spec (env "GITHUB_STEP_SUMMARY") EmptyString) as [He|He].
  { repeat split; try reflexivity; [now left | congruence]. }
  split; [congruence|].
  destruct (os_OpenFile _) as [err|].
  { repeat split; [now left | discriminate]. }
  set (block := if GoLib.HasSuffix content newline then content else content +:+ newline).
  assert (Hblock : GoLib.HasSuffix block newline = true /\
                   (block = content \/
                    block = content +:+ newline /\ GoLib.HasSuffix content newline = false)).
  { subst block. destruct (GoLib.HasSuffix content newline) eqn:Hc.
    - split; [exact Hc | now left].
    - split; [apply HasSuffix_app | right; now split]. }
  destruct (f_WriteString _ block) as [[n err]|]; cbn [fst snd].
  - split; [intros p Hp; now rewrite lookup_insert_ne|].
    split; [right; eexists; apply lookup_insert_eq | discriminate].
  - split; [intros p Hp; now rewrite lookup_insert_ne|].
    split; [right; eexists; apply lookup_insert_eq|].
    intros _ _. exists block. split; [apply lookup_insert_eq | exact Hblock].
Qed.
End StepSummaryFacts.

(** ** Instances *)


(** A call of [gpt-4o] with no tokens, under the table of the tests. *)
Lemma ComputeCost_no_tokens_witness :
  pricing.Known (pricing.ComputeCost fixtures.noTable fixtures.prices "gpt-4o" 0 0) = true /\
  Go.f64_eqb
    (pricing.CostUSD (pricing.ComputeCost fixtures.noTable fixtures.prices "gpt-4o" 0 0))
    Go.f64_zero = true.
Proof.
  apply (ComputeCost_no_tokens fixtures.noTable fixtures.prices "gpt-4o"
           {| pricing.InputPer1K := Go.lit 0.0025; pricing.OutputPer1K := Go.lit 0.01 |});
    vm_compute; reflexivity.
Defined.

(** The table of the tests, loaded from a disk that holds it. *)
Lemma Load_preserves_prices_witness :
  exists (data : string) (p0 : pricing.Prices),
    samples.tableDisk "prices/prices.json" = Ok data /\
    samples.decodeTable data = Ok p0 /\
    pricing.AsOf fixtures.prices = pricing.AsOf p0.
Proof.
  destruct (Load_preserves_prices fixtures.noTable samples.tableDisk
              samples.decodeTable "prices/prices.json" fixtures.prices eq_refl)
    as (data & p0 & Hr & Hd & Ha & _).
  exists data, p0. repeat split; assumption.
Defined.


(** A JSON answer with status 200 is logged once and handed on whole. *)
Lemma handleResponse_buffered_witness :
  snd (proxy.handleResponse fixtures.noParse fixtures.noParse fixtures.noParse
         fixtures.logging "openai" "/v1/chat/completions"
         (fixtures.reply 200 "application/json" fixtures.document) []) =
    [ledger.newEntry "openai" "/v1/chat/completions" false] /\
  fst (proxy.respond fixtures.noParse fixtures.noParse fixtures.noParse
         fixtures.logging fixtures.noChunk fixtures.keepFirst None
         "openai" "/v1/chat/completions"
         (fixtures.reply 200 "application/json" fixtures.document) []) =
    proxy.Replied 200 ["{}"].
Proof.
  pose proof (handleResponse_buffered fixtures.noParse fixtures.noParse
                fixtures.noParse fixtures.logging fixtures.noChunk
                fixtures.keepFirst None "openai" "/v1/chat/completions" "{}"
                (fixtures.reply 200 "application/json" fixtures.document) []
                ltac:(cbn; lia) eq_refl eq_refl eq_refl) as H.
  cbv zeta in H. destruct H as (_ & _ & _ & Hs & Hc).
  split; [exact Hs | exact (Hc eq_refl)].
Defined.

(** The path of a chat completion: the provider is [openai], the upstream
    gets [/v1/chat/completions]. *)
Lemma ServeHTTP_forwards_witness :
  proxy.firstSegment "/openai/v1/chat/completions" = "openai" /\
  routes.targetPath "/openai/v1/chat/completions" = "/v1/chat/completions".
Proof.
  pose proof (ServeHTTP_forwards fixtures.noParse fixtures.noParse fixtures.noParse
                fixtures.logging fixtures.noChunk fixtures.keepFirst
                fixtures.decodeBody fixtures.encodeBody samples.parseLocal
                fixtures.noEnv fixtures.refused None
                (fixtures.post "/openai/v1/chat/completions" "{}") []
                "openai" "https://api.openai.com" "v1/chat/completions"
                eq_refl eq_refl) as (Hp & Ht & _).
  split; [exact Hp | exact Ht].
Defined.

(** An upstream that refuses every connection: nothing is logged. *)
Lemma ServeHTTP_bad_gateway_witness :
  snd (proxy.ServeHTTP fixtures.noParse fixtures.noParse fixtures.noParse
         fixtures.logging fixtures.noChunk fixtures.keepFirst fixtures.decodeBody
         fixtures.encodeBody samples.parseLocal fixtures.noEnv fixtures.refused None
         (fixtures.post "/openai/v1/models" "{}") []) = [].
Proof.
  exact (proj1 (ServeHTTP_bad_gateway fixtures.noParse fixtures.noParse
                  fixtures.noParse fixtures.logging fixtures.noChunk
                  fixtures.keepFirst fixtures.decodeBody fixtures.encodeBody
                  samples.parseLocal fixtures.noEnv fixtures.refused None
                  (fixtures.post "/openai/v1/models" "{}") []
                  "https://api.openai.com" "connection refused"
                  eq_refl (fun _ => eq_refl))).
Defined.

(** A proxy that lists no provider answers a request to [anthropic] as one
    that lists all three. *)
Lemma ServeHTTP_ignores_Providers_witness :
  proxy.ServeHTTP fixtures.noParse fixtures.noParse fixtures.noParse
    fixtures.logging fixtures.noChunk fixtures.keepFirst fixtures.decodeBody
    fixtures.encodeBody samples.parseLocal fixtures.noEnv fixtures.refused None
    (fixtures.post "/anthropic/v1/messages" "{}") [] =
  proxy.ServeHTTP fixtures.noParse fixtures.noParse fixtures.noParse
    samples.unlisted fixtures.noChunk fixtures.keepFirst fixtures.decodeBody
    fixtures.encodeBody samples.parseLocal fixtures.noEnv fixtures.refused None
    (fixtures.post "/anthropic/v1/messages" "{}") [].
Proof.
  apply (ServeHTTP_ignores_Providers fixtures.noParse fixtures.noParse
           fixtures.noParse fixtures.noChunk fixtures.keepFirst
           fixtures.decodeBody fixtures.encodeBody samples.parseLocal
           fixtures.noEnv fixtures.refused None fixtures.logging samples.unlisted
           (fixtures.post "/anthropic/v1/messages" "{}") []);
    [reflexivity | intros _; reflexivity].
Defined.

(** With the flag set, a streaming chat request still reaches the upstream
    without [stream_options]. *)
Lemma runCmd_never_injects_witness :
  proxy.ServeHTTP fixtures.noParse fixtures.noParse fixtures.noParse
    (cli.proxyConfig fixtures.noTable samples.marshal "2026-01-04T12:00:00Z"
       samples.roomy fixtures.prices ["openai"] true)
    fixtures.noChunk fixtures.keepFirst fixtures.decodeBody fixtures.encodeBody
    samples.parseLocal fixtures.noEnv samples.bounce None
    (fixtures.post "/openai/v1/chat/completions" fixtures.streamBody) samples.fresh =
  (proxy.http_Error ("proxy error: refused: " +:+ fixtures.streamBody) 502,
   samples.fresh).
Proof.
  exact (runCmd_never_injects fixtures.noParse fixtures.noParse fixtures.noParse
           fixtures.noChunk fixtures.keepFirst fixtures.decodeBody
           fixtures.encodeBody samples.parseLocal fixtures.noEnv samples.bounce None
           fixtures.noTable samples.marshal "2026-01-04T12:00:00Z" samples.roomy
           fixtures.prices ["openai"] true
           (fixtures.post "/openai/v1/chat/completions" fixtures.streamBody)
           samples.fresh "https://api.openai.com" eq_refl).
Defined.


(** A server started on port 43210 and stopped still reports the port. *)
Lemma Server_lifecycle_witness :
  lifecycle.Port
    (fst (lifecycle.Stop None
            (fst (lifecycle.Start (Ok 43210) lifecycle.NewServer)))) = 43210.
Proof.
  pose proof (Server_lifecycle lifecycle.NewServer 43210 (Ok 1) None None
                "address already in use" eq_refl) as H.
  cbv zeta in H. destruct H as (_ & (_ & Hp & _) & _). exact Hp.
Defined.

(** One call of unknown cost, a threshold of one cent, a command that
    succeeds: the run succeeds. *)
Lemma verdict_unknown_costs_witness :
  cli.verdict samples.noDigits (Go.lit 0.01)
    (ledger.TotalKnownCostUSD
       (ledger.Aggregator.Summary {| ledger.Aggregator.entries := [samples.unread] |}))
    None = None.
Proof.
  apply (verdict_unknown_costs samples.noDigits (Go.lit 0.01) None [samples.unread]).
  repeat constructor.
Defined.

(** The report of an earlier run is found behind a review comment, and
    updated. *)
Lemma PostComment_upsert_witness :
  action.PostComment samples.valid samples.api samples.decodeListing
    samples.encodeComment samples.pr "new report" [] =
  action.updateComment samples.valid samples.api samples.encodeComment samples.pr 42
    (action.commentMarker +:+ action.newline +:+ "new report")
    [action.listRequest samples.pr (action.listURL samples.pr)].
Proof.
  refine (proj1 (PostComment_upsert samples.valid samples.api samples.decodeListing
                   samples.encodeComment samples.pr "new report" []
                   {| action.StatusCode := 200; action.Status := "200 OK";
                      action.Body := "[]" |}
                   samples.listing eq_refl eq_refl eq_refl eq_refl)
            [{| action.ID := 41; action.Text := "LGTM" |}] 42 "old report" []
            eq_refl _ _).
  - constructor; [vm_compute; reflexivity | constructor].
  - reflexivity.
Defined.
